(** * nextstephr-todo: the task collection engine, embedded in Rocq

    The development follows the TypeScript sources file by file:
    - [Js]        the JavaScript string and array primitives the code calls;
    - [Json]      JSON values and [JSON.parse];
    - [Api]       src/features/todos/api.ts (schemas, gateway calls);
    - [Gemini]    src/lib/gemini.ts (the generation client);
    - [AiService] src/features/ai/aiService.ts (prompting and decoding);
    - [AIPanel]   src/features/ai/AIPanel.tsx (the plan hand-off);
    - [TodoPage]  src/features/todos/TodoPage.tsx (filter, drag, plan merge).

    Strings are sequences of UTF-16 code units, as in JavaScript, so that
    [length] is the [.length] the validators look at.

    What the code takes from outside the repository is left open: the
    case mapping of the engine is a [Js.Engine], of which only what it
    does to ASCII texts is used; zod's UUID test and the answers of
    Supabase are an [Api.Platform].  The general statements hold for
    every engine and every platform; [Sample] has one of each to
    evaluate on. *)

From Stdlib Require Import Ascii String DecimalString.
From Stdlib Require Import List ZArith NArith Lia Bool Permutation Sorted.
Import ListNotations.

Set Implicit Arguments.
Set Warnings "-register-all".

(* ===================================================================== *)
(** * JavaScript primitives *)
(* ===================================================================== *)

Module Js.

(** A JavaScript string: its UTF-16 code units. *)
Definition jsstring := list N.

(** A literal, written as a Rocq string of 8-bit characters. *)
Definition str (s : String.string) : jsstring :=
  map N_of_ascii (String.list_ascii_of_string s).

Arguments str s%_string.

(** A literal in which every apostrophe stands for a double quote. *)
Definition quoted (s : String.string) : jsstring :=
  map (fun c => if (c =? 39)%N then 34%N else c) (str s).

Arguments quoted s%_string.

Fixpoint streq (a b : jsstring) : bool :=
  match a, b with
  | [], [] => true
  | x :: a', y :: b' => N.eqb x y && streq a' b'
  | _, _ => false
  end.

(** WhiteSpace and LineTerminator of ECMAScript: what [trim] removes and
    what the regular-expression class [\s] matches. *)
Definition isWhiteSpace (c : N) : bool :=
  ((9 <=? c) && (c <=? 13) || (c =? 32) || (c =? 160) || (c =? 5760)
   || (8192 <=? c) && (c <=? 8202) || (c =? 8232) || (c =? 8233)
   || (c =? 8239) || (c =? 8287) || (c =? 12288) || (c =? 65279))%N.

(** Drops the units in [white] from the front, from the end. *)
Fixpoint dropStart (white : N -> bool) (s : jsstring) : jsstring :=
  match s with
  | c :: s' => if white c then dropStart white s' else s
  | [] => []
  end.

Definition dropEnd (white : N -> bool) (s : jsstring) : jsstring :=
  rev (dropStart white (rev s)).

Definition trimStart (s : jsstring) : jsstring := dropStart isWhiteSpace s.

Definition trimEnd (s : jsstring) : jsstring := dropEnd isWhiteSpace s.

Definition trim (s : jsstring) : jsstring := trimEnd (trimStart s).

(** The lower case of an ASCII unit: A-Z go to a-z. *)
Definition lowerUnit (c : N) : N :=
  if ((65 <=? c) && (c <=? 90))%N then (c + 32)%N else c.

Definition isAscii (c : N) : bool := (c <? 128)%N.

(** [String.prototype.toLowerCase] is the engine's: it follows the
    Unicode case mappings, which are not transcribed here.  What is
    used of it is what it does to a text of ASCII units. *)
Class Engine : Type := {
  toLowerCase : jsstring -> jsstring;
  toLowerCase_ascii :
    forall s, forallb isAscii s = true -> toLowerCase s = map lowerUnit s
}.

Fixpoint startsWith (s p : jsstring) {struct p} : bool :=
  match p, s with
  | [], _ => true
  | _ :: _, [] => false
  | a :: p', b :: s' => N.eqb a b && startsWith s' p'
  end.

(** [s.includes(q)]: [q] starts at some position of [s]. *)
Fixpoint includes (s q : jsstring) : bool :=
  startsWith s q ||
  match s with
  | [] => false
  | _ :: s' => includes s' q
  end.

(** [s.slice(0, n)]. *)
Definition slice0 (n : nat) (s : jsstring) : jsstring := firstn n s.

(** [array.findIndex(p)]: the first index whose element satisfies [p],
    or -1. *)
Fixpoint findIndex {T} (p : T -> bool) (l : list T) : Z :=
  match l with
  | [] => -1
  | x :: l' =>
      if p x then 0
      else let r := findIndex p l' in
           if (r <? 0)%Z then -1 else (r + 1)%Z
  end.

(** The start position [splice] works from: a negative start counts from
    the end, and the result is clamped to the array. *)
Definition spliceStart (len : nat) (start : Z) : nat :=
  if (start <? 0)%Z then Z.to_nat (Z.max (Z.of_nat len + start) 0)
  else Nat.min (Z.to_nat start) len.

(** [array.map((x, i) => f x i)] *)
Fixpoint mapi_from {T U} (i : nat) (f : T -> nat -> U) (l : list T) : list U :=
  match l with
  | [] => []
  | x :: l' => f x i :: mapi_from (S i) f l'
  end.

Definition mapi {T U} (f : T -> nat -> U) (l : list T) : list U :=
  mapi_from 0 f l.

(** [array.sort(cmp)]: the sort is stable; written as an insertion sort
    that keeps equal elements in input order. *)
Fixpoint sortInsert {T} (cmp : T -> T -> Z) (x : T) (l : list T) : list T :=
  match l with
  | [] => [x]
  | y :: l' =>
      if (cmp x y <=? 0)%Z then x :: y :: l'
      else y :: sortInsert cmp x l'
  end.

Fixpoint sort {T} (cmp : T -> T -> Z) (l : list T) : list T :=
  match l with
  | [] => []
  | x :: l' => sortInsert cmp x (sort cmp l')
  end.

Definition isSome {A} (o : option A) : bool :=
  match o with Some _ => true | None => false end.

(** [o ?? a]: the value when there is one, else the default. *)
Definition orElse {A} (o : option A) (a : A) : A :=
  match o with
  | Some x => x
  | None => a
  end.

(** The order of the default [array.sort()] on strings: by code units,
    a proper prefix first.  Negative, zero or positive. *)
Fixpoint compareUnits (a b : jsstring) : Z :=
  match a, b with
  | [], [] => 0%Z
  | [], _ :: _ => (-1)%Z
  | _ :: _, [] => 1%Z
  | x :: a', y :: b' =>
      if (x <? y)%N then (-1)%Z
      else if (y <? x)%N then 1%Z
      else compareUnits a' b'
  end.

(** [Array.from(new Set(l))]: the first occurrence of each string, in
    order. *)
Fixpoint uniq (l : list jsstring) : list jsstring :=
  match l with
  | [] => []
  | x :: l' => x :: filter (fun y => negb (streq y x)) (uniq l')
  end.

(** [s.split(sep)] for a separator of one unit. *)
Fixpoint split (sep : N) (s : jsstring) : list jsstring :=
  match s with
  | [] => [[]]
  | c :: s' =>
      if (c =? sep)%N then [] :: split sep s'
      else match split sep s' with
           | piece :: pieces => (c :: piece) :: pieces
           | [] => [[c]]
           end
  end.

(** [l.join(sep)] *)
Fixpoint join (sep : jsstring) (l : list jsstring) : jsstring :=
  match l with
  | [] => []
  | [x] => x
  | x :: l' => x ++ sep ++ join sep l'
  end.

End Js.

Import Js.

(** dnd-kit's [arrayMove(array, from, to)]:
    [newArray.splice(to < 0 ? newArray.length + to : to, 0,
                     newArray.splice(from, 1)[0])].
    The target is computed before the element is taken out.  When nothing
    is taken out the library inserts [undefined]; the result is then
    [None], since the caller's [todo.id] would throw on it. *)
Definition arrayMove {T} (array : list T) (from to : Z) : option (list T) :=
  let len := length array in
  let target := if (to <? 0)%Z then (Z.of_nat len + to)%Z else to in
  let i := spliceStart len from in
  match nth_error array i with
  | Some x =>
      let rest := firstn i array ++ skipn (S i) array in
      let j := spliceStart (length rest) target in
      Some (firstn j rest ++ x :: skipn j rest)
  | None => None
  end.

(** What a JavaScript call can throw here. *)
Inductive exn : Type :=
| ZodError          (* a zod schema rejected its input *)
| SyntaxError       (* JSON.parse *)
| TypeError         (* property access on null or undefined, or a write
                       to a property of a primitive in strict mode *)
| Error (message : jsstring)
| PostgrestError    (* the [error] of a supabase response *).

Inductive result (A : Type) : Type :=
| Ok (a : A)
| Throw (e : exn).

Arguments Ok {A} a.
Arguments Throw {A} e.

(* ===================================================================== *)
(** * JSON values and [JSON.parse] *)
(* ===================================================================== *)

Module Json.

(** A decoded value.  A number is kept as the decimal its literal
    denotes, [mantissa * 10 ^ exponent]; what the code asks of a number
    is whether it is zero, see [isZero].  An object keeps its members in
    insertion order. *)
Inductive value : Type :=
| JNull
| JBool (b : bool)
| JNumber (mantissa exponent : Z)
| JString (s : jsstring)
| JArray (items : list value)
| JObject (members : list (jsstring * value)).

(** [o[k]] on an object's members; [None] is [undefined]. *)
Fixpoint lookup (k : jsstring) (members : list (jsstring * value))
    : option value :=
  match members with
  | [] => None
  | (k', v) :: rest => if streq k' k then Some v else lookup k rest
  end.

(** [o[k] = v] on an object's members. *)
Fixpoint assign (k : jsstring) (v : value) (members : list (jsstring * value))
    : list (jsstring * value) :=
  match members with
  | [] => [(k, v)]
  | (k', v') :: rest =>
      if streq k' k then (k', v) :: rest else (k', v') :: assign k v rest
  end.

(** Whether the Number that the literal [mantissa * 10 ^ exponent]
    denotes is zero.  The Number is the double nearest to the decimal,
    ties to even; it is zero when the magnitude is at most 2^-1075,
    half the smallest double. *)
Definition isZero (mantissa exponent : Z) : bool :=
  ((mantissa =? 0)
   || ((exponent <? 0)
       && (Z.abs mantissa * 2 ^ 1075 <=? 10 ^ (- exponent))))%Z.

(** ToBoolean, with [None] for [undefined]. *)
Definition truthy (v : option value) : bool :=
  match v with
  | None => false
  | Some JNull => false
  | Some (JBool b) => b
  | Some (JNumber m e) => negb (isZero m e)
  | Some (JString s) => negb (streq s [])
  | Some (JArray _) => true
  | Some (JObject _) => true
  end.

(** [Array.isArray] *)
Definition isArray (v : option value) : bool :=
  match v with
  | Some (JArray _) => true
  | _ => false
  end.

(** ** The grammar of ECMA-404 *)

Definition isJsonSpace (c : N) : bool :=
  ((c =? 32) || (c =? 9) || (c =? 10) || (c =? 13))%N.

Definition skip_ws (s : jsstring) : jsstring := dropStart isJsonSpace s.

(** The text between its leading and trailing white space. *)
Definition strip (s : jsstring) : jsstring := dropEnd isJsonSpace (skip_ws s).

Definition isDigit (c : N) : bool := ((48 <=? c) && (c <=? 57))%N.

(** Reads digits: the number they extend [acc] to, how many, the rest. *)
Fixpoint digits (s : jsstring) (acc : Z) : Z * nat * jsstring :=
  match s with
  | c :: s' =>
      if isDigit c then
        let '(v, n, r) := digits s' (acc * 10 + Z.of_N (c - 48)) in
        (v, S n, r)
      else (acc, 0, s)
  | [] => (acc, 0, [])
  end.

(** An optional minus sign. *)
Definition minus (s : jsstring) : Z * jsstring :=
  match s with
  | c :: s' => if (c =? 45)%N then (-1, s')%Z else (1%Z, s)
  | [] => (1%Z, s)
  end.

(** An optional minus or plus sign. *)
Definition sign (s : jsstring) : Z * jsstring :=
  match s with
  | c :: s' =>
      if (c =? 45)%N then (-1, s')%Z
      else if (c =? 43)%N then (1%Z, s')
      else (1%Z, s)
  | [] => (1%Z, s)
  end.

(** The fraction part: ['.'] and at least one digit, or nothing. *)
Definition fraction (m : Z) (s : jsstring) : option (Z * nat * jsstring) :=
  match s with
  | c :: s' =>
      if (c =? 46)%N then
        let '(m', n, r) := digits s' m in
        if Nat.eqb n 0 then None else Some (m', n, r)
      else Some (m, 0, s)
  | [] => Some (m, 0, s)
  end.

(** The exponent part: [e] or [E], a sign, at least one digit; or
    nothing. *)
Definition exponent (s : jsstring) : option (Z * jsstring) :=
  match s with
  | c :: s' =>
      if ((c =? 101) || (c =? 69))%N then
        let (sg, s'') := sign s' in
        let '(x, n, r) := digits s'' 0 in
        if Nat.eqb n 0 then None else Some ((sg * x)%Z, r)
      else Some (0%Z, s)
  | [] => Some (0%Z, s)
  end.

Definition parse_number (s : jsstring) : option (value * jsstring) :=
  let (sg, s1) := minus s in
  match s1 with
  | [] => None
  | c :: s2 =>
      if negb (isDigit c) then None
      else
        let '(m, _, s3) := if (c =? 48)%N then (0%Z, 1, s2) else digits s1 0 in
        match fraction m s3 with
        | None => None
        | Some (m', fr, s4) =>
            match exponent s4 with
            | None => None
            | Some (x, s5) =>
                Some (JNumber (sg * m') (x - Z.of_nat fr), s5)
            end
        end
  end.

Definition hexval (c : N) : option N :=
  if isDigit c then Some (c - 48)%N
  else if ((97 <=? c) && (c <=? 102))%N then Some (c - 87)%N
  else if ((65 <=? c) && (c <=? 70))%N then Some (c - 55)%N
  else None.

(** The escape after a backslash: the code unit and the rest. *)
Definition escape (s : jsstring) : option (N * jsstring) :=
  match s with
  | [] => None
  | e :: rest =>
      if (e =? 34)%N then Some (34%N, rest)            (* \ quote *)
      else if (e =? 92)%N then Some (92%N, rest)       (* \\ *)
      else if (e =? 47)%N then Some (47%N, rest)       (* \/ *)
      else if (e =? 98)%N then Some (8%N, rest)        (* \b *)
      else if (e =? 102)%N then Some (12%N, rest)      (* \f *)
      else if (e =? 110)%N then Some (10%N, rest)      (* \n *)
      else if (e =? 114)%N then Some (13%N, rest)      (* \r *)
      else if (e =? 116)%N then Some (9%N, rest)       (* \t *)
      else if (e =? 117)%N then                        (* \uXXXX *)
        match rest with
        | a :: b :: c :: d :: rest' =>
            match hexval a, hexval b, hexval c, hexval d with
            | Some a', Some b', Some c', Some d' =>
                Some (((a' * 16 + b') * 16 + c') * 16 + d', rest')%N
            | _, _, _, _ => None
            end
        | _ => None
        end
      else None
  end.

(** The characters of a string literal after its opening quote, up to
    the closing one.  [fuel] bounds the number of characters. *)
Fixpoint parse_chars (fuel : nat) (s : jsstring) : option (jsstring * jsstring) :=
  match fuel with
  | 0 => None
  | S fuel' =>
      match s with
      | [] => None
      | c :: rest =>
          if (c =? 34)%N then Some ([], rest)
          else if (c =? 92)%N then
            match escape rest with
            | Some (u, rest') =>
                match parse_chars fuel' rest' with
                | Some (chars, r) => Some (u :: chars, r)
                | None => None
                end
            | None => None
            end
          else if (c <? 32)%N then None
          else
            match parse_chars fuel' rest with
            | Some (chars, r) => Some (c :: chars, r)
            | None => None
            end
      end
  end.

Definition parse_string (s : jsstring) : option (jsstring * jsstring) :=
  parse_chars (length s) s.

Definition literal (word : jsstring) (v : value) (s : jsstring)
    : option (value * jsstring) :=
  if startsWith s word then Some (v, skipn (length word) s) else None.

(** A value, the elements of an array after ['['] or [','], the members
    of an object after ['{'] or [','] (a repeated key keeps its first
    place and takes the later value).  Every call takes one unit of
    [fuel]. *)
Fixpoint parse_value (fuel : nat) (s : jsstring) {struct fuel}
    : option (value * jsstring) :=
  match fuel with
  | 0 => None
  | S n =>
      match skip_ws s with
      | [] => None
      | c :: rest =>
          if (c =? 123)%N then                       (* { *)
            match skip_ws rest with
            | d :: rest' =>
                if (d =? 125)%N then Some (JObject [], rest')
                else
                  match parse_members n rest [] with
                  | Some (ms, r) => Some (JObject ms, r)
                  | None => None
                  end
            | [] => None
            end
          else if (c =? 91)%N then                   (* [ *)
            match skip_ws rest with
            | d :: rest' =>
                if (d =? 93)%N then Some (JArray [], rest')
                else
                  match parse_elements n rest with
                  | Some (vs, r) => Some (JArray vs, r)
                  | None => None
                  end
            | [] => None
            end
          else if (c =? 34)%N then                   (* quote *)
            match parse_string rest with
            | Some (chars, r) => Some (JString chars, r)
            | None => None
            end
          else if (c =? 116)%N then literal (str "true") (JBool true) (c :: rest)
          else if (c =? 102)%N then literal (str "false") (JBool false) (c :: rest)
          else if (c =? 110)%N then literal (str "null") JNull (c :: rest)
          else parse_number (c :: rest)
      end
  end

with parse_elements (fuel : nat) (s : jsstring) {struct fuel}
    : option (list value * jsstring) :=
  match fuel with
  | 0 => None
  | S n =>
      match parse_value n s with
      | Some (v, rest) =>
          match skip_ws rest with
          | d :: rest' =>
              if (d =? 93)%N then Some ([v], rest')          (* ] *)
              else if (d =? 44)%N then                       (* , *)
                match parse_elements n rest' with
                | Some (vs, r) => Some (v :: vs, r)
                | None => None
                end
              else None
          | [] => None
          end
      | None => None
      end
  end

with parse_members (fuel : nat) (s : jsstring)
    (seen : list (jsstring * value)) {struct fuel}
    : option (list (jsstring * value) * jsstring) :=
  match fuel with
  | 0 => None
  | S n =>
      match skip_ws s with
      | q :: s1 =>
          if (q =? 34)%N then
            match parse_string s1 with
            | Some (k, s2) =>
                match skip_ws s2 with
                | colon :: s3 =>
                    if (colon =? 58)%N then
                      match parse_value n s3 with
                      | Some (v, rest) =>
                          match skip_ws rest with
                          | d :: rest' =>
                              if (d =? 125)%N then            (* } *)
                                Some (assign k v seen, rest')
                              else if (d =? 44)%N then        (* , *)
                                parse_members n rest' (assign k v seen)
                              else None
                          | [] => None
                          end
                      | None => None
                      end
                    else None
                | [] => None
                end
            | None => None
            end
          else None
      | [] => None
      end
  end.

(** [JSON.parse(text)]: one value between white space, and nothing else.
    A nested value costs two units of fuel for at least one unit read,
    so twice the length is enough. *)
Definition JSON_parse (text : jsstring) : option value :=
  let body := strip text in
  match parse_value (2 * length body + 2) body with
  | Some (v, []) => Some v
  | _ => None
  end.

End Json.

(* ===================================================================== *)
(** * src/features/todos/api.ts *)
(* ===================================================================== *)

(** [Todo], the type inferred from [TodoSchema]. *)
Module Todo.
Record t : Type := mk {
  id : jsstring;
  title : jsstring;
  completed : bool;
  created_at : jsstring;
  user_id : jsstring;
  due_at : option jsstring;          (* string | null *)
  remind : bool;
  reminded : bool;
  tags : option (list jsstring);     (* string[] | null *)
  order : Z
}.
End Todo.

(** A row of the [todos] table, with the columns of the README's
    [create table]: a column that is not declared [not null] can hold
    NULL, here [None]. *)
Module Row.
Record t : Type := mk {
  id : jsstring;                            (* uuid primary key *)
  title : jsstring;                         (* text not null *)
  completed : option bool;                  (* boolean *)
  created_at : option jsstring;             (* timestamptz *)
  user_id : option jsstring;                (* uuid *)
  due_at : option jsstring;                 (* timestamptz *)
  remind : option bool;                     (* boolean *)
  reminded : option bool;                   (* boolean *)
  tags : option (list (option jsstring));   (* text[] *)
  order : option Z                          (* integer *)
}.
End Row.

(** [CreateTodoInput]; an optional key is an [option]. *)
Module CreateTodoInput.
Record t : Type := mk {
  title : jsstring;
  due_at : option (option jsstring); (* absent | null | string *)
  remind : option bool;
  tags : option (list jsstring)
}.
End CreateTodoInput.

(** The object handed to [.update(...)]: the columns to overwrite.
    [others] are the keys that the schemas do not name, with their
    values, as the caller's object has them. *)
Module Fields.
Record t : Type := mk {
  completed : option bool;
  title : option jsstring;
  due_at : option (option jsstring);
  remind : option bool;
  reminded : option bool;
  tags : option (list jsstring);
  order : option Z;
  others : list (jsstring * Json.value)
}.
End Fields.

(** [UpdateTodoInput]: an id and the optional columns.  The object that
    arrives at run time can have more keys than the type names; zod
    lets them pass, and they are in [others]. *)
Module UpdateTodoInput.
Record t : Type := mk {
  id : jsstring;
  completed : option bool;
  title : option jsstring;
  due_at : option (option jsstring);
  remind : option bool;
  reminded : option bool;
  tags : option (list jsstring);
  order : option Z;
  others : list (jsstring * Json.value)
}.
End UpdateTodoInput.

(** The elements of the array [reorderTodos] takes. *)
Module OrderUpdate.
Record t : Type := mk { id : jsstring; order : Z }.
End OrderUpdate.

Module Api.

(** One request to Supabase. *)
Inductive Request : Type :=
| AuthGetUser
| Insert (title user_id : jsstring) (due_at : option jsstring)
         (remind : bool) (tags : list jsstring)
| Update (values : Fields.t) (id : jsstring)
| Delete (id : jsstring).

(** The remote side: the table, the signed-in user, how many rows were
    inserted so far, and every request received, oldest first. *)
Record Remote : Type := mkRemote {
  rows : list Row.t;
  user : option jsstring;
  inserted : nat;
  wire : list Request
}.

(** What the code takes from outside this repository:
    - zod's [z.string().uuid()] test;
    - the column defaults of the [todos] table ([uuid_generate_v4()] and
      [now()]) for the n-th inserted row;
    - how a [timestamptz] column reads a text it is sent: the value a
      later select shows for it, or [None] when the text is refused;
    - how a row takes the keys of an update that the schemas do not
      name: the row with them set, or [None] when they are refused;
    - when a request fails for a reason of its own (the network, the
      server, a value that a column cannot hold, a key that is taken):
      the error the client gets; and the same for a select. *)
Class Platform : Type := {
  is_uuid : jsstring -> bool;
  uuid_generate_v4 : nat -> jsstring;
  now : nat -> jsstring;
  timestamptz : jsstring -> option jsstring;
  alter : list (jsstring * Json.value) -> Row.t -> option Row.t;
  failure : Remote -> Request -> option exn;
  select_failure : Remote -> option exn
}.

(** An asynchronous API function: it may throw, and it changes the remote
    side through the requests it sends. *)
Definition M (A : Type) : Type := Remote -> result A * Remote.

Definition ret {A} (a : A) : M A := fun r => (Ok a, r).

Definition throw {A} (e : exn) : M A := fun r => (Throw e, r).

Definition bind {A B} (m : M A) (k : A -> M B) : M B :=
  fun r =>
    match m r with
    | (Ok a, r') => k a r'
    | (Throw e, r') => (Throw e, r')
    end.

Notation "x <- m ;; k" := (bind m (fun x => k))
  (at level 61, m at next level, right associativity).
Notation "m ;;; k" := (bind m (fun _ => k))
  (at level 61, right associativity).

(** [schema.parse(x)] as a step: throws [ZodError] when the test fails. *)
Definition parse (ok : bool) : M unit :=
  if ok then ret tt else throw ZodError.

(** [if (error) throw error] *)
Definition throwIf (error : option exn) : M unit :=
  match error with
  | Some e => throw e
  | None => ret tt
  end.

(** Runs [f] on each element in turn. *)
Fixpoint forEach {A} (f : A -> M unit) (l : list A) : M unit :=
  match l with
  | [] => ret tt
  | x :: l' => f x ;;; forEach f l'
  end.

(** ** The gateway, from the README's table definition and policies *)

Definition received (q : Request) (r : Remote) : Remote :=
  mkRemote (rows r) (user r) (inserted r) (wire r ++ [q]).

(** Row level security: [auth.uid() = user_id], which does not hold of
    a NULL [user_id]. *)
Definition policy (r : Remote) (owner : option jsstring) : bool :=
  match user r, owner with
  | Some u, Some o => streq u o
  | _, _ => false
  end.

(** A test on a key that may be absent. *)
Definition optional {A} (ok : A -> bool) (o : option A) : bool :=
  match o with
  | Some a => ok a
  | None => true
  end.

(** Every row through [f], or [None] when [f] refuses one: an update
    is carried out on all its rows or on none. *)
Fixpoint updated (f : Row.t -> option Row.t) (rows : list Row.t)
    : option (list Row.t) :=
  match rows with
  | [] => Some []
  | t :: rest =>
      match f t, updated f rest with
      | Some t', Some rest' => Some (t' :: rest')
      | _, _ => None
      end
  end.

(** The [order] column is an [integer]: four bytes, signed. *)
Definition int4 (z : Z) : bool :=
  ((-2147483648 <=? z) && (z <=? 2147483647))%Z.

Section Gateway.
Context {P : Platform}.

(** [supabase.auth.getUser()]: [data.user] is [null] when there is no
    session and when the request fails. *)
Definition auth_getUser : M (option jsstring) :=
  fun r =>
    (Ok (match failure r AuthGetUser with
         | Some _ => None
         | None => user r
         end),
     received AuthGetUser r).

(** What the [due_at] column holds for a value sent: NULL for [null],
    else the timestamp read from the text. *)
Definition due (sent : option jsstring) : option jsstring :=
  match sent with
  | Some d => timestamptz d
  | None => None
  end.

(** The column takes [null] and the texts that [timestamptz] reads. *)
Definition accepted (sent : option jsstring) : bool :=
  match sent with
  | Some d => isSome (timestamptz d)
  | None => true
  end.

(** [supabase.from("todos").insert({...})]; resolves to the [error]. *)
Definition from_insert (title user_id : jsstring) (due_at : option jsstring)
    (remind : bool) (tags : list jsstring) : M (option exn) :=
  fun r =>
    let q := Insert title user_id due_at remind tags in
    let r' := received q r in
    match failure r q with
    | Some e => (Ok (Some e), r')
    | None =>
        if accepted due_at && policy r (Some user_id) then
          let row := Row.mk (uuid_generate_v4 (inserted r)) title (Some false)
                            (Some (now (inserted r))) (Some user_id)
                            (due due_at) (Some remind) (Some false)
                            (Some (map Some tags)) (Some 0%Z) in
          (Ok None,
           mkRemote (rows r' ++ [row]) (user r') (S (inserted r')) (wire r'))
        else (Ok (Some PostgrestError), r')
    end.

(** The columns of the schemas' keys, overwritten where [v] has one. *)
Definition overwrite (v : Fields.t) (t : Row.t) : Row.t :=
  Row.mk (Row.id t)
         (orElse (Fields.title v) (Row.title t))
         (match Fields.completed v with
          | Some b => Some b
          | None => Row.completed t
          end)
         (Row.created_at t)
         (Row.user_id t)
         (match Fields.due_at v with
          | Some sent => due sent
          | None => Row.due_at t
          end)
         (match Fields.remind v with
          | Some b => Some b
          | None => Row.remind t
          end)
         (match Fields.reminded v with
          | Some b => Some b
          | None => Row.reminded t
          end)
         (match Fields.tags v with
          | Some l => Some (map Some l)
          | None => Row.tags t
          end)
         (match Fields.order v with
          | Some o => Some o
          | None => Row.order t
          end).

(** The keys that the schemas do not name, when there are any. *)
Definition altered (others : list (jsstring * Json.value)) (t : Row.t)
    : option Row.t :=
  match others with
  | [] => Some t
  | _ :: _ => alter others t
  end.

(** [supabase.from("todos").update(values).eq("id", id)]: the rows
    with that id that the update policy lets the user reach. *)
Definition from_update (values : Fields.t) (id : jsstring) : M (option exn) :=
  fun r =>
    let q := Update values id in
    let r' := received q r in
    let upd t :=
      if streq (Row.id t) id && policy r (Row.user_id t)
      then altered (Fields.others values) (overwrite values t)
      else Some t in
    match failure r q with
    | Some e => (Ok (Some e), r')
    | None =>
        if optional accepted (Fields.due_at values)
           && optional int4 (Fields.order values) then
          match updated upd (rows r) with
          | Some rows' =>
              (Ok None, mkRemote rows' (user r') (inserted r') (wire r'))
          | None => (Ok (Some PostgrestError), r')
          end
        else (Ok (Some PostgrestError), r')
    end.

(** [supabase.from("todos").delete().eq("id", id)] *)
Definition from_delete (id : jsstring) : M (option exn) :=
  fun r =>
    let q := Delete id in
    let r' := received q r in
    let stays t := negb (streq (Row.id t) id && policy r (Row.user_id t)) in
    match failure r q with
    | Some e => (Ok (Some e), r')
    | None =>
        (Ok None,
         mkRemote (filter stays (rows r')) (user r') (inserted r') (wire r'))
    end.

End Gateway.

(** ** The schemas *)

(** [z.string().min(1).max(200)] *)
Definition title_ok (s : jsstring) : bool :=
  (1 <=? length s) && (length s <=? 200).

Definition CreateTodoSchema (input : CreateTodoInput.t) : bool :=
  title_ok (CreateTodoInput.title input).

(** [z.array(z.string())] on a [text[]] value: no element is NULL. *)
Fixpoint strings (l : list (option jsstring)) : option (list jsstring) :=
  match l with
  | [] => Some []
  | Some s :: rest =>
      match strings rest with
      | Some rest' => Some (s :: rest')
      | None => None
      end
  | None :: _ => None
  end.

Section Schemas.
Context {P : Platform}.

(** [TodoSchema.parse] on a row as a select gives it: every column is
    present, so no [default] applies, and a NULL passes only where the
    schema says [nullable]. *)
Definition TodoSchema (t : Row.t) : option Todo.t :=
  match Row.completed t, Row.created_at t, Row.user_id t,
        Row.remind t, Row.reminded t, Row.order t,
        (match Row.tags t with
         | Some l =>
             match strings l with
             | Some l' => Some (Some l')
             | None => None
             end
         | None => Some None
         end)
  with
  | Some completed, Some created_at, Some user_id,
    Some remind, Some reminded, Some order, Some tags =>
      if is_uuid (Row.id t) && title_ok (Row.title t) && is_uuid user_id
      then Some (Todo.mk (Row.id t) (Row.title t) completed created_at
                         user_id (Row.due_at t) remind reminded tags order)
      else None
  | _, _, _, _, _, _, _ => None
  end.

Definition UpdateTodoSchema (input : UpdateTodoInput.t) : bool :=
  is_uuid (UpdateTodoInput.id input)
  && optional title_ok (UpdateTodoInput.title input).

(** ** The calls *)

Definition createTodo (input : CreateTodoInput.t) : M unit :=
  parse (CreateTodoSchema input) ;;;
  user <- auth_getUser ;;
  match user with
  | None => throw (Error (str "User not authenticated"))
  | Some user_id =>
      error <- from_insert
                 (trim (CreateTodoInput.title input))
                 user_id
                 (* input.due_at || null *)
                 (match CreateTodoInput.due_at input with
                  | Some (Some (c :: s)) => Some (c :: s)
                  | _ => None
                  end)
                 (* input.remind || false *)
                 (orElse (CreateTodoInput.remind input) false)
                 (* input.tags || [] *)
                 (orElse (CreateTodoInput.tags input) []) ;;
      throwIf error
  end.

Definition updateTodo (input : UpdateTodoInput.t) : M unit :=
  parse (UpdateTodoSchema input) ;;;
  (* const { id, ...updates } = input *)
  let id := UpdateTodoInput.id input in
  let updates :=
    Fields.mk (UpdateTodoInput.completed input) (UpdateTodoInput.title input)
              (UpdateTodoInput.due_at input) (UpdateTodoInput.remind input)
              (UpdateTodoInput.reminded input) (UpdateTodoInput.tags input)
              (UpdateTodoInput.order input) (UpdateTodoInput.others input) in
  error <- from_update updates id ;;
  throwIf error.

Definition toggleTodo (id : jsstring) (completed : bool) : M unit :=
  parse (is_uuid id) ;;;
  error <- from_update
             (Fields.mk (Some completed) None None None None None None []) id ;;
  throwIf error.

Definition deleteTodo (id : jsstring) : M unit :=
  parse (is_uuid id) ;;;
  error <- from_delete id ;;
  throwIf error.

(** [reorderTodos]: one update per element, started in array order, all
    awaited together; the responses are not looked at. *)
Definition reorderTodos (todos : list OrderUpdate.t) : M unit :=
  forEach
    (fun todo =>
       from_update
         (Fields.mk None None None None None None
                    (Some (OrderUpdate.order todo)) [])
         (OrderUpdate.id todo) ;;;
       ret tt)
    todos.

(** ** Reading *)

(** How the database orders two [created_at] values: negative when the
    first is the earlier one. *)
Variable compareTime : jsstring -> jsstring -> Z.

(** [created_at] descending, NULL first. *)
Definition newestFirst (a b : Row.t) : Z :=
  match Row.created_at a, Row.created_at b with
  | Some x, Some y => compareTime y x
  | None, Some _ => (-1)%Z
  | Some _, None => 1%Z
  | None, None => 0%Z
  end.

(** [.order("order", { ascending: true })
     .order("created_at", { ascending: false })]; ascending puts NULL
    last. *)
Definition byOrderThenNewest (a b : Row.t) : Z :=
  match Row.order a, Row.order b with
  | Some x, Some y =>
      if (x <? y)%Z then (-1)%Z
      else if (y <? x)%Z then 1%Z
      else newestFirst a b
  | Some _, None => (-1)%Z
  | None, Some _ => 1%Z
  | None, None => newestFirst a b
  end.

(** [supabase.from("todos").select("*")] with the two orderings: the
    rows the select policy lets the user see.  A select is answered
    from the table and leaves the remote side as it is. *)
Definition from_select (r : Remote) : list Row.t :=
  sort byOrderThenNewest
       (filter (fun t => policy r (Row.user_id t)) (rows r)).

(** [z.array(TodoSchema).parse(data)] *)
Fixpoint validated (data : list Row.t) : option (list Todo.t) :=
  match data with
  | [] => Some []
  | row :: rest =>
      match TodoSchema row, validated rest with
      | Some todo, Some rest' => Some (todo :: rest')
      | _, _ => None
      end
  end.

(** [fetchTodos]: it throws the gateway's error when there is one, and
    a validation error when a row does not pass. *)
Definition fetchTodos : M (list Todo.t) :=
  fun r =>
    match select_failure r with
    | Some e => (Throw e, r)
    | None =>
        match validated (from_select r) with
        | Some data => (Ok data, r)
        | None => (Throw ZodError, r)
        end
    end.

End Schemas.

End Api.

(* ===================================================================== *)
(** * src/lib/gemini.ts *)
(* ===================================================================== *)

Module Gemini.

Import Json.

(** What [fetch] is called with: the key goes into the URL, the prompt
    into the body; with [jsonMode] the body asks for
    [application/json]. *)
Record Call : Type := mkCall {
  key : jsstring;
  prompt : jsstring;
  jsonMode : bool
}.

(** What [fetch] resolves to: [res.ok], [res.status] and the body that
    [res.text()] gives and [res.json()] parses. *)
Record Response : Type := mkResponse {
  ok : bool;
  status : nat;
  body : jsstring
}.

(** [fetch]: it resolves to a response or rejects. *)
Definition Fetch : Type := Call -> result Response.

(** [hasGeminiKey]; the key is [None] when the variable is not set. *)
Definition hasGeminiKey (GEMINI_API_KEY : option jsstring) : bool :=
  match GEMINI_API_KEY with
  | Some (_ :: _) => true
  | _ => false
  end.

(** [v?.key] for the keys read here ([candidates], [content], [parts],
    [text]); [None] is [undefined]. *)
Definition member (k : String.string) (v : option value) : option value :=
  match v with
  | Some (JObject members) => lookup (str k) members
  | _ => None
  end.

(** [v?.[0]] *)
Definition first (v : option value) : option value :=
  match v with
  | Some (JArray (x :: _)) => Some x
  | Some (JString (c :: _)) => Some (JString [c])
  | Some (JObject members) => lookup (str "0") members
  | _ => None
  end.

(** [text?.trim() ?? ""]: nothing to call on [undefined] or [null];
    a string is trimmed; anything else has no [trim] to call. *)
Definition trimmed (text : option value) : result jsstring :=
  match text with
  | None | Some JNull => Ok []
  | Some (JString s) => Ok (trim s)
  | Some _ => Throw TypeError
  end.

(** The decimal digits of a status code. *)
Definition decimal (n : nat) : jsstring :=
  str (NilZero.string_of_uint (Nat.to_uint n)).

(** [generateWithGemini(prompt, options)]: the result and the calls of
    [fetch] it made.  [jsonMode] is [options?.jsonMode], as a
    boolean. *)
Definition generateWithGemini (GEMINI_API_KEY : option jsstring)
    (fetch : Fetch) (prompt : jsstring) (jsonMode : bool)
    : result jsstring * list Call :=
  match GEMINI_API_KEY with
  | None | Some [] =>
      (Throw (Error (str "Gemini API key is missing. Add VITE_GEMINI_API_KEY to your .env file.")),
       [])
  | Some key =>
      let call := mkCall key prompt jsonMode in
      (match fetch call with
       | Throw e => Throw e
       | Ok res =>
           if negb (ok res) then
             Throw (Error (str "Gemini API error: " ++ decimal (status res)
                           ++ str " " ++ body res))
           else
             match JSON_parse (body res) with
             | None => Throw SyntaxError
             | Some data =>
                 trimmed
                   (member "text"
                      (first (member "parts"
                                (member "content"
                                   (first (member "candidates" (Some data)))))))
             end
       end,
       [call])
  end.

End Gemini.

Import Json.

(* ===================================================================== *)
(** * src/features/ai/types.ts *)
(* ===================================================================== *)

(** [ParsedTodo], as far as the decoder establishes it: the title and the
    due date are whatever the service sent when that was truthy. *)
Module ParsedTodo.
Record t : Type := mk {
  title : value;
  tags : list value;
  due_at : value;
  remind : bool
}.
End ParsedTodo.

Module OptimizedItem.
Record t : Type := mk {
  id : jsstring;
  title : jsstring;
  suggested_order : Z;
  suggested_due_at : option jsstring;
  suggested_remind : bool;
  reason : option jsstring
}.
End OptimizedItem.

(** [OptimizedPlan] as [getOptimizedPlan] returns it: [items] is an array,
    its elements are as the service sent them. *)
Module OptimizedPlan.
Record t : Type := mk {
  summary : value;
  items : list value
}.
End OptimizedPlan.

(* ===================================================================== *)
(** * src/features/ai/aiService.ts *)
(* ===================================================================== *)

Module AiService.

(** The prompt texts, by the function that builds them and the data they
    embed (next to the current date). *)
Inductive Prompt : Type :=
| getParseTodoPrompt (userInput : jsstring)
| BRIEF_PROMPT (todos : list Todo.t)
| getOptimizePrompt (todos : list Todo.t).

(** A function of the service module: it returns or throws, or it awaits
    [generateWithGemini(prompt, { jsonMode })] and goes on with the text. *)
Inductive Ai (A : Type) : Type :=
| Return (r : result A)
| Generate (prompt : Prompt) (jsonMode : bool) (k : jsstring -> Ai A).

Arguments Return {A} r.
Arguments Generate {A} prompt jsonMode k.

(** The generation service: what [generateWithGemini] resolves to. *)
Definition Service : Type := Prompt -> bool -> result jsstring.

(** Runs against a service; also returns the calls made, in order. *)
Fixpoint run {A} (gemini : Service) (p : Ai A)
    : result A * list (Prompt * bool) :=
  match p with
  | Return r => (r, [])
  | Generate prompt jsonMode k =>
      match gemini prompt jsonMode with
      | Ok text =>
          let (r, calls) := run gemini (k text) in
          (r, (prompt, jsonMode) :: calls)
      | Throw e => (Throw e, [(prompt, jsonMode)])
      end
  end.

(** The second alternative of the pattern, [\s*```$], tried at the start
    of [s]: white space, then the fence, then the end of the text. *)
Definition closesHere (s : jsstring) : bool :=
  streq (trimStart s) (str "```").

(** Removes the leftmost match of [\s*```$]. *)
Fixpoint stripClose (s : jsstring) : jsstring :=
  match s with
  | [] => []
  | c :: s' => if closesHere s then [] else c :: stripClose s'
  end.

(** [raw.replace(/^```json\s*|\s*```$/g, "")]: the first alternative can
    only match at the start; the search for the second goes on after
    it. *)
Definition stripFences (raw : jsstring) : jsstring :=
  if startsWith raw (str "```json")
  then stripClose (trimStart (skipn 7 raw))
  else stripClose raw.

Definition parseJson (raw : jsstring) : result value :=
  let cleaned := trim (stripFences raw) in
  match JSON_parse cleaned with
  | Some v => Ok v
  | None => Throw SyntaxError
  end.

(** [parsed.key] for the keys read here ([title], [tags], [due_at],
    [remind], [items], [summary]): only an object can have them. *)
Definition prop (k : String.string) (parsed : value) : option value :=
  match parsed with
  | JObject members => lookup (str k) members
  | _ => None
  end.

(** The body of [parseNaturalLanguageTodo] after [parseJson].  Reading a
    property of [null] throws; on a boolean, number or string the title
    is [undefined], the branch is taken and its assignment throws. *)
Definition fallbacks (userInput : jsstring) (parsed : value)
    : result ParsedTodo.t :=
  match parsed with
  | JNull | JBool _ | JNumber _ _ | JString _ => Throw TypeError
  | JArray _ | JObject _ =>
      let title0 := prop "title" parsed in
      let tags0 := prop "tags" parsed in
      let lacking := negb (truthy title0) || negb (isArray tags0) in
      let title1 :=
        (* parsed.title || userInput.slice(0, 200) *)
        if lacking
        then if truthy title0 then title0
             else Some (JString (slice0 200 userInput))
        else title0 in
      let tags1 :=
        (* Array.isArray(parsed.tags) ? parsed.tags : [] *)
        if lacking
        then if isArray tags0 then tags0 else Some (JArray [])
        else tags0 in
      let due0 := prop "due_at" parsed in
      Ok (ParsedTodo.mk
            (orElse title1 JNull)
            (match tags1 with
             | Some (JArray l) => l
             | _ => []
             end)
            (* parsed.due_at || null *)
            (if truthy due0 then orElse due0 JNull else JNull)
            (* Boolean(parsed.remind) *)
            (truthy (prop "remind" parsed)))
  end.

Definition parseNaturalLanguageTodo (userInput : jsstring)
    : Ai ParsedTodo.t :=
  Generate (getParseTodoPrompt userInput) true (fun text =>
  Return
    match parseJson text with
    | Ok parsed => fallbacks userInput parsed
    | Throw e => Throw e
    end).

Definition getDailyBrief (todos : list Todo.t) : Ai jsstring :=
  if Nat.eqb (length todos) 0
  then Return (Ok (str "No tasks yet. Add some to get your daily brief!"))
  else
    Generate (BRIEF_PROMPT todos) false (fun text =>
    Return (Ok (trim text))).

(** The body of [getOptimizedPlan] after [parseJson]. *)
Definition defaults (plan : value) : result OptimizedPlan.t :=
  match plan with
  | JNull | JBool _ | JNumber _ _ | JString _ => Throw TypeError
  | JArray _ | JObject _ =>
      Ok (OptimizedPlan.mk
            (* if (!plan.summary) plan.summary = "..." *)
            (if truthy (prop "summary" plan)
             then orElse (prop "summary" plan) JNull
             else JString (str "Optimized order and suggestions below."))
            (* if (!Array.isArray(plan.items)) plan.items = [] *)
            (match prop "items" plan with
             | Some (JArray l) => l
             | _ => []
             end))
  end.

Definition getOptimizedPlan (todos : list Todo.t) : Ai OptimizedPlan.t :=
  let incomplete := filter (fun t => negb (Todo.completed t)) todos in
  if Nat.eqb (length incomplete) 0
  then Return (Ok (OptimizedPlan.mk
                     (JString (str "All done! No tasks to optimize.")) []))
  else
    Generate (getOptimizePrompt todos) true (fun text =>
    Return
      match parseJson text with
      | Ok plan => defaults plan
      | Throw e => Throw e
      end).

End AiService.

(* ===================================================================== *)
(** * src/features/ai/AIPanel.tsx *)
(* ===================================================================== *)

(** An element of the array [onApplyOptimize] takes. *)
Module PlanUpdate.
Record t : Type := mk {
  id : jsstring;
  order : option Z;
  due_at : option (option jsstring);
  remind : option bool
}.
End PlanUpdate.

Module AIPanel.

(** [handleApplyOptimize]: what is passed to [onApplyOptimize], or [None]
    when the plan is missing or has no items and nothing is called.  The
    items are read at their declared type [OptimizedItem]. *)
Definition handleApplyOptimize (optimizedPlan : option (list OptimizedItem.t))
    : option (list PlanUpdate.t) :=
  match optimizedPlan with
  | None => None
  | Some [] => None
  | Some items =>
      Some (map (fun item =>
                   PlanUpdate.mk
                     (OptimizedItem.id item)
                     (Some (OptimizedItem.suggested_order item - 1)%Z)
                     (* item.suggested_due_at ?? undefined *)
                     (match OptimizedItem.suggested_due_at item with
                      | Some d => Some (Some d)
                      | None => None
                      end)
                     (Some (OptimizedItem.suggested_remind item)))
                items)
  end.

(** ** The command list and the submit handler *)

Record Command : Type := mkCommand {
  slug : jsstring;
  label : jsstring;
  description : jsstring
}.

Definition COMMANDS : list Command :=
  [mkCommand (str "optimize") (str "@optimize")
             (str "Get optimized task order & reminders");
   mkCommand (str "brief") (str "@brief") (str "Your day in 60 seconds")].

Inductive PanelView : Type :=
| idle | parsed | brief | optimize | loading | error.

(** The state of the panel. *)
Record Panel : Type := mkPanel {
  input : jsstring;
  view : PanelView;
  parsedTodo : option ParsedTodo.t;
  briefText : jsstring;
  optimizedPlan : option OptimizedPlan.t;
  errorMessage : jsstring;
  commandHighlight : nat;
  commandListOpen : bool
}.

(** [input.indexOf("@")] *)
Definition atIndex (input : jsstring) : Z := findIndex (N.eqb 64) input.

Definition showCommands (input : jsstring) : bool := negb (atIndex input =? -1)%Z.

Section Commands.
Context {Eng : Engine}.

(** [input.slice(atIndex + 1).toLowerCase().trim()] *)
Definition filterAfterAt (input : jsstring) : jsstring :=
  trim (toLowerCase (skipn (Z.to_nat (atIndex input + 1)) input)).

Definition filteredCommands (input : jsstring) : list Command :=
  filter (fun c => startsWith (slug c) (filterAfterAt input)) COMMANDS.

Definition hasCommands (input : jsstring) : bool :=
  match filteredCommands input with
  | [] => false
  | _ :: _ => true
  end.

(** The [keydown] listener of the input; it is attached while
    [showCommands] holds. *)
Definition onKeyDown (key : String.string) (p : Panel) : Panel :=
  if negb (showCommands (input p)) || negb (hasCommands (input p)) then p
  else
    let n := length (filteredCommands (input p)) in
    if streq (str key) (str "ArrowDown") then
      mkPanel (input p) (view p) (parsedTodo p) (briefText p)
              (optimizedPlan p) (errorMessage p)
              ((commandHighlight p + 1) mod n) (commandListOpen p)
    else if streq (str key) (str "ArrowUp") then
      mkPanel (input p) (view p) (parsedTodo p) (briefText p)
              (optimizedPlan p) (errorMessage p)
              (if Nat.eqb (commandHighlight p) 0 then n - 1
               else commandHighlight p - 1)
              (commandListOpen p)
    else if streq (str key) (str "Enter") then
      match nth_error (filteredCommands (input p)) (commandHighlight p) with
      | Some c =>
          mkPanel (label c) (view p) (parsedTodo p) (briefText p)
                  (optimizedPlan p) (errorMessage p) (commandHighlight p)
                  false
      | None => p
      end
    else if streq (str key) (str "Escape") then
      mkPanel (firstn (Z.to_nat (atIndex (input p))) (input p)) (view p)
              (parsedTodo p) (briefText p) (optimizedPlan p)
              (errorMessage p) (commandHighlight p) false
    else p.

(** Which branch of [handleSubmit] a trimmed input takes. *)
Inductive Route : Type := toOptimize | toBrief | toParse.

Definition route (raw : jsstring) : Route :=
  let lower := toLowerCase raw in
  if streq lower (str "@optimize") || startsWith lower (str "@optimize")
  then toOptimize
  else if streq lower (str "@brief") || streq lower (str "brief my day")
          || startsWith lower (str "@brief")
  then toBrief
  else toParse.

(** [err.message] of what the engine itself throws. *)
Variable engineMessage : exn -> jsstring.

Definition messageOf (e : exn) : jsstring :=
  match e with
  | Error message => message
  | _ => engineMessage e
  end.

(** The [catch] and [finally] of [handleSubmit]. *)
Definition failed (e : exn) (p : Panel) : Panel :=
  mkPanel [] error (parsedTodo p) (briefText p) (optimizedPlan p)
          (messageOf e) (commandHighlight p) (commandListOpen p).

(** [handleSubmit]: the state after it, and the calls of the generation
    service it made. *)
Definition handleSubmit (gemini : AiService.Service) (todos : list Todo.t)
    (p : Panel) : Panel * list (AiService.Prompt * bool) :=
  let raw := trim (input p) in
  if streq raw [] then (p, [])
  else
    match route raw with
    | toOptimize =>
        match AiService.run gemini (AiService.getOptimizedPlan todos) with
        | (Ok plan, calls) =>
            (mkPanel [] optimize (parsedTodo p) (briefText p) (Some plan) []
                     (commandHighlight p) (commandListOpen p), calls)
        | (Throw e, calls) => (failed e p, calls)
        end
    | toBrief =>
        match AiService.run gemini (AiService.getDailyBrief todos) with
        | (Ok text, calls) =>
            (mkPanel [] brief (parsedTodo p) text (optimizedPlan p) []
                     (commandHighlight p) (commandListOpen p), calls)
        | (Throw e, calls) => (failed e p, calls)
        end
    | toParse =>
        match AiService.run gemini (AiService.parseNaturalLanguageTodo raw) with
        | (Ok todo, calls) =>
            (mkPanel [] parsed (Some todo) (briefText p) (optimizedPlan p) []
                     (commandHighlight p) (commandListOpen p), calls)
        | (Throw e, calls) => (failed e p, calls)
        end
    end.

End Commands.

End AIPanel.

(* ===================================================================== *)
(** * src/features/todos/TodoPage.tsx *)
(* ===================================================================== *)

Module TodoPage.

Import Api.

Inductive FilterType : Type := all | active | completed.

(** The state the handlers close over: the query result and the three
    filter settings. *)
Record Page : Type := mkPage {
  todos : option (list Todo.t);      (* undefined until loaded *)
  filter : FilterType;
  searchQuery : jsstring;
  selectedTag : option jsstring
}.

Definition isActive (f : FilterType) : bool :=
  match f with active => true | _ => false end.

Definition isCompleted (f : FilterType) : bool :=
  match f with completed => true | _ => false end.

Definition nonEmpty (s : jsstring) : bool := negb (streq s []).

Section View.
Context {Eng : Engine} {P : Platform}.

(** The search test of the filter callback: [false] is [return false]. *)
Definition searchPasses (searchQuery : jsstring) (todo : Todo.t) : bool :=
  negb (nonEmpty searchQuery
        && negb (includes (toLowerCase (Todo.title todo))
                          (toLowerCase searchQuery))).

Definition tagPasses (selectedTag : option jsstring) (todo : Todo.t) : bool :=
  match selectedTag with
  | Some tag =>
      negb (nonEmpty tag
            && match Todo.tags todo with
               | None => true
               | Some tags => negb (existsb (streq tag) tags)
               end)
  | None => true
  end.

(** The callback of [todos?.filter(...)]. *)
Definition keeps (p : Page) (todo : Todo.t) : bool :=
  if isActive (filter p) && Todo.completed todo then false
  else if isCompleted (filter p) && negb (Todo.completed todo) then false
  else if negb (searchPasses (searchQuery p) todo) then false
  else if negb (tagPasses (selectedTag p) todo) then false
  else true.

Definition filteredTodos (p : Page) : option (list Todo.t) :=
  match todos p with
  | Some l => Some (List.filter (keeps p) l)
  | None => None
  end.

(** What [handleDragEnd] does with an event. *)
Inductive Drag : Type :=
| Nothing                                  (* the guard is false *)
| Mutate (updates : list OrderUpdate.t)    (* reorder.mutate(updates) *)
| Throws (e : exn).

Definition dragEnd (p : Page) (active : jsstring) (over : option jsstring)
    : Drag :=
  match over, filteredTodos p with
  | Some over_id, Some filtered =>
      if negb (streq active over_id) then
        let oldIndex := findIndex (fun t => streq (Todo.id t) active) filtered in
        let newIndex := findIndex (fun t => streq (Todo.id t) over_id) filtered in
        match arrayMove filtered oldIndex newIndex with
        | Some newOrder =>
            Mutate (mapi (fun todo index =>
                            OrderUpdate.mk (Todo.id todo) (Z.of_nat index))
                         newOrder)
        | None => Throws TypeError
        end
      else Nothing
  | _, _ => Nothing
  end.

(** [handleDragEnd]; [reorder.mutate] runs [reorderTodos]. *)
Definition handleDragEnd (p : Page) (active : jsstring)
    (over : option jsstring) : M unit :=
  match dragEnd p active over with
  | Nothing => ret tt
  | Mutate updates => reorderTodos updates
  | Throws e => throw e
  end.

End View.

(** The comparison handed to [updates.sort]. *)
Definition byOrder (a b : PlanUpdate.t) : Z :=
  (orElse (PlanUpdate.order a) 0 - orElse (PlanUpdate.order b) 0)%Z.

(** The array handed to [reorder.mutateAsync] by [handleApplyOptimize]. *)
Definition orderUpdates (todos : list Todo.t) (updates : list PlanUpdate.t)
    : list OrderUpdate.t :=
  let incompleteIds := map PlanUpdate.id updates in
  let completed := List.filter Todo.completed todos in
  let completedIds := map Todo.id completed in
  map (fun u =>
         OrderUpdate.mk (PlanUpdate.id u) (orElse (PlanUpdate.order u) 0%Z))
      (sort byOrder updates)
  ++ mapi (fun id i => OrderUpdate.mk id (Z.of_nat (length incompleteIds + i)))
          completedIds.

Section Handlers.
Context {P : Platform}.

(** [handleApplyOptimize]; [update.mutateAsync] runs [updateTodo].  The
    loop goes over [updates] as [sort] left it. *)
Definition handleApplyOptimize (p : Page) (updates : list PlanUpdate.t)
    : M unit :=
  match todos p with
  | None | Some [] => ret tt
  | Some todos =>
      reorderTodos (orderUpdates todos updates) ;;;
      forEach
        (fun u =>
           if isSome (PlanUpdate.due_at u) || isSome (PlanUpdate.remind u)
           then updateTodo
                  (UpdateTodoInput.mk (PlanUpdate.id u) None None
                     (PlanUpdate.due_at u) (PlanUpdate.remind u)
                     None None None [])
           else ret tt)
        (sort byOrder updates)
  end.

End Handlers.

(** ** The counters, the tag list and the filter controls *)

(** [todos?.filter((t) => t.completed).length || 0] *)
Definition completedCount (p : Page) : nat :=
  match todos p with
  | Some l => length (List.filter Todo.completed l)
  | None => 0
  end.

Definition totalCount (p : Page) : nat :=
  match todos p with
  | Some l => length l
  | None => 0
  end.

Definition activeCount (p : Page) : nat := totalCount p - completedCount p.

(** [Array.from(new Set(todos?.flatMap((t) => t.tags || [])
                                 .filter(Boolean))).sort()] *)
Definition allTags (p : Page) : list jsstring :=
  sort compareUnits
       (uniq (List.filter nonEmpty
                (flat_map (fun t => orElse (Todo.tags t) [])
                          (orElse (todos p) [])))).

(** The click on a tag: [setSelectedTag(selectedTag === tag ? null : tag)] *)
Definition clickTag (tag : jsstring) (p : Page) : Page :=
  mkPage (todos p) (filter p) (searchQuery p)
         (match selectedTag p with
          | Some s => if streq s tag then None else Some tag
          | None => Some tag
          end).

Definition setFilter (f : FilterType) (p : Page) : Page :=
  mkPage (todos p) f (searchQuery p) (selectedTag p).

Definition setSearchQuery (q : jsstring) (p : Page) : Page :=
  mkPage (todos p) (filter p) q (selectedTag p).

Definition setSelectedTag (tag : option jsstring) (p : Page) : Page :=
  mkPage (todos p) (filter p) (searchQuery p) tag.

(** ** The keyboard shortcuts *)

Record KeyEvent : Type := mkKeyEvent {
  key : jsstring;
  ctrlKey : bool;
  altKey : bool;
  metaKey : bool;
  tagName : jsstring                 (* e.target.tagName *)
}.

(** What the handler does to the document. *)
Inductive Dom : Type :=
| preventDefault | focusTitle | focusSearch | blurSearch | blurTitle.

(** [handleKeyDown]: the new [showShortcuts], the new filter settings
    and what was done to the document, in order. *)
Definition handleKeyDown (e : KeyEvent) (showShortcuts : bool) (p : Page)
    : bool * Page * list Dom :=
  if streq (key e) (str "Escape") then
    if showShortcuts then (false, p, [])
    else (showShortcuts, mkPage (todos p) all [] None, [blurSearch; blurTitle])
  else
    let enter := ctrlKey e && streq (key e) (str "Enter") in
    let slash := ctrlKey e && streq (key e) (str "/") in
    let help :=
      streq (key e) (str "?") && negb (ctrlKey e) && negb (altKey e)
      && negb (metaKey e)
      && negb (streq (tagName e) (str "INPUT"))
      && negb (streq (tagName e) (str "TEXTAREA")) in
    (if help then true else showShortcuts,
     p,
     (if enter then [preventDefault; focusTitle] else [])
     ++ (if slash then [preventDefault; focusSearch] else [])
     ++ (if help then [preventDefault] else [])).

(** ** The form and the row buttons *)

(** [TodoFormData] *)
Module TodoFormData.
Record t : Type := mk {
  title : jsstring;
  due_at : option jsstring;
  remind : option bool;
  tags : option jsstring
}.
End TodoFormData.

(** [data.tags ? data.tags.split(",").map((t) => t.trim()).filter(Boolean)
              : []] *)
Definition formTags (tags : option jsstring) : list jsstring :=
  match tags with
  | Some (c :: s) => List.filter nonEmpty (map trim (split 44 (c :: s)))
  | _ => []
  end.

(** What [create.mutateAsync] is given for a parsed todo, as far as
    [CreateTodoSchema.parse] lets it pass: [None] when a field has not
    the type the schema asks for, and the parse throws. *)
Definition parsedInput (parsed : ParsedTodo.t) : option CreateTodoInput.t :=
  let strings :=
    fold_right (fun v acc =>
                  match v, acc with
                  | JString s, Some l => Some (s :: l)
                  | _, _ => None
                  end)
               (Some []) (ParsedTodo.tags parsed) in
  match ParsedTodo.title parsed, strings, ParsedTodo.due_at parsed with
  | JString title, Some tags, JNull =>
      Some (CreateTodoInput.mk title (Some None)
                               (Some (ParsedTodo.remind parsed)) (Some tags))
  | JString title, Some tags, JString due =>
      Some (CreateTodoInput.mk title (Some (Some due))
                               (Some (ParsedTodo.remind parsed)) (Some tags))
  | _, _, _ => None
  end.

(** [try { ... } catch { ... }] *)
Definition tryCatch {A} (body handler : M A) : M A :=
  fun r =>
    match body r with
    | (Ok a, r') => (Ok a, r')
    | (Throw _, r') => handler r'
    end.

(** [await] of a function of the service module. *)
Definition await {A} (gemini : AiService.Service) (p : AiService.Ai A) : M A :=
  fun r => (fst (AiService.run gemini p), r).

Section FormHandlers.
Context {P : Platform}.

Definition onSubmit (data : TodoFormData.t) : M unit :=
  createTodo
    (CreateTodoInput.mk
       (TodoFormData.title data)
       (* data.due_at || null *)
       (match TodoFormData.due_at data with
        | Some (c :: s) => Some (Some (c :: s))
        | _ => Some None
        end)
       (* data.remind || false *)
       (Some (orElse (TodoFormData.remind data) false))
       (Some (formTags (TodoFormData.tags data)))).

(** [handleAiParseAndAdd]; [title] is [watch("title")] and [hasKey] is
    [hasGeminiKey()]. *)
Definition handleAiParseAndAdd (gemini : AiService.Service) (hasKey : bool)
    (title : option jsstring) : M unit :=
  match title with
  | None => ret tt
  | Some typed =>
      let raw := trim typed in
      if negb (nonEmpty raw) || negb hasKey then ret tt
      else
        tryCatch
            (parsed <- await gemini (AiService.parseNaturalLanguageTodo raw) ;;
             match parsedInput parsed with
             | Some input => createTodo input
             | None => throw ZodError
             end)
            (* fallback: add as plain title *)
            (createTodo (CreateTodoInput.mk raw None None None))
  end.

(** [toggle.mutate({ id: todo.id, completed: !todo.completed })] *)
Definition onToggle (todo : Todo.t) : M unit :=
  toggleTodo (Todo.id todo) (negb (Todo.completed todo)).

(** [remove.mutate(todo.id)] *)
Definition onDelete (todo : Todo.t) : M unit := deleteTodo (Todo.id todo).

End FormHandlers.

End TodoPage.

(* ===================================================================== *)
(** * Vocabulary of the statements *)
(* ===================================================================== *)

(** The list without its element at position [i]. *)
Definition removeAt {T} (i : nat) (l : list T) : list T :=
  firstn i l ++ skipn (S i) l.

(** The position [findIndex] returns, as a natural number. *)
Definition position (id : jsstring) (l : list Todo.t) : nat :=
  Z.to_nat (findIndex (fun t => streq (Todo.id t) id) l).

(** Everything of a row but its [order]. *)
Definition content (t : Row.t) :=
  (Row.id t, Row.title t, Row.completed t, Row.created_at t,
   Row.user_id t, Row.due_at t, Row.remind t, Row.reminded t,
   Row.tags t).

(** The row that holds a record. *)
Definition stored (t : Todo.t) : Row.t :=
  Row.mk (Todo.id t) (Todo.title t) (Some (Todo.completed t))
         (Some (Todo.created_at t)) (Some (Todo.user_id t)) (Todo.due_at t)
         (Some (Todo.remind t)) (Some (Todo.reminded t))
         (option_map (map Some) (Todo.tags t)) (Some (Todo.order t)).

(** The object [{ order }] that [reorderTodos] sends. *)
Definition orderOnly (o : Z) : Fields.t :=
  Fields.mk None None None None None None (Some o) [].

(** The object [{ completed }] that [toggleTodo] sends. *)
Definition completedOnly (completed : bool) : Fields.t :=
  Fields.mk (Some completed) None None None None None None [].

(** The request [reorderTodos] sends for one element. *)
Definition orderWrite (u : OrderUpdate.t) : Api.Request :=
  Api.Update (orderOnly (OrderUpdate.order u)) (OrderUpdate.id u).

Definition isWrite (q : Api.Request) : bool :=
  match q with
  | Api.AuthGetUser => false
  | _ => true
  end.

(** A text in a fence that opens with [opening]: the opening, white
    space, the text, white space, three backticks. *)
Definition fenced (opening gap1 text gap2 : jsstring) : jsstring :=
  opening ++ gap1 ++ text ++ gap2 ++ str "```".

(** A text that carries no fence of its own: it does not begin with the
    opening the pattern knows, and no white space and three backticks
    end it. *)
Definition unfenced (text : jsstring) : Prop :=
  startsWith text (str "```json") = false /\
  forall before after,
    text = before ++ after -> AiService.closesHere after = false.

(** Neither white space nor a backtick. *)
Definition plain (c : N) : Prop := isWhiteSpace c = false /\ c <> 96%N.

(** [r] is what is left of [s] after reading a part of it. *)
Definition rest_of (s r : jsstring) : Prop := exists p, s = p ++ r.

(** ... and the last unit read is plain. *)
Definition read_to (s r : jsstring) : Prop :=
  exists c, plain c /\ rest_of s (c :: r).

(** ** A platform to evaluate on *)

Module Sample.

Definition isHex (c : N) : bool :=
  isDigit c || ((97 <=? c) && (c <=? 102))%N || ((65 <=? c) && (c <=? 70))%N.

(** Takes [n] hexadecimal digits off the front. *)
Fixpoint hexRun (n : nat) (s : jsstring) : option jsstring :=
  match n with
  | 0 => Some s
  | S n' =>
      match s with
      | c :: s' => if isHex c then hexRun n' s' else None
      | [] => None
      end
  end.

Definition dash (o : option jsstring) : option jsstring :=
  match o with
  | Some (c :: s) => if (c =? 45)%N then Some s else None
  | _ => None
  end.

(** The 8-4-4-4-12 shape of zod's UUID pattern. *)
Definition uuidShape (s : jsstring) : bool :=
  match dash (hexRun 8 s) with
  | Some s1 =>
      match dash (hexRun 4 s1) with
      | Some s2 =>
          match dash (hexRun 4 s2) with
          | Some s3 =>
              match dash (hexRun 4 s3) with
              | Some s4 =>
                  match hexRun 12 s4 with
                  | Some [] => true
                  | _ => false
                  end
              | None => false
              end
          | None => false
          end
      | None => false
      end
  | None => false
  end.

Definition hexDigit (d : N) : N := if (d <? 10)%N then (48 + d)%N else (87 + d)%N.

Fixpoint hexDigits (len : nat) (n : N) : jsstring :=
  match len with
  | 0 => []
  | S len' => hexDigits len' (n / 16) ++ [hexDigit (n mod 16)]
  end.

(** An engine for texts of ASCII units. *)
#[global] Instance engine : Js.Engine := {|
  Js.toLowerCase := map lowerUnit;
  Js.toLowerCase_ascii := fun s _ => eq_refl
|}.

(** A calendar date as four, two and two digits. *)
Definition isDate (s : jsstring) : bool :=
  match s with
  | [y1; y2; y3; y4; d1; m1; m2; d2; n1; n2] =>
      forallb isDigit [y1; y2; y3; y4; m1; m2; n1; n2]
      && (d1 =? 45)%N && (d2 =? 45)%N
  | _ => false
  end.

(** A gateway that answers every request, reads calendar dates as
    midnight UTC and refuses other texts, and refuses the keys it does
    not know. *)
#[global] Instance platform : Api.Platform := {|
  Api.is_uuid := uuidShape;
  Api.uuid_generate_v4 n :=
    str "00000000-0000-4000-8000-" ++ hexDigits 12 (N.of_nat n);
  Api.now n := str "2024-06-01T00:00:00Z";
  Api.timestamptz s :=
    if isDate s then Some (s ++ str "T00:00:00+00:00") else None;
  Api.alter _ _ := None;
  Api.failure _ _ := None;
  Api.select_failure _ := None
|}.

(** The same gateway, but one that takes the key [created_at] with a
    text as its value: the table has that column, and the README's
    update policy does not look at the columns written. *)
Definition open_platform : Api.Platform := {|
  Api.is_uuid := uuidShape;
  Api.uuid_generate_v4 n :=
    str "00000000-0000-4000-8000-" ++ hexDigits 12 (N.of_nat n);
  Api.now n := str "2024-06-01T00:00:00Z";
  Api.timestamptz s :=
    if isDate s then Some (s ++ str "T00:00:00+00:00") else None;
  Api.alter others t :=
    match others with
    | [(key, Json.JString v)] =>
        if streq key (str "created_at") && isDate v
        then Some (Row.mk (Row.id t) (Row.title t) (Row.completed t)
                          (Some (v ++ str "T00:00:00+00:00"))
                          (Row.user_id t) (Row.due_at t) (Row.remind t)
                          (Row.reminded t) (Row.tags t) (Row.order t))
        else None
    | _ => None
    end;
  Api.failure _ _ := None;
  Api.select_failure _ := None
|}.

(** The same gateway when no request gets through. *)
Definition offline_platform : Api.Platform := {|
  Api.is_uuid := uuidShape;
  Api.uuid_generate_v4 n :=
    str "00000000-0000-4000-8000-" ++ hexDigits 12 (N.of_nat n);
  Api.now n := str "2024-06-01T00:00:00Z";
  Api.timestamptz s :=
    if isDate s then Some (s ++ str "T00:00:00+00:00") else None;
  Api.alter _ _ := None;
  Api.failure _ _ := Some PostgrestError;
  Api.select_failure _ := Some PostgrestError
|}.

Definition owner : jsstring := str "aaaaaaaa-0000-4000-8000-000000000001".
Definition idA : jsstring := str "00000000-0000-4000-8000-00000000000a".
Definition idB : jsstring := str "00000000-0000-4000-8000-00000000000b".
Definition idD : jsstring := str "00000000-0000-4000-8000-00000000000d".

Definition todo (id : jsstring) (title : String.string) (completed : bool)
    (order : Z) : Todo.t :=
  Todo.mk id (str title) completed (str "2024-06-01T00:00:00Z") owner None
          false false (Some []) order.

Arguments todo id title%_string completed order%_Z.

(** Two open tasks and a finished one, in display order. *)
Definition collection : list Todo.t :=
  [todo idA "A" false 0; todo idB "B" false 1; todo idD "D" true 2].

(** The table that holds the records [todos], for the user [owner]. *)
Definition remote (todos : list Todo.t) : Api.Remote :=
  Api.mkRemote (map stored todos) (Some owner) 0 [].

Definition page (todos : list Todo.t) : TodoPage.Page :=
  TodoPage.mkPage (Some todos) TodoPage.all [] None.

Definition item (id : jsstring) (suggested_order : Z) : OptimizedItem.t :=
  OptimizedItem.mk id [] suggested_order None false None.

End Sample.

(** ** Vocabulary for the gateway calls *)

(** The rows the signed-in user sees. *)
Definition own (r : Api.Remote) : list Row.t :=
  filter (fun t => Api.policy r (Row.user_id t)) (Api.rows r).

(** Everything of a row but its [completed]. *)
Definition uncompleted (t : Row.t) :=
  (Row.id t, Row.title t, Row.created_at t, Row.user_id t,
   Row.due_at t, Row.remind t, Row.reminded t, Row.tags t, Row.order t).

(** What [createTodo] sends as the due date: [input.due_at || null]. *)
Definition dueSent (input : CreateTodoInput.t) : option jsstring :=
  match CreateTodoInput.due_at input with
  | Some (Some (c :: s)) => Some (c :: s)
  | _ => None
  end.

(** The insert that [createTodo] sends for the user [u]. *)
Definition insertOf (input : CreateTodoInput.t) (u : jsstring) : Api.Request :=
  Api.Insert (trim (CreateTodoInput.title input)) u (dueSent input)
             (orElse (CreateTodoInput.remind input) false)
             (orElse (CreateTodoInput.tags input) []).

(** What [updateTodo] sends: [const { id, ...updates } = input]. *)
Definition updatesOf (input : UpdateTodoInput.t) : Fields.t :=
  Fields.mk (UpdateTodoInput.completed input) (UpdateTodoInput.title input)
            (UpdateTodoInput.due_at input) (UpdateTodoInput.remind input)
            (UpdateTodoInput.reminded input) (UpdateTodoInput.tags input)
            (UpdateTodoInput.order input) (UpdateTodoInput.others input).

(** The row that this insert adds to the table of [r]. *)
Definition newRow {P : Api.Platform} (input : CreateTodoInput.t)
    (u : jsstring) (r : Api.Remote) : Row.t :=
  Row.mk (Api.uuid_generate_v4 (Api.inserted r))
         (trim (CreateTodoInput.title input)) (Some false)
         (Some (Api.now (Api.inserted r))) (Some u)
         (Api.due (dueSent input))
         (Some (orElse (CreateTodoInput.remind input) false)) (Some false)
         (Some (map Some (orElse (CreateTodoInput.tags input) [])))
         (Some 0%Z).

(** The record with its [completed] negated. *)
Definition flipped (t : Todo.t) : Todo.t :=
  Todo.mk (Todo.id t) (Todo.title t) (negb (Todo.completed t))
          (Todo.created_at t) (Todo.user_id t) (Todo.due_at t)
          (Todo.remind t) (Todo.reminded t) (Todo.tags t) (Todo.order t).

(** ** Vocabulary for the page *)

(** The status test of the filter callback. *)
Definition statusPasses (f : TodoPage.FilterType) (todo : Todo.t) : bool :=
  match f with
  | TodoPage.all => true
  | TodoPage.active => negb (Todo.completed todo)
  | TodoPage.completed => Todo.completed todo
  end.

(** How many rows the list shows. *)
Definition shown {Eng : Engine} (p : TodoPage.Page) : nat :=
  match TodoPage.filteredTodos p with
  | Some l => length l
  | None => 0
  end.

(** The object that [onSubmit] hands to [create.mutateAsync]. *)
Definition submitted (data : TodoPage.TodoFormData.t) : CreateTodoInput.t :=
  CreateTodoInput.mk
    (TodoPage.TodoFormData.title data)
    (match TodoPage.TodoFormData.due_at data with
     | Some (c :: s) => Some (Some (c :: s))
     | _ => Some None
     end)
    (Some (orElse (TodoPage.TodoFormData.remind data) false))
    (Some (TodoPage.formTags (TodoPage.TodoFormData.tags data))).

(** A tag as the form hands it on: not empty, no white space around it,
    no comma in it. *)
Definition tidy (tag : jsstring) : Prop :=
  tag <> [] /\ trim tag = tag /\ ~ In 44%N tag.

(** ** Vocabulary for the plan *)

(** A plan item that suggests a date or a reminder. *)
Definition suggests (u : PlanUpdate.t) : bool :=
  isSome (PlanUpdate.due_at u) || isSome (PlanUpdate.remind u).

(** The request [updateTodo] sends for such an item. *)
Definition suggestionWrite (u : PlanUpdate.t) : Api.Request :=
  Api.Update (Fields.mk None None (PlanUpdate.due_at u) (PlanUpdate.remind u)
                        None None None [])
             (PlanUpdate.id u).

(** The ranks 1..k. *)
Definition ranks (k : nat) : list Z := map Z.of_nat (seq 1 k).

(* ===================================================================== *)
(** * Facts about the primitives *)
(* ===================================================================== *)

Section JsFacts.

Lemma streq_refl (a : jsstring) : streq a a = true.
Proof.
  induction a as [|x a IH]; simpl; [reflexivity|].
  now rewrite N.eqb_refl.
Qed.

Lemma streq_eq (a b : jsstring) : streq a b = true <-> a = b.
Proof.
  split.
  - revert b. induction a as [|x a IH]; intros [|y b]; simpl; try easy.
    intros H. apply andb_true_iff in H as [Hx Hr].
    apply N.eqb_eq in Hx. apply IH in Hr. now subst.
  - intros ->. apply streq_refl.
Qed.

Lemma streq_neq (a b : jsstring) : streq a b = false <-> a <> b.
Proof.
  split.
  - intros H E. apply streq_eq in E. congruence.
  - intros H. destruct (streq a b) eqn:E; [|reflexivity].
    apply streq_eq in E. contradiction.
Qed.

Lemma startsWith_prefix (s p : jsstring) :
  startsWith s p = true <-> exists post, s = p ++ post.
Proof.
  split.
  - revert s. induction p as [|a p IH]; intros s H.
    + now exists s.
    + destruct s as [|b s]; simpl in H; [discriminate|].
      apply andb_true_iff in H as [Hab Hr]. apply N.eqb_eq in Hab.
      destruct (IH _ Hr) as [post ->]. exists post. now subst.
  - intros [post ->]. induction p as [|a p IH]; simpl; [reflexivity|].
    now rewrite N.eqb_refl.
Qed.

(** [includes] is containment as a contiguous run. *)
Lemma includes_substring (s q : jsstring) :
  includes s q = true <-> exists pre post, s = pre ++ q ++ post.
Proof.
  split.
  - induction s as [|c s IH]; simpl; intros H.
    + destruct q; simpl in H; [|discriminate]. now exists [], [].
    + apply orb_true_iff in H as [H|H].
      * apply (startsWith_prefix (c :: s) q) in H as [post E].
        exists [], post. exact E.
      * destruct (IH H) as (pre & post & ->). now exists (c :: pre), post.
  - intros (pre & post & ->). induction pre as [|c pre IH].
    + assert (H : startsWith (q ++ post) q = true)
        by (apply startsWith_prefix; now exists post).
      simpl. destruct (q ++ post); simpl in *; rewrite H; reflexivity.
    + simpl. rewrite IH. apply orb_true_r.
Qed.

End JsFacts.

(** Dropping white space, for either notion of white space. *)
Section Dropping.

Variable white : N -> bool.

Lemma forallb_reverse {T} (f : T -> bool) (l : list T) :
  forallb f (rev l) = forallb f l.
Proof.
  induction l as [|x l IH]; simpl; [reflexivity|].
  rewrite forallb_app, IH. simpl. rewrite andb_true_r. apply andb_comm.
Qed.

Lemma dropStart_cons (c : N) (s : jsstring) :
  dropStart white (c :: s) = if white c then dropStart white s else c :: s.
Proof. reflexivity. Qed.

Lemma dropStart_white (w s : jsstring) :
  forallb white w = true -> dropStart white (w ++ s) = dropStart white s.
Proof.
  induction w as [|c w IH]; simpl; [reflexivity|].
  intros H. apply andb_true_iff in H as [Hc Hw]. now rewrite Hc, IH.
Qed.

Lemma dropStart_all_white (w : jsstring) :
  forallb white w = true -> dropStart white w = [].
Proof.
  intros H. rewrite <- (app_nil_r w). now rewrite dropStart_white.
Qed.

Lemma dropStart_solid (c : N) (s : jsstring) :
  white c = false -> dropStart white (c :: s) = c :: s.
Proof. intros H. simpl. now rewrite H. Qed.

(** A text splits into leading white space and the rest. *)
Lemma dropStart_split (s : jsstring) :
  exists w, forallb white w = true /\ s = w ++ dropStart white s.
Proof.
  induction s as [|c s (w & Hw & E)]; [now exists []|].
  simpl. destruct (white c) eqn:Hc.
  - exists (c :: w). simpl. rewrite Hc, Hw. split; [reflexivity|]. now f_equal.
  - now exists [].
Qed.

Lemma dropStart_head (s : jsstring) (c : N) (t : jsstring) :
  dropStart white s = c :: t -> white c = false.
Proof.
  induction s as [|x s IH]; simpl; [discriminate|].
  destruct (white x) eqn:Hx; [exact IH|]. now intros [= <- _].
Qed.

Lemma dropEnd_white (s w : jsstring) :
  forallb white w = true -> dropEnd white (s ++ w) = dropEnd white s.
Proof.
  intros H. unfold dropEnd.
  rewrite rev_app_distr, dropStart_white; [reflexivity|].
  now rewrite forallb_reverse.
Qed.

Lemma dropEnd_solid (body : jsstring) (c : N) (w : jsstring) :
  white c = false -> forallb white w = true ->
  dropEnd white (body ++ c :: w) = body ++ [c].
Proof.
  intros Hc Hw.
  replace (body ++ c :: w) with ((body ++ [c]) ++ w)
    by (now rewrite <- app_assoc).
  rewrite dropEnd_white by assumption.
  unfold dropEnd. rewrite rev_app_distr. simpl. rewrite Hc.
  simpl. now rewrite rev_involutive.
Qed.

(** A text is all white space, or it ends in white space after a last
    solid unit. *)
Lemma last_solid (s : jsstring) :
  forallb white s = true \/
  exists body c w, s = body ++ c :: w /\ white c = false
                   /\ forallb white w = true.
Proof.
  induction s as [|x s [H|(body & c & w & -> & Hc & Hw)]].
  - now left.
  - destruct (white x) eqn:Hx.
    + left. simpl. now rewrite Hx.
    + right. exists [], x, s. auto.
  - right. exists (x :: body), c, w. auto.
Qed.

Lemma dropEnd_split (s : jsstring) :
  exists w, forallb white w = true /\ s = dropEnd white s ++ w.
Proof.
  destruct (dropStart_split (rev s)) as (w & Hw & E).
  exists (rev w). rewrite forallb_reverse. split; [exact Hw|].
  unfold dropEnd. rewrite <- rev_app_distr, <- E. now rewrite rev_involutive.
Qed.

(** After dropping at both ends there is nothing left to drop in
    front. *)
Lemma dropStart_dropped (s : jsstring) :
  dropStart white (dropEnd white (dropStart white s))
  = dropEnd white (dropStart white s).
Proof.
  destruct (dropEnd_split (dropStart white s)) as (w & _ & E).
  destruct (dropEnd white (dropStart white s)) as [|x u]; [reflexivity|].
  apply dropStart_solid. exact (dropStart_head s E).
Qed.

End Dropping.

Section TrimFacts.

Lemma trimStart_cons (c : N) (s : jsstring) :
  trimStart (c :: s) = if isWhiteSpace c then trimStart s else c :: s.
Proof. reflexivity. Qed.

Lemma trimStart_white (w s : jsstring) :
  forallb isWhiteSpace w = true -> trimStart (w ++ s) = trimStart s.
Proof. apply dropStart_white. Qed.

Lemma trimStart_split (s : jsstring) :
  exists w, forallb isWhiteSpace w = true /\ s = w ++ trimStart s.
Proof. apply dropStart_split. Qed.

Lemma trimEnd_solid (body : jsstring) (c : N) (w : jsstring) :
  isWhiteSpace c = false -> forallb isWhiteSpace w = true ->
  trimEnd (body ++ c :: w) = body ++ [c].
Proof. apply dropEnd_solid. Qed.

Lemma trim_all_white (w : jsstring) :
  forallb isWhiteSpace w = true -> trim w = [].
Proof.
  intros H. unfold trim, trimStart. now rewrite dropStart_all_white.
Qed.

End TrimFacts.


(* ===================================================================== *)
(** * The filter pipeline: search *)
(* ===================================================================== *)

Section Search.

Import TodoPage.
Context {Eng : Engine}.

Lemma nonEmpty_false (s : jsstring) : nonEmpty s = false <-> s = [].
Proof.
  unfold nonEmpty. rewrite negb_false_iff. apply streq_eq.
Qed.

Lemma toLowerCase_nil : toLowerCase [] = [].
Proof. now rewrite toLowerCase_ascii. Qed.

(** The search test lets a record through exactly when its lowercased
    title contains the lowercased query as typed. *)
Lemma searchPasses_substring (searchQuery : jsstring) (todo : Todo.t) :
  searchPasses searchQuery todo = true <->
  exists pre post,
    toLowerCase (Todo.title todo) = pre ++ toLowerCase searchQuery ++ post.
Proof.
  unfold searchPasses. rewrite negb_true_iff, andb_false_iff, negb_false_iff.
  rewrite <- includes_substring. split.
  - intros [H|H]; [|exact H].
    apply nonEmpty_false in H. subst. apply includes_substring.
    rewrite toLowerCase_nil.
    now exists [], (toLowerCase (Todo.title todo)).
  - auto.
Qed.

(** C5, amended: the search predicate matches if and only if the
    record's title, lowercased, contains the query, lowercased, as a
    substring; the query is taken as typed and is not trimmed, so for
    the input "  Buy" (two leading spaces) and a record titled
    "buy milk" the match is false, while it is true for "Buy".  This
    holds for the engine's [toLowerCase], whatever it does to letters
    outside ASCII. *)
Theorem search_is_untrimmed_substring_match :
  (forall (searchQuery : jsstring) (todo : Todo.t),
      searchPasses searchQuery todo = true <->
      exists pre post,
        toLowerCase (Todo.title todo)
        = pre ++ toLowerCase searchQuery ++ post)
  /\ searchPasses (str "  Buy") (Sample.todo Sample.idA "buy milk" false 0)
     = false
  /\ searchPasses (str "Buy") (Sample.todo Sample.idA "buy milk" false 0)
     = true.
Proof.
  split; [exact searchPasses_substring|].
  unfold searchPasses. cbn [Todo.title Sample.todo].
  rewrite !toLowerCase_ascii by reflexivity. split; reflexivity.
Qed.

End Search.

(** C5 as stated fails: with the query "  Buy" the record titled
    "buy milk" is filtered out, under every status and tag setting. *)
Lemma search_leading_spaces_do_not_match :
  TodoPage.searchPasses (str "  Buy")
    (Sample.todo Sample.idA "buy milk" false 0)
  = false
  /\ forall f tag,
       TodoPage.filteredTodos
         (TodoPage.mkPage (Some [Sample.todo Sample.idA "buy milk" false 0]) f
                          (str "  Buy") tag)
       = Some [].
Proof.
  split; [reflexivity|]. intros f tag.
  unfold TodoPage.filteredTodos, TodoPage.keeps. simpl.
  destruct f; reflexivity.
Qed.

(* ===================================================================== *)
(** * The gateway calls *)
(* ===================================================================== *)

Section ApiFacts.

Import Api.
Context {P : Platform}.

Lemma updated_map (f : Row.t -> option Row.t) (g : Row.t -> Row.t)
    (rows : list Row.t) :
  (forall t, f t = Some (g t)) -> updated f rows = Some (map g rows).
Proof.
  intros H. induction rows as [|t rows IH]; simpl; [reflexivity|].
  now rewrite H, IH.
Qed.

(** An update with the schemas' keys only: the gateway fails, or it
    refuses the due date, or it overwrites the rows it reaches. *)
Lemma from_update_run (values : Fields.t) (id : jsstring) (r : Remote) :
  Fields.others values = [] ->
  from_update values id r
  = match failure r (Update values id) with
    | Some e => (Ok (Some e), received (Update values id) r)
    | None =>
        if optional accepted (Fields.due_at values)
           && optional int4 (Fields.order values)
        then (Ok None,
              mkRemote
                (map (fun t =>
                        if streq (Row.id t) id && policy r (Row.user_id t)
                        then overwrite values t else t)
                     (rows r))
                (user r) (inserted r) (wire r ++ [Update values id]))
        else (Ok (Some PostgrestError), received (Update values id) r)
    end.
Proof.
  intros H. unfold from_update.
  destruct (failure r (Update values id)); [reflexivity|].
  destruct (optional accepted (Fields.due_at values)
            && optional int4 (Fields.order values)); [|reflexivity].
  rewrite (updated_map _
             (fun t => if streq (Row.id t) id && policy r (Row.user_id t)
                       then overwrite values t else t)); [reflexivity|].
  intros t. rewrite H.
  now destruct (streq (Row.id t) id && policy r (Row.user_id t)).
Qed.

Lemma overwrite_order_content (o : Z) (t : Row.t) :
  content (overwrite (orderOnly o) t) = content t.
Proof. reflexivity. Qed.

(** One [{ order }] update is sent whatever the gateway answers, and
    leaves every other column of every row. *)
Lemma from_update_order (o : Z) (id : jsstring) (r : Remote) :
  exists answer rows',
    from_update (orderOnly o) id r
    = (Ok answer, mkRemote rows' (user r) (inserted r)
                           (wire r ++ [Update (orderOnly o) id]))
    /\ map content rows' = map content (rows r).
Proof.
  rewrite from_update_run by reflexivity.
  destruct (failure r (Update (orderOnly o) id)) as [e|].
  - exists (Some e), (rows r). split; reflexivity.
  - simpl. destruct (int4 o).
    + eexists. eexists. split; [reflexivity|].
      rewrite map_map. apply map_ext. intros t.
      destruct (streq (Row.id t) id && policy r (Row.user_id t));
        [apply overwrite_order_content|reflexivity].
    + exists (Some PostgrestError), (rows r). split; reflexivity.
Qed.

Lemma reorderTodos_cons (u : OrderUpdate.t) (todos : list OrderUpdate.t)
    (r : Remote) :
  reorderTodos (u :: todos) r
  = reorderTodos todos
      (snd (from_update (orderOnly (OrderUpdate.order u)) (OrderUpdate.id u) r)).
Proof.
  change (reorderTodos (u :: todos) r)
    with (bind (bind (from_update (orderOnly (OrderUpdate.order u))
                                  (OrderUpdate.id u))
                     (fun _ => ret tt))
               (fun _ => reorderTodos todos) r).
  unfold bind.
  destruct (from_update_order (OrderUpdate.order u) (OrderUpdate.id u) r)
    as (answer & rows1 & E & _).
  now rewrite E.
Qed.

(** [reorderTodos] returns normally, sends one update per element, in
    order, and changes nothing but [order] columns. *)
Lemma reorderTodos_run (todos : list OrderUpdate.t) (r : Remote) :
  exists rows',
    reorderTodos todos r
    = (Ok tt, mkRemote rows' (user r) (inserted r)
                       (wire r ++ map orderWrite todos))
    /\ map content rows' = map content (rows r).
Proof.
  revert r. induction todos as [|u todos IH]; intros r.
  - exists (rows r). simpl. rewrite app_nil_r. destruct r; split; reflexivity.
  - rewrite reorderTodos_cons.
    destruct (from_update_order (OrderUpdate.order u) (OrderUpdate.id u) r)
      as (answer & rows1 & E1 & C1).
    rewrite E1. simpl snd.
    destruct (IH (mkRemote rows1 (user r) (inserted r)
                           (wire r ++ [Update (orderOnly (OrderUpdate.order u))
                                              (OrderUpdate.id u)])))
      as (rows2 & E2 & C2).
    exists rows2. rewrite E2. simpl. rewrite <- app_assoc. simpl.
    split; [reflexivity|]. simpl in C2. congruence.
Qed.

(** The four calls that validate throw before they send anything. *)
Lemma validated_calls_reject_before_io (r : Remote) :
  (forall input, CreateTodoSchema input = false ->
                 createTodo input r = (Throw ZodError, r))
  /\ (forall input, UpdateTodoSchema input = false ->
                    updateTodo input r = (Throw ZodError, r))
  /\ (forall id completed, is_uuid id = false ->
                           toggleTodo id completed r = (Throw ZodError, r))
  /\ (forall id, is_uuid id = false ->
                 deleteTodo id r = (Throw ZodError, r)).
Proof.
  repeat split; intros;
    unfold createTodo, updateTodo, toggleTodo, deleteTodo, bind, parse;
    rewrite H; reflexivity.
Qed.

(** The schema of [createTodo] fails on an empty title and on one of
    more than 200 units. *)
Lemma CreateTodoSchema_bounds (input : CreateTodoInput.t) :
  CreateTodoSchema input = false <->
  length (CreateTodoInput.title input) = 0
  \/ 200 < length (CreateTodoInput.title input).
Proof.
  unfold CreateTodoSchema, title_ok.
  rewrite andb_false_iff, Nat.leb_gt, Nat.leb_gt. lia.
Qed.

End ApiFacts.

(* ===================================================================== *)
(** * The ordering engine: list facts *)
(* ===================================================================== *)

Section MoveFacts.

Context {T : Type}.

Lemma findIndex_hit (p : T -> bool) (l : list T) :
  existsb p l = true ->
  (0 <= findIndex p l)%Z /\
  exists x, nth_error l (Z.to_nat (findIndex p l)) = Some x /\ p x = true.
Proof.
  induction l as [|y l IH]; simpl existsb; simpl findIndex; [discriminate|].
  destruct (p y) eqn:Hy; simpl.
  - intros _. split; [lia|]. now exists y.
  - intros H. destruct (IH H) as (H0 & x & Hn & Hx).
    destruct (Z.ltb_spec (findIndex p l) 0); [lia|].
    split; [lia|]. exists x. split; [|exact Hx].
    replace (Z.to_nat (findIndex p l + 1)) with (S (Z.to_nat (findIndex p l)))
      by lia.
    exact Hn.
Qed.

Lemma removeAt_length (i : nat) (l : list T) :
  i < length l -> length (removeAt i l) = length l - 1.
Proof.
  intros H. unfold removeAt.
  rewrite length_app, length_firstn, length_skipn. lia.
Qed.

Lemma spliceStart_in_range (len n : nat) :
  n <= len -> spliceStart len (Z.of_nat n) = n.
Proof.
  intros H. unfold spliceStart.
  destruct (Z.ltb_spec (Z.of_nat n) 0); [lia|].
  rewrite Nat2Z.id. lia.
Qed.

(** In range, [arrayMove] takes the element out and puts it back at the
    target position. *)
Lemma arrayMove_in_range (l : list T) (i j : nat) (x : T) :
  nth_error l i = Some x -> j < length l ->
  arrayMove l (Z.of_nat i) (Z.of_nat j)
  = Some (firstn j (removeAt i l) ++ x :: skipn j (removeAt i l)).
Proof.
  intros Hx Hj.
  assert (Hi : i < length l) by (apply nth_error_Some; congruence).
  unfold arrayMove.
  destruct (Z.ltb_spec (Z.of_nat j) 0); [lia|].
  rewrite spliceStart_in_range by lia. rewrite Hx.
  fold (removeAt i l). rewrite removeAt_length by assumption.
  rewrite spliceStart_in_range by lia. reflexivity.
Qed.

Lemma inserted_nth (rest : list T) (j : nat) (x : T) :
  j <= length rest ->
  nth_error (firstn j rest ++ x :: skipn j rest) j = Some x.
Proof.
  intros H. rewrite nth_error_app2; rewrite length_firstn, Nat.min_l by lia;
    [|lia].
  now rewrite Nat.sub_diag.
Qed.

Lemma inserted_removeAt (rest : list T) (j : nat) (x : T) :
  j <= length rest ->
  removeAt j (firstn j rest ++ x :: skipn j rest) = rest.
Proof.
  intros H. unfold removeAt.
  assert (L : length (firstn j rest) = j)
    by (rewrite length_firstn; lia).
  rewrite firstn_app, L, Nat.sub_diag, firstn_all2 by lia.
  rewrite firstn_O, app_nil_r, skipn_app, L.
  replace (S j - j) with 1 by lia.
  rewrite skipn_all2 by lia. simpl. apply firstn_skipn.
Qed.

Lemma inserted_length (rest : list T) (j : nat) (x : T) :
  length (firstn j rest ++ x :: skipn j rest) = S (length rest).
Proof.
  rewrite length_app. simpl. rewrite length_firstn, length_skipn. lia.
Qed.

Lemma inserted_perm (rest : list T) (j : nat) (x : T) :
  Permutation (firstn j rest ++ x :: skipn j rest) (x :: rest).
Proof.
  symmetry. rewrite <- (firstn_skipn j rest) at 1. apply Permutation_middle.
Qed.

Lemma removeAt_perm (l : list T) (i : nat) (x : T) :
  nth_error l i = Some x -> Permutation (x :: removeAt i l) l.
Proof.
  intros H. apply nth_error_split in H as (l1 & l2 & -> & <-).
  unfold removeAt. rewrite firstn_app, Nat.sub_diag, firstn_all.
  rewrite firstn_O, app_nil_r, skipn_app.
  replace (S (length l1) - length l1) with 1 by lia.
  rewrite skipn_all2 by lia. simpl. apply Permutation_middle.
Qed.

Lemma removeAt_map {U} (f : T -> U) (i : nat) (l : list T) :
  removeAt i (map f l) = map f (removeAt i l).
Proof.
  unfold removeAt. now rewrite map_app, firstn_map, skipn_map.
Qed.

Lemma mapi_from_orders (f : T -> nat -> OrderUpdate.t) (k : nat) (l : list T) :
  (forall x i, OrderUpdate.order (f x i) = Z.of_nat i) ->
  map OrderUpdate.order (mapi_from k f l) = map Z.of_nat (seq k (length l)).
Proof.
  intros Hf. revert k. induction l as [|x l IH]; intros k; simpl;
    [reflexivity|].
  now rewrite Hf, IH.
Qed.

Lemma mapi_from_ids (f : T -> nat -> OrderUpdate.t) (g : T -> jsstring)
    (k : nat) (l : list T) :
  (forall x i, OrderUpdate.id (f x i) = g x) ->
  map OrderUpdate.id (mapi_from k f l) = map g l.
Proof.
  intros Hf. revert k. induction l as [|x l IH]; intros k; simpl;
    [reflexivity|].
  now rewrite Hf, IH.
Qed.

Lemma mapi_from_length {U} (f : T -> nat -> U) (k : nat) (l : list T) :
  length (mapi_from k f l) = length l.
Proof.
  revert k. induction l as [|x l IH]; intros k; simpl; [reflexivity|].
  now rewrite IH.
Qed.

End MoveFacts.

(* ===================================================================== *)
(** * The ordering engine: drag and drop *)
(* ===================================================================== *)

Section Drag.

Import Api TodoPage.
Context {Eng : Engine} {P : Platform}.

Lemma position_found (id : jsstring) (view : list Todo.t) :
  In id (map Todo.id view) ->
  findIndex (fun t => streq (Todo.id t) id) view = Z.of_nat (position id view)
  /\ exists t, nth_error view (position id view) = Some t /\ Todo.id t = id.
Proof.
  intros H.
  assert (E : existsb (fun t => streq (Todo.id t) id) view = true).
  { apply existsb_exists. apply in_map_iff in H as (t & Ht & Hin).
    exists t. split; [exact Hin|]. now apply streq_eq. }
  apply findIndex_hit in E as (H0 & t & Hn & Ht). unfold position.
  split; [lia|]. exists t. split; [exact Hn|]. now apply streq_eq.
Qed.

Lemma position_bound (id : jsstring) (view : list Todo.t) :
  In id (map Todo.id view) -> position id view < length view.
Proof.
  intros H. destruct (position_found id view H) as (_ & t & Hn & _).
  apply nth_error_Some. congruence.
Qed.

(** What [dragEnd] hands to the mutation when both ids are in the view
    and differ: the view with the moved record taken out and put back
    at the target's position, numbered from 0. *)
Lemma dragEnd_moves (p : Page) (view : list Todo.t) (moved target : jsstring) :
  filteredTodos p = Some view ->
  In moved (map Todo.id view) -> In target (map Todo.id view) ->
  moved <> target ->
  exists x,
    nth_error view (position moved view) = Some x /\ Todo.id x = moved /\
    dragEnd p moved (Some target)
    = Mutate (mapi (fun todo index =>
                      OrderUpdate.mk (Todo.id todo) (Z.of_nat index))
                   (firstn (position target view)
                           (removeAt (position moved view) view)
                    ++ x :: skipn (position target view)
                                  (removeAt (position moved view) view))).
Proof.
  intros Hv Hm Ht Hne.
  destruct (position_found moved view Hm) as (Em & x & Hx & Hid).
  destruct (position_found target view Ht) as (Et & _).
  exists x. split; [exact Hx|]. split; [exact Hid|].
  unfold dragEnd. rewrite Hv.
  apply streq_neq in Hne. rewrite Hne. simpl negb. cbv iota.
  rewrite Em, Et.
  rewrite (arrayMove_in_range view _ Hx (position_bound target view Ht)).
  reflexivity.
Qed.

Lemma dragEnd_same (p : Page) (id : jsstring) :
  dragEnd p id (Some id) = Nothing.
Proof.
  unfold dragEnd. rewrite streq_refl. simpl. now destruct (filteredTodos p).
Qed.

(** C2: for a reorder gesture on a view of n records in which both the
    moved id and the target id occur, the bulk update that is issued
    gives those n records exactly the order values 0..n-1, each once;
    the moved record sits at the target's index and the other records
    keep their relative order.  Nothing is issued exactly when record
    and target are the same. *)
Theorem drag_reorder_resequences (p : Page) (view : list Todo.t)
    (moved target : jsstring) :
  filteredTodos p = Some view ->
  In moved (map Todo.id view) -> In target (map Todo.id view) ->
  match dragEnd p moved (Some target) with
  | Nothing => moved = target
  | Throws _ => False
  | Mutate updates =>
      moved <> target
      /\ handleDragEnd p moved (Some target) = reorderTodos updates
      /\ map OrderUpdate.order updates = map Z.of_nat (seq 0 (length view))
      /\ Permutation (map OrderUpdate.id updates) (map Todo.id view)
      /\ nth_error (map OrderUpdate.id updates) (position target view)
         = Some moved
      /\ removeAt (position target view) (map OrderUpdate.id updates)
         = removeAt (position moved view) (map Todo.id view)
  end.
Proof.
  intros Hv Hm Ht.
  destruct (list_eq_dec N.eq_dec moved target) as [->|Hne].
  - now rewrite dragEnd_same.
  - destruct (dragEnd_moves p Hv Hm Ht Hne) as (x & Hx & Hid & E).
    pose proof (position_bound moved view Hm) as Bm.
    pose proof (position_bound target view Ht) as Bt.
    pose proof (removeAt_length view Bm) as Lr.
    unfold handleDragEnd. rewrite E. unfold mapi.
    split; [exact Hne|]. split; [reflexivity|].
    rewrite mapi_from_orders by reflexivity.
    rewrite (mapi_from_ids _ Todo.id) by reflexivity.
    rewrite map_app. simpl map. rewrite <- firstn_map, <- skipn_map, Hid.
    split; [|split; [|split]].
    + rewrite inserted_length, Lr.
      now replace (S (length view - 1)) with (length view) by lia.
    + rewrite inserted_perm.
      replace (moved :: map Todo.id (removeAt (position moved view) view))
        with (map Todo.id (x :: removeAt (position moved view) view))
        by (simpl; now rewrite Hid).
      apply Permutation_map, removeAt_perm. exact Hx.
    + apply inserted_nth. rewrite length_map. lia.
    + rewrite inserted_removeAt by (rewrite length_map; lia).
      symmetry. apply removeAt_map.
Qed.

(** C9: the updates a drag-reorder issues carry only [order]; the title,
    tags, due date and completion (and every other column) of every
    record are as before. *)
Theorem reorder_leaves_content (p : Page) (active : jsstring)
    (over : option jsstring) (r : Remote) :
  map content (rows (snd (handleDragEnd p active over r)))
  = map content (rows r)
  /\ exists updates,
       wire (snd (handleDragEnd p active over r))
       = wire r ++ map orderWrite updates.
Proof.
  unfold handleDragEnd. destruct (dragEnd p active over) as [|updates|e].
  - split; [reflexivity|]. exists []. simpl. now rewrite app_nil_r.
  - destruct (reorderTodos_run updates r) as (rows' & E & C).
    rewrite E. simpl. split; [exact C|]. now exists updates.
  - split; [reflexivity|]. exists []. simpl. now rewrite app_nil_r.
Qed.

(** C3, amended: a drag-reorder gesture that moves a record issues one
    reorder mutation carrying all n order assignments; [reorderTodos]
    turns it into one update request per visible record, n requests in
    all, each setting that record's [order] only. *)
Theorem drag_sends_one_update_per_record (p : Page) (view : list Todo.t)
    (moved target : jsstring) (r : Remote) :
  filteredTodos p = Some view ->
  In moved (map Todo.id view) -> In target (map Todo.id view) ->
  moved <> target ->
  exists updates,
    dragEnd p moved (Some target) = Mutate updates
    /\ length updates = length view
    /\ fst (handleDragEnd p moved (Some target) r) = Ok tt
    /\ wire (snd (handleDragEnd p moved (Some target) r))
       = wire r ++ map orderWrite updates
    /\ length (List.filter isWrite (map orderWrite updates)) = length view.
Proof.
  intros Hv Hm Ht Hne.
  destruct (dragEnd_moves p Hv Hm Ht Hne) as (x & Hx & Hid & E).
  pose proof (position_bound moved view Hm) as Bm.
  eexists. split; [exact E|].
  assert (L : length (mapi (fun todo index =>
                OrderUpdate.mk (Todo.id todo) (Z.of_nat index))
                (firstn (position target view)
                        (removeAt (position moved view) view)
                 ++ x :: skipn (position target view)
                               (removeAt (position moved view) view)))
              = length view).
  { unfold mapi. rewrite mapi_from_length, inserted_length, removeAt_length
      by assumption. lia. }
  split; [exact L|].
  unfold handleDragEnd. rewrite E.
  destruct (reorderTodos_run
              (mapi (fun todo index =>
                OrderUpdate.mk (Todo.id todo) (Z.of_nat index))
                (firstn (position target view)
                        (removeAt (position moved view) view)
                 ++ x :: skipn (position target view)
                               (removeAt (position moved view) view))) r)
    as (rows' & Er & _).
  rewrite Er. simpl. repeat split.
  rewrite <- L. generalize (mapi (fun todo index =>
                OrderUpdate.mk (Todo.id todo) (Z.of_nat index))
                (firstn (position target view)
                        (removeAt (position moved view) view)
                 ++ x :: skipn (position target view)
                               (removeAt (position moved view) view))).
  intros l. induction l as [|u l IH]; simpl; [reflexivity|]. now rewrite IH.
Qed.
End Drag.

Section DragEvaluated.

Import Api TodoPage.

Lemma drag_reorder_resequences_witness :
  match dragEnd (Sample.page Sample.collection) Sample.idA (Some Sample.idD) with
  | Nothing => Sample.idA = Sample.idD
  | Throws _ => False
  | Mutate updates =>
      Sample.idA <> Sample.idD
      /\ handleDragEnd (Sample.page Sample.collection) Sample.idA
                       (Some Sample.idD)
         = reorderTodos updates
      /\ map OrderUpdate.order updates
         = map Z.of_nat (seq 0 (length Sample.collection))
      /\ Permutation (map OrderUpdate.id updates)
                     (map Todo.id Sample.collection)
      /\ nth_error (map OrderUpdate.id updates)
                   (position Sample.idD Sample.collection)
         = Some Sample.idA
      /\ removeAt (position Sample.idD Sample.collection)
                  (map OrderUpdate.id updates)
         = removeAt (position Sample.idA Sample.collection)
                    (map Todo.id Sample.collection)
  end.
Proof.
  apply (drag_reorder_resequences (Sample.page Sample.collection)
           (view := Sample.collection)).
  - reflexivity.
  - simpl. auto.
  - simpl. auto.
Defined.

(** A dragged onto D in the sample collection. *)
Example drag_A_onto_D :
  dragEnd (Sample.page Sample.collection) Sample.idA (Some Sample.idD)
  = Mutate [OrderUpdate.mk Sample.idB 0; OrderUpdate.mk Sample.idD 1;
            OrderUpdate.mk Sample.idA 2].
Proof. reflexivity. Qed.

Lemma drag_sends_one_update_per_record_witness :
  exists updates,
    dragEnd (Sample.page Sample.collection) Sample.idA (Some Sample.idB)
    = Mutate updates
    /\ length updates = length Sample.collection
    /\ fst (handleDragEnd (Sample.page Sample.collection) Sample.idA
              (Some Sample.idB) (Sample.remote Sample.collection)) = Ok tt
    /\ wire (snd (handleDragEnd (Sample.page Sample.collection) Sample.idA
                    (Some Sample.idB) (Sample.remote Sample.collection)))
       = wire (Sample.remote Sample.collection) ++ map orderWrite updates
    /\ length (List.filter isWrite (map orderWrite updates))
       = length Sample.collection.
Proof.
  apply (drag_sends_one_update_per_record (Sample.page Sample.collection)
           (view := Sample.collection)).
  - reflexivity.
  - simpl. auto.
  - simpl. auto.
  - discriminate.
Defined.

(** C3 as stated fails: dragging A onto B in a view of two records puts
    two update requests on the wire, not one. *)
Lemma drag_two_records_two_writes :
  let view := [Sample.todo Sample.idA "A" false 0;
               Sample.todo Sample.idB "B" false 1] in
  let r' := snd (handleDragEnd (Sample.page view) Sample.idA
                   (Some Sample.idB) (Sample.remote view)) in
  wire r' = [Update (orderOnly 0) Sample.idB; Update (orderOnly 1) Sample.idA]
  /\ length (List.filter isWrite (wire r')) <> 1.
Proof.
  split; [reflexivity|]. vm_compute. discriminate.
Qed.

End DragEvaluated.

(* ===================================================================== *)
(** * Validation before the gateway *)
(* ===================================================================== *)

Section Validation.

Import Api.

(** C4, at the failing input: [reorderTodos] has no validation step, so
    an element whose id is not a UUID goes out as an update request and
    the call returns normally; [deleteTodo] on the same id throws
    [ZodError] with nothing sent. *)
Theorem reorderTodos_sends_malformed_id :
  is_uuid (str "not-a-uuid") = false
  /\ reorderTodos [OrderUpdate.mk (str "not-a-uuid") 7]
                  (Sample.remote Sample.collection)
     = (Ok tt,
        mkRemote (map stored Sample.collection) (Some Sample.owner) 0
                 [Update (orderOnly 7) (str "not-a-uuid")])
  /\ deleteTodo (str "not-a-uuid") (Sample.remote Sample.collection)
     = (Throw ZodError, Sample.remote Sample.collection).
Proof. repeat split. Qed.

Context {P : Platform}.

(** [createTodo] of a signed-in user with a title that passes the
    schema, in full: when the gateway does not answer for the user the
    call throws as if nobody was signed in; when it fails on the insert
    its error is thrown; when the due date is a text the column does
    not take, the gateway's error is thrown; and else the row is
    added.  The insert is sent in the last three cases. *)
Lemma createTodo_run (input : CreateTodoInput.t) (r : Remote) (u : jsstring) :
  user r = Some u -> CreateTodoSchema input = true ->
  createTodo input r
  = match failure r AuthGetUser with
    | Some _ =>
        (Throw (Error (str "User not authenticated")),
         received AuthGetUser r)
    | None =>
        match failure (received AuthGetUser r) (insertOf input u) with
        | Some e =>
            (Throw e, received (insertOf input u) (received AuthGetUser r))
        | None =>
            if accepted (dueSent input)
            then (Ok tt,
                  mkRemote (rows r ++ [newRow input u r]) (user r)
                           (S (inserted r))
                           (wire r ++ [AuthGetUser; insertOf input u]))
            else (Throw PostgrestError,
                  received (insertOf input u) (received AuthGetUser r))
        end
    end.
Proof.
  intros Hu Hs. destruct r as [rows0 user0 inserted0 wire0].
  simpl in Hu. subst user0.
  unfold createTodo, bind, parse. rewrite Hs. unfold ret at 1.
  unfold auth_getUser.
  destruct (failure _ AuthGetUser); [reflexivity|].
  cbn [user]. unfold from_insert.
  fold (dueSent input). fold (insertOf input u).
  destruct (failure _ (insertOf input u)); [reflexivity|].
  unfold policy, received. cbn [user rows inserted wire].
  rewrite streq_refl, andb_true_r.
  destruct (accepted (dueSent input)); [|reflexivity].
  unfold throwIf, ret, newRow. cbn [inserted]. now rewrite <- app_assoc.
Qed.

Lemma title_bounds (s : jsstring) :
  1 <= length s <= 200 -> title_ok s = true.
Proof.
  intros [Hlo Hhi]. unfold title_ok.
  apply andb_true_iff. split; now apply Nat.leb_le.
Qed.

(** C10, amended: [createTodo] validates the title as given and stores
    it trimmed.  With a signed-in user, a gateway that answers the two
    requests and a due date that the column takes, a title of 1 to 200
    units is stored trimmed; when it is white space only the call
    succeeds and the stored title is the empty string, which
    [TodoSchema] does not accept. *)
Theorem createTodo_stores_blank_title (input : CreateTodoInput.t)
    (r : Remote) (u : jsstring) :
  user r = Some u ->
  1 <= length (CreateTodoInput.title input) <= 200 ->
  failure r AuthGetUser = None ->
  failure (received AuthGetUser r) (insertOf input u) = None ->
  accepted (dueSent input) = true ->
  exists row,
    fst (createTodo input r) = Ok tt
    /\ rows (snd (createTodo input r)) = rows r ++ [row]
    /\ Row.title row = trim (CreateTodoInput.title input)
    /\ (forallb isWhiteSpace (CreateTodoInput.title input) = true ->
        Row.title row = [] /\ TodoSchema row = None).
Proof.
  intros Hu Hb Ha Hi Hd.
  rewrite (createTodo_run input r Hu (@title_bounds _ Hb)), Ha, Hi, Hd.
  exists (newRow input u r). simpl. repeat split.
  - now apply trim_all_white.
  - unfold TodoSchema, newRow. cbn [Row.completed Row.created_at Row.user_id
      Row.remind Row.reminded Row.order Row.tags Row.title Row.id].
    rewrite trim_all_white by assumption.
    destruct (strings _); [|reflexivity].
    unfold title_ok. simpl. now rewrite andb_false_r.
Qed.

End Validation.

Lemma createTodo_stores_blank_title_witness :
  let input := CreateTodoInput.mk (str "   ") None None None in
  let r := Sample.remote [] in
  Api.user r = Some Sample.owner
  /\ 1 <= length (CreateTodoInput.title input) <= 200
  /\ exists row,
       fst (Api.createTodo input r) = Ok tt
       /\ Api.rows (snd (Api.createTodo input r)) = Api.rows r ++ [row]
       /\ Row.title row = trim (CreateTodoInput.title input)
       /\ (forallb isWhiteSpace (CreateTodoInput.title input) = true ->
           Row.title row = [] /\ Api.TodoSchema row = None).
Proof.
  split; [reflexivity|]. split; [simpl; lia|].
  apply (createTodo_stores_blank_title
           (CreateTodoInput.mk (str "   ") None None None)
           (Sample.remote []) (u := Sample.owner)).
  - reflexivity.
  - simpl. lia.
  - reflexivity.
  - reflexivity.
  - reflexivity.
Defined.

(** A title of three spaces is stored as the empty string. *)
Example createTodo_three_spaces :
  map Row.title
      (Api.rows (snd (Api.createTodo
                        (CreateTodoInput.mk (str "   ") None None None)
                        (Sample.remote []))))
  = [[]].
Proof. reflexivity. Qed.

(** C10 as stated fails: a title of white space only need not pass the
    validation, and a call that passes it need not succeed.  With 201
    spaces [createTodo] throws a validation error; with three spaces
    and a due date that is no date the gateway refuses the insert; with
    three spaces and nobody signed in the call throws.  Nothing is
    stored in any of the three. *)
Lemma createTodo_blank_title_not_stored :
  let spaces := CreateTodoInput.mk (repeat 32%N 201) None None None in
  let undated :=
    CreateTodoInput.mk (str "   ") (Some (Some (str "next week"))) None None in
  let blank := CreateTodoInput.mk (str "   ") None None None in
  forallb isWhiteSpace (CreateTodoInput.title spaces) = true
  /\ 1 <= length (CreateTodoInput.title spaces)
  /\ Api.createTodo spaces (Sample.remote [])
     = (Throw ZodError, Sample.remote [])
  /\ fst (Api.createTodo undated (Sample.remote [])) = Throw PostgrestError
  /\ Api.rows (snd (Api.createTodo undated (Sample.remote []))) = []
  /\ fst (Api.createTodo blank (Api.mkRemote [] None 0 []))
     = Throw (Error (str "User not authenticated"))
  /\ Api.rows (snd (Api.createTodo blank (Api.mkRemote [] None 0 []))) = [].
Proof. vm_compute. repeat split. lia. Qed.

(* ===================================================================== *)
(** * The plan merge *)
(* ===================================================================== *)

Section PlanMerge.

Import Api TodoPage.

Lemma mapi_from_offset_orders (k j : nat) (l : list jsstring) :
  map OrderUpdate.order
      (mapi_from j (fun id i => OrderUpdate.mk id (Z.of_nat (k + i))) l)
  = map Z.of_nat (seq (k + j) (length l)).
Proof.
  revert j. induction l as [|x l IH]; intros j; simpl; [reflexivity|].
  rewrite IH. now replace (k + S j) with (S (k + j)) by lia.
Qed.

(** The order writes of a merge: the plan's items, sorted, each with the
    order it came with; then the completed records in their prior
    order, numbered from the number of plan items. *)
Lemma orderUpdates_shape (todos : list Todo.t) (updates : list PlanUpdate.t) :
  map OrderUpdate.id (orderUpdates todos updates)
  = map PlanUpdate.id (sort byOrder updates)
    ++ map Todo.id (List.filter Todo.completed todos)
  /\ map OrderUpdate.order (orderUpdates todos updates)
     = map (fun u => orElse (PlanUpdate.order u) 0%Z) (sort byOrder updates)
       ++ map Z.of_nat (seq (length updates)
                            (length (List.filter Todo.completed todos))).
Proof.
  unfold orderUpdates, mapi. rewrite !map_app, !map_map. simpl. split.
  - f_equal. now rewrite (mapi_from_ids _ (fun id => id)), map_id.
  - f_equal. rewrite mapi_from_offset_orders, !length_map.
    now rewrite Nat.add_0_r.
Qed.

(** When the sorted plan carries the orders 0..k-1, the merge writes
    exactly 0..k+m-1. *)
Lemma orderUpdates_contiguous_when_ranked (todos : list Todo.t)
    (updates : list PlanUpdate.t) :
  map (fun u => orElse (PlanUpdate.order u) 0%Z) (sort byOrder updates)
  = map Z.of_nat (seq 0 (length updates)) ->
  map OrderUpdate.order (orderUpdates todos updates)
  = map Z.of_nat
        (seq 0 (length updates + length (List.filter Todo.completed todos))).
Proof.
  intros H. destruct (orderUpdates_shape todos updates) as [_ ->].
  now rewrite H, <- map_app, <- seq_app.
Qed.

(** C1, at the failing input: two open records A and B, a finished
    record D, and a plan that ranks both A and B first.  The merge
    writes each plan item's own rank, not its position after sorting: A
    and B both end with order 0, where the claim has A = 0, B = 1. *)
Theorem plan_merge_writes_suggested_ranks :
  let plan := [Sample.item Sample.idA 1; Sample.item Sample.idB 1] in
  exists updates,
    AIPanel.handleApplyOptimize (Some plan) = Some updates
    /\ orderUpdates Sample.collection updates
       = [OrderUpdate.mk Sample.idA 0; OrderUpdate.mk Sample.idB 0;
          OrderUpdate.mk Sample.idD 2]
    /\ fst (handleApplyOptimize (Sample.page Sample.collection) updates
              (Sample.remote Sample.collection)) = Ok tt
    /\ map Row.order
           (rows (snd (handleApplyOptimize (Sample.page Sample.collection)
                         updates (Sample.remote Sample.collection))))
       = [Some 0; Some 0; Some 2]%Z.
Proof.
  eexists. split; [reflexivity|]. repeat split.
Qed.

End PlanMerge.

(* ===================================================================== *)
(** * The assistant's service functions *)
(* ===================================================================== *)

Section Assistant.

Import AiService.

(** C8: [getDailyBrief] on no records returns its fixed message, and
    [getOptimizedPlan] on a collection without incomplete records
    returns a plan with no items; neither calls the generation
    service. *)
Theorem empty_collection_short_circuits (gemini : Service)
    (todos : list Todo.t) :
  length (filter (fun t => negb (Todo.completed t)) todos) = 0 ->
  run gemini (getDailyBrief [])
  = (Ok (str "No tasks yet. Add some to get your daily brief!"), [])
  /\ run gemini (getOptimizedPlan todos)
     = (Ok (OptimizedPlan.mk (JString (str "All done! No tasks to optimize."))
                             []),
        []).
Proof.
  intros H. split; [reflexivity|].
  unfold getOptimizedPlan. now rewrite H.
Qed.

Lemma empty_collection_short_circuits_witness :
  let gemini : Service := fun _ _ => Throw (Error (str "no service")) in
  let todos := [Sample.todo Sample.idD "D" true 2] in
  length (filter (fun t => negb (Todo.completed t)) todos) = 0
  /\ run gemini (getDailyBrief [])
     = (Ok (str "No tasks yet. Add some to get your daily brief!"), [])
  /\ run gemini (getOptimizedPlan todos)
     = (Ok (OptimizedPlan.mk (JString (str "All done! No tasks to optimize."))
                             []),
        []).
Proof.
  split; [reflexivity|].
  apply (empty_collection_short_circuits
           (fun _ _ => Throw (Error (str "no service")))
           [Sample.todo Sample.idD "D" true 2]).
  reflexivity.
Defined.

(** With a record to report on, the service is called once. *)
Example getDailyBrief_calls_service :
  run (fun _ _ => Ok (str " Two tasks today. "))
      (getDailyBrief Sample.collection)
  = (Ok (str "Two tasks today."), [(BRIEF_PROMPT Sample.collection, false)]).
Proof. reflexivity. Qed.



(** A fenced reply without title, with tags that are no array and a
    truthy remind. *)
Example intake_fallbacks_evaluated :
  fst (run (fun _ _ => Ok (quoted "```json {'tags': 'home', 'remind': 1} ```"))
           (parseNaturalLanguageTodo (str "call mom tomorrow")))
  = Ok (ParsedTodo.mk (JString (str "call mom tomorrow")) [] JNull true).
Proof. vm_compute. reflexivity. Qed.

(** Number literals that are 0 as doubles are falsy, the ones too small
    for a double among them: the fallbacks apply to them. *)
Example intake_fallbacks_of_small_numbers :
  fst (run (fun _ _ =>
              Ok (quoted "{'title': 1e-400, 'due_at': -0.0, 'remind': 2e-324}"))
           (parseNaturalLanguageTodo (str "call mom tomorrow")))
  = Ok (ParsedTodo.mk (JString (str "call mom tomorrow")) [] JNull false)
  /\ truthy (Some (JNumber 1 (-400))) = false
  /\ truthy (Some (JNumber 3 (-324))) = true.
Proof. vm_compute. repeat split. Qed.

End Assistant.

(* ===================================================================== *)
(** * What [JSON.parse] accepts *)
(* ===================================================================== *)

Section ParserFacts.

Lemma json_space_is_white (w : jsstring) :
  forallb isJsonSpace w = true -> forallb isWhiteSpace w = true.
Proof.
  induction w as [|c w IH]; simpl; [reflexivity|].
  intros H. apply andb_true_iff in H as [Hc Hw]. rewrite (IH Hw), andb_true_r.
  unfold isJsonSpace in Hc.
  repeat (apply orb_true_iff in Hc as [Hc|Hc]);
    apply N.eqb_eq in Hc; subst; reflexivity.
Qed.

Lemma plain_not_json_space (c : N) : plain c -> isJsonSpace c = false.
Proof.
  intros [H _]. destruct (isJsonSpace c) eqn:E; [|reflexivity].
  assert (W : forallb isWhiteSpace [c] = true)
    by (apply json_space_is_white; simpl; now rewrite E).
  simpl in W. rewrite H in W. discriminate.
Qed.

Lemma isDigit_plain (c : N) : isDigit c = true -> plain c.
Proof.
  unfold isDigit. intros H. apply andb_true_iff in H as [Hlo Hhi].
  apply N.leb_le in Hlo, Hhi.
  assert (I : In c [48; 49; 50; 51; 52; 53; 54; 55; 56; 57]%N)
    by (simpl; lia).
  repeat (destruct I as [<-|I]; [split; [reflexivity|discriminate]|]).
  contradiction.
Qed.

Lemma rest_of_refl (s : jsstring) : rest_of s s.
Proof. now exists []. Qed.

Lemma rest_of_trans (s m r : jsstring) :
  rest_of s m -> rest_of m r -> rest_of s r.
Proof.
  intros [p ->] [q ->]. exists (p ++ q). now rewrite app_assoc.
Qed.

Lemma rest_of_cons (c : N) (s r : jsstring) :
  rest_of s r -> rest_of (c :: s) r.
Proof. intros [p ->]. now exists (c :: p). Qed.

Lemma rest_of_tail (c : N) (s : jsstring) : rest_of (c :: s) s.
Proof. now exists [c]. Qed.

Lemma rest_of_skip_ws (s : jsstring) : rest_of s (skip_ws s).
Proof.
  destruct (dropStart_split isJsonSpace s) as (w & _ & E). now exists w.
Qed.

Lemma rest_of_after_ws (s : jsstring) (d : N) (r : jsstring) :
  skip_ws s = d :: r -> rest_of s r.
Proof.
  intros H. eapply rest_of_trans; [apply rest_of_skip_ws|].
  rewrite H. apply rest_of_tail.
Qed.

Lemma read_to_rest (s r : jsstring) : read_to s r -> rest_of s r.
Proof.
  intros (c & _ & H). eapply rest_of_trans; [exact H|apply rest_of_tail].
Qed.

Lemma read_after (s m r : jsstring) :
  rest_of s m -> read_to m r -> read_to s r.
Proof.
  intros H (c & Hc & H'). exists c. split; [exact Hc|].
  eapply rest_of_trans; eassumption.
Qed.

Lemma read_one (c : N) (r : jsstring) : plain c -> read_to (c :: r) r.
Proof. intros H. exists c. split; [exact H|apply rest_of_refl]. Qed.

Lemma closing_read (s rest : jsstring) (d : N) (rest' : jsstring) :
  rest_of s rest -> skip_ws rest = d :: rest' -> plain d -> read_to s rest'.
Proof.
  intros H E Hd. exists d. split; [exact Hd|].
  eapply rest_of_trans; [exact H|]. rewrite <- E. apply rest_of_skip_ws.
Qed.

(** Takes a hypothesis that a nest of matches gave a result apart, case
    by case. *)
Ltac crack H :=
  repeat match type of H with
         | match ?x with _ => _ end = _ =>
             let E := fresh "E" in destruct x eqn:E; try discriminate H
         end.

(** A unit that an equality test pinned down is plain. *)
Ltac plain_unit :=
  match goal with
  | D : (?d =? _)%N = true |- plain ?d =>
      apply N.eqb_eq in D; subst d; split; [reflexivity|discriminate]
  end.

Lemma digits_read (s : jsstring) (acc v : Z) (n : nat) (r : jsstring) :
  digits s acc = (v, n, r) -> (n = 0 /\ r = s) \/ (0 < n /\ read_to s r).
Proof.
  revert acc v n r. induction s as [|c s IH]; intros acc v n r; simpl.
  - intros [= <- <- <-]. now left.
  - destruct (isDigit c) eqn:D.
    + destruct (digits s (acc * 10 + Z.of_N (c - 48))) as [[v' n'] r'] eqn:E.
      intros [= <- <- <-]. right. split; [lia|].
      destruct (IH _ _ _ _ E) as [[-> ->]|[_ H]].
      * apply read_one. now apply isDigit_plain.
      * eapply read_after; [apply rest_of_tail|exact H].
    + intros [= <- <- <-]. now left.
Qed.

Lemma minus_rest (s : jsstring) (sg : Z) (r : jsstring) :
  minus s = (sg, r) -> rest_of s r.
Proof.
  unfold minus. intros H. crack H; injection H as <- <-;
    try apply rest_of_refl; apply rest_of_tail.
Qed.

Lemma sign_rest (s : jsstring) (sg : Z) (r : jsstring) :
  sign s = (sg, r) -> rest_of s r.
Proof.
  unfold sign. intros H. crack H; injection H as <- <-;
    try apply rest_of_refl; apply rest_of_tail.
Qed.

Lemma fraction_read (m : Z) (s : jsstring) (m' : Z) (n : nat) (r : jsstring) :
  fraction m s = Some (m', n, r) -> r = s \/ read_to s r.
Proof.
  unfold fraction. intros H. crack H; injection H as <- <- <-; auto.
  right.
  match goal with
  | Hd : digits _ _ = _ |- _ =>
      apply digits_read in Hd as [[-> _]|[_ Hd]]; [discriminate|];
      eapply read_after; [apply rest_of_tail|exact Hd]
  end.
Qed.

Lemma exponent_read (s : jsstring) (x : Z) (r : jsstring) :
  exponent s = Some (x, r) -> r = s \/ read_to s r.
Proof.
  unfold exponent. intros H. crack H; injection H as <- <-; auto.
  right.
  match goal with
  | Hs : sign _ = _, Hd : digits _ _ = _ |- _ =>
      apply sign_rest in Hs;
      apply digits_read in Hd as [[-> _]|[_ Hd]]; [discriminate|];
      eapply read_after; [apply rest_of_cons; exact Hs|exact Hd]
  end.
Qed.

Lemma parse_number_read (s : jsstring) (v : value) (r : jsstring) :
  parse_number s = Some (v, r) -> read_to s r.
Proof.
  unfold parse_number. intros H.
  destruct (minus s) as [sg s1] eqn:Es. apply minus_rest in Es.
  destruct s1 as [|c s2]; [discriminate|].
  destruct (isDigit c) eqn:D; [|discriminate]. simpl negb in H. cbv iota in H.
  destruct (if (c =? 48)%N then (0%Z, 1, s2) else digits (c :: s2) 0)
    as [[m k] s3] eqn:Ei.
  assert (R : read_to (c :: s2) s3).
  { destruct (c =? 48)%N.
    - injection Ei as <- <- <-. apply read_one. now apply isDigit_plain.
    - destruct (digits_read _ _ Ei) as [[Hk _]|[_ R]]; [|exact R].
      exfalso. simpl in Ei. rewrite D in Ei.
      destruct (digits s2 _) as [[? ?] ?]. injection Ei as _ Ek _. lia. }
  crack H. injection H as <- <-.
  match goal with
  | Hf : fraction _ _ = Some _, He : exponent _ = Some _ |- _ =>
      apply fraction_read in Hf as [->|Hf];
      apply exponent_read in He as [->|He]
  end;
    (eapply read_after; [exact Es|]); auto.
  - eapply read_after; [apply read_to_rest; exact R|assumption].
  - eapply read_after; [apply read_to_rest; exact R|assumption].
  - eapply read_after; [apply read_to_rest; exact R|].
    eapply read_after; [apply read_to_rest; eassumption|assumption].
Qed.

(** A number starts with a minus sign or a digit. *)
Lemma parse_number_first (c : N) (s : jsstring) (v : value) (r : jsstring) :
  parse_number (c :: s) = Some (v, r) -> plain c.
Proof.
  unfold parse_number, minus. intros H.
  destruct (c =? 45)%N eqn:E; [plain_unit|].
  destruct (isDigit c) eqn:D; [now apply isDigit_plain|discriminate].
Qed.

Lemma escape_rest (s : jsstring) (u : N) (r : jsstring) :
  escape s = Some (u, r) -> rest_of s r.
Proof.
  unfold escape. intros H. crack H; injection H as <- <-;
    try apply rest_of_tail.
  do 5 apply rest_of_cons. apply rest_of_refl.
Qed.

Lemma parse_chars_read (fuel : nat) (s chars r : jsstring) :
  parse_chars fuel s = Some (chars, r) -> read_to s r.
Proof.
  revert s chars r. induction fuel as [|fuel IH]; intros s chars r H;
    simpl in H; [discriminate|].
  crack H; injection H as <- <-.
  - apply read_one. plain_unit.
  - match goal with
    | He : escape _ = Some _, Hp : parse_chars _ _ = Some _ |- _ =>
        apply escape_rest in He; apply IH in Hp;
        eapply read_after; [apply rest_of_cons; exact He|exact Hp]
    end.
  - match goal with
    | Hp : parse_chars _ _ = Some _ |- _ =>
        apply IH in Hp; eapply read_after; [apply rest_of_tail|exact Hp]
    end.
Qed.

Lemma literal_read (word : jsstring) (c : N) (v : value) (s : jsstring)
    (v' : value) (r : jsstring) :
  literal (word ++ [c]) v s = Some (v', r) -> plain c -> read_to s r.
Proof.
  unfold literal. intros H Hc.
  destruct (startsWith s (word ++ [c])) eqn:E; [|discriminate].
  injection H as _ <-. apply startsWith_prefix in E as [post ->].
  rewrite skipn_app, Nat.sub_diag, skipn_all. simpl.
  exists c. split; [exact Hc|]. exists word. now rewrite <- app_assoc.
Qed.

(** Nested arrays and objects, numbers, escapes and a repeated key. *)
Example JSON_parse_nested :
  JSON_parse (quoted " [[[-12.50e1]], {'k': {}, 'k': 'a\u0041'}, null] ")
  = Some (JArray [JArray [JArray [JNumber (-1250) (-1)]];
                  JObject [(str "k", JString (str "aA"))];
                  JNull]).
Proof. vm_compute. reflexivity. Qed.

(** Whatever is read ends in a plain unit: a closing bracket, brace or
    quote, a digit, or the last letter of a literal name. *)
Lemma parse_read (n : nat) :
  (forall s v r, parse_value n s = Some (v, r) -> read_to s r)
  /\ (forall s vs r, parse_elements n s = Some (vs, r) -> read_to s r)
  /\ (forall s seen ms r,
         parse_members n s seen = Some (ms, r) -> read_to s r).
Proof.
  induction n as [|n (IHv & IHe & IHm)].
  - repeat split; intros; discriminate.
  - split; [|split].
    + intros s v r H. simpl in H.
      pose proof (rest_of_skip_ws s) as Hs.
      destruct (skip_ws s) as [|c rest]; [discriminate|].
      eapply read_after; [exact Hs|]. clear Hs.
      crack H; try (injection H as <- <-).
      * eapply closing_read; [apply rest_of_tail|eassumption|plain_unit].
      * eapply read_after; [apply rest_of_tail|]. eapply IHm. eassumption.
      * eapply closing_read; [apply rest_of_tail|eassumption|plain_unit].
      * eapply read_after; [apply rest_of_tail|]. eapply IHe. eassumption.
      * eapply read_after; [apply rest_of_tail|].
        eapply parse_chars_read. eassumption.
      * change (str "true") with ([116; 114; 117] ++ [101])%N in H.
        eapply literal_read; [exact H|split; [reflexivity|discriminate]].
      * change (str "false") with ([102; 97; 108; 115] ++ [101])%N in H.
        eapply literal_read; [exact H|split; [reflexivity|discriminate]].
      * change (str "null") with ([110; 117; 108] ++ [108])%N in H.
        eapply literal_read; [exact H|split; [reflexivity|discriminate]].
      * eapply parse_number_read. exact H.
    + intros s vs r H. simpl in H. crack H; try (injection H as <- <-).
      * eapply closing_read; [apply read_to_rest; eapply IHv; eassumption
                             |eassumption|plain_unit].
      * match goal with
        | Hv : parse_value _ _ = Some _, He : parse_elements _ _ = Some _,
          Hw : skip_ws _ = _ |- _ =>
            apply IHv in Hv; apply IHe in He;
            eapply read_after; [|exact He];
            eapply rest_of_trans; [apply read_to_rest; exact Hv|];
            eapply rest_of_after_ws; exact Hw
        end.
    + intros s seen ms r H. simpl in H.
      pose proof (rest_of_skip_ws s) as Hs.
      destruct (skip_ws s) as [|q s1]; [discriminate|].
      eapply read_after; [exact Hs|]. clear Hs.
      crack H; try (injection H as <- <-);
        match goal with
        | Hk : parse_string _ = Some _, Hc : skip_ws _ = _ :: _,
          Hv : parse_value _ _ = Some _ |- _ =>
            apply parse_chars_read, read_to_rest in Hk;
            apply rest_of_after_ws in Hc;
            apply IHv, read_to_rest in Hv;
            pose proof (rest_of_cons q
                          (rest_of_trans Hk (rest_of_trans Hc Hv))) as Hr
        end.
      * eapply closing_read; [exact Hr|eassumption|plain_unit].
      * apply IHm in H. eapply read_after; [|exact H].
        eapply rest_of_trans; [exact Hr|].
        eapply rest_of_after_ws. eassumption.
Qed.

(** A value starts, after white space, with a plain unit. *)
Lemma parse_value_first (n : nat) (s : jsstring) (v : value) (r : jsstring) :
  parse_value n s = Some (v, r) ->
  exists c t, skip_ws s = c :: t /\ plain c.
Proof.
  destruct n as [|n]; [discriminate|]. simpl. intros H.
  destruct (skip_ws s) as [|c rest]; [discriminate|].
  exists c, rest. split; [reflexivity|].
  destruct (c =? 123)%N eqn:E1; [plain_unit|].
  destruct (c =? 91)%N eqn:E2; [plain_unit|].
  destruct (c =? 34)%N eqn:E3; [plain_unit|].
  destruct (c =? 116)%N eqn:E4; [plain_unit|].
  destruct (c =? 102)%N eqn:E5; [plain_unit|].
  destruct (c =? 110)%N eqn:E6; [plain_unit|].
  eapply parse_number_first. exact H.
Qed.

End ParserFacts.

(* ===================================================================== *)
(** * Response decoding *)
(* ===================================================================== *)

Section Decoding.

Import AiService.

(** A JSON text is white space around a body that starts and ends with
    a plain unit; the body is what there is to parse. *)
Lemma JSON_text_shape (text : jsstring) (v : value) :
  JSON_parse text = Some v ->
  exists lead tail a r p b,
    text = lead ++ strip text ++ tail
    /\ forallb isJsonSpace lead = true /\ forallb isJsonSpace tail = true
    /\ strip text = a :: r /\ plain a
    /\ strip text = p ++ [b] /\ plain b.
Proof.
  unfold JSON_parse. intros H.
  destruct (parse_value _ (strip text)) as [[v' [|x rest]]|] eqn:E;
    try discriminate.
  destruct (dropStart_split isJsonSpace text) as (lead & Hl & El).
  destruct (dropEnd_split isJsonSpace (skip_ws text)) as (tail & Ht & Et).
  destruct (parse_value_first _ _ E) as (a & r & Ea & Ha).
  unfold strip, skip_ws in Ea. rewrite dropStart_dropped in Ea.
  destruct (proj1 (parse_read _) _ _ _ E) as (b & Hb & p & Eb).
  exists lead, tail, a, r, p, b.
  split; [unfold strip; fold (skip_ws text) in El; now rewrite <- Et|].
  split; [exact Hl|]. split; [exact Ht|]. split; [exact Ea|].
  split; [exact Ha|]. split; [exact Eb|exact Hb].
Qed.

Lemma plain_solid (c : N) : plain c -> isWhiteSpace c = false.
Proof. now intros [H _]. Qed.

(** Trimming a JSON text leaves its body. *)
Lemma JSON_text_trim (text : jsstring) (v : value) :
  JSON_parse text = Some v -> trim text = strip text.
Proof.
  intros H.
  destruct (JSON_text_shape _ H)
    as (lead & tail & a & r & p & b & E & Hl & Ht & Ea & Ha & Eb & Hb).
  rewrite E at 1. unfold trim.
  rewrite trimStart_white by now apply json_space_is_white.
  rewrite Ea at 1. rewrite <- app_comm_cons, trimStart_cons, (plain_solid Ha).
  rewrite app_comm_cons, <- Ea, Eb, <- app_assoc. simpl app.
  apply trimEnd_solid; [now apply plain_solid|now apply json_space_is_white].
Qed.

Lemma strip_body (text : jsstring) (v : value) :
  JSON_parse text = Some v -> strip (strip text) = strip text.
Proof.
  intros H.
  destruct (JSON_text_shape _ H)
    as (lead & tail & a & r & p & b & E & Hl & Ht & Ea & Ha & Eb & Hb).
  unfold strip at 1. unfold skip_ws at 1. rewrite Ea at 1.
  rewrite dropStart_solid by now apply plain_not_json_space.
  rewrite <- Ea, Eb.
  apply dropEnd_solid; [now apply plain_not_json_space|reflexivity].
Qed.

(** [JSON.parse] of the trimmed text gives the same value. *)
Lemma JSON_parse_trim (text : jsstring) (v : value) :
  JSON_parse text = Some v -> JSON_parse (trim text) = Some v.
Proof.
  intros H. unfold JSON_parse.
  rewrite (JSON_text_trim _ H), (strip_body _ H). exact H.
Qed.

Lemma closesHere_ends (after : jsstring) :
  closesHere after = true -> exists s, after = s ++ [96%N].
Proof.
  unfold closesHere. intros H. apply streq_eq in H.
  destruct (trimStart_split after) as (w & _ & E). rewrite H in E.
  exists (w ++ [96; 96]%N). rewrite E, <- app_assoc. reflexivity.
Qed.

Lemma last_in {T} (l : list T) (x d : T) : In (last (x :: l) d) (x :: l).
Proof.
  revert x. induction l as [|y l IH]; intros x; [now left|].
  right. change (last (x :: y :: l) d) with (last (y :: l) d). apply IH.
Qed.

Lemma last_after {T} (l : list T) (x : T) (t : list T) (d : T) :
  last (l ++ x :: t) d = last (x :: t) d.
Proof.
  induction l as [|y l IH]; [reflexivity|].
  rewrite <- IH. simpl. now destruct (l ++ x :: t) eqn:E; [destruct l|].
Qed.

(** A JSON text carries no fence of its own. *)
Lemma json_text_unfenced (text : jsstring) (v : value) :
  JSON_parse text = Some v -> unfenced text.
Proof.
  intros H.
  destruct (JSON_text_shape _ H)
    as (lead & tail & a & r & p & b & E & Hl & Ht & Ea & Ha & Eb & Hb).
  split.
  - destruct (startsWith text (str "```json")) eqn:S; [|reflexivity].
    apply startsWith_prefix in S as [post S]. exfalso.
    rewrite Ea in E. rewrite S in E. destruct lead as [|x lead].
    + injection E as E _. destruct Ha as [_ Ha]. now apply Ha.
    + injection E as E _. subst x. discriminate.
  - intros before after S.
    destruct (closesHere after) eqn:C; [|reflexivity].
    apply closesHere_ends in C as [s ->]. exfalso.
    assert (L : last text 0%N = 96%N)
      by (rewrite S, app_assoc; apply last_last).
    rewrite E in L. rewrite Eb, <- app_assoc, app_assoc in L. simpl app in L.
    rewrite last_after in L.
    pose proof (last_in tail b 0%N) as I. rewrite L in I.
    destruct I as [I|I].
    + destruct Hb as [_ Hb]. now apply Hb.
    + rewrite forallb_forall in Ht. apply Ht in I. discriminate.
Qed.

End Decoding.

Section Fences.

Import AiService.

(** Up to a solid unit, [trimStart] does not depend on what follows. *)
Lemma trimStart_body (body : jsstring) (c : N) :
  isWhiteSpace c = false ->
  exists b, (forall Z, trimStart (body ++ c :: Z) = b ++ c :: Z)
            /\ (forall Z, trimStart (b ++ c :: Z) = b ++ c :: Z).
Proof.
  intros Hc. induction body as [|x body (b & H1 & H2)].
  - exists []. split; intros Z; rewrite app_nil_l, trimStart_cons;
      now rewrite Hc.
  - destruct (isWhiteSpace x) eqn:Hx.
    + exists b. split; [|exact H2]. intros Z.
      now rewrite <- app_comm_cons, trimStart_cons, Hx.
    + exists (x :: body).
      split; intros Z; now rewrite <- app_comm_cons, trimStart_cons, Hx.
Qed.

Lemma closesHere_long (b : jsstring) (c : N) (Y : jsstring) :
  isWhiteSpace c = false -> closesHere (b ++ c :: Y ++ str "```") = false.
Proof.
  intros Hc. unfold closesHere.
  destruct (trimStart_body b c Hc) as (b' & H1 & _). rewrite H1.
  apply streq_neq. intros E. apply (f_equal (@length N)) in E.
  rewrite !length_app in E. simpl in E. rewrite length_app in E. simpl in E. lia.
Qed.

Lemma stripClose_cons (c : N) (s : jsstring) :
  stripClose (c :: s) = if closesHere (c :: s) then [] else c :: stripClose s.
Proof. reflexivity. Qed.

Lemma stripClose_white (Y : jsstring) :
  forallb isWhiteSpace Y = true -> stripClose (Y ++ str "```") = [].
Proof.
  intros H. destruct Y as [|y Y]; [reflexivity|].
  rewrite <- app_comm_cons, stripClose_cons, app_comm_cons.
  unfold closesHere. now rewrite trimStart_white.
Qed.

(** The closing fence and the white space before it go; the text up to
    its last solid unit stays. *)
Lemma stripClose_solid (b : jsstring) (c : N) (Y : jsstring) :
  isWhiteSpace c = false -> forallb isWhiteSpace Y = true ->
  stripClose (b ++ c :: Y ++ str "```") = b ++ [c].
Proof.
  intros Hc HY. induction b as [|x b IH].
  - pose proof (closesHere_long [] c Y Hc) as L. rewrite app_nil_l in L.
    now rewrite app_nil_l, stripClose_cons, L, stripClose_white.
  - rewrite <- app_comm_cons, stripClose_cons, app_comm_cons.
    rewrite (closesHere_long (x :: b) c Y Hc). simpl. now rewrite IH.
Qed.

(** What [parseJson] hands to [JSON.parse] for a text in a json fence is
    the trimmed text. *)
Lemma cleaned_fenced (text gap1 gap2 : jsstring) :
  forallb isWhiteSpace gap1 = true -> forallb isWhiteSpace gap2 = true ->
  trim (stripFences (fenced (str "```json") gap1 text gap2)) = trim text.
Proof.
  intros H1 H2. unfold fenced, stripFences.
  replace (startsWith (str "```json" ++ gap1 ++ text ++ gap2 ++ str "```")
                      (str "```json")) with true
    by (symmetry; apply startsWith_prefix; eauto).
  change (skipn 7 (str "```json" ++ gap1 ++ text ++ gap2 ++ str "```"))
    with (gap1 ++ text ++ gap2 ++ str "```").
  rewrite trimStart_white by assumption.
  destruct (last_solid isWhiteSpace text) as [W|(body & c & w & -> & Hc & Hw)].
  - rewrite (trim_all_white text W).
    rewrite (app_assoc text), trimStart_white
      by (rewrite forallb_app; now rewrite W, H2).
    reflexivity.
  - destruct (trimStart_body body c Hc) as (b & B1 & B2).
    rewrite <- app_assoc. simpl app. rewrite B1.
    rewrite (app_assoc w).
    rewrite stripClose_solid
      by (try assumption; rewrite forallb_app; now rewrite Hw, H2).
    unfold trim. rewrite B1, B2.
    now rewrite (trimEnd_solid b c [] Hc), (trimEnd_solid b c w Hc).
Qed.

Lemma stripClose_unfenced (text : jsstring) :
  (forall before after, text = before ++ after -> closesHere after = false) ->
  stripClose text = text.
Proof.
  induction text as [|c text IH]; intros H; [reflexivity|].
  rewrite stripClose_cons, (H [] (c :: text) eq_refl). f_equal.
  apply IH. intros before after ->. now apply (H (c :: before)).
Qed.

Lemma stripFences_unfenced (text : jsstring) :
  unfenced text -> stripFences text = text.
Proof.
  intros [H1 H2]. unfold stripFences. rewrite H1. now apply stripClose_unfenced.
Qed.

(** C6, amended: for every JSON text, decoding the text wrapped in a
    fence that opens with three backticks and the tag json, and closes
    with three backticks, yields the same parsed value as decoding the
    text unwrapped.  (A fence without the tag is not removed.) *)
Theorem json_fence_decodes_alike (text gap1 gap2 : jsstring) (v : value) :
  forallb isWhiteSpace gap1 = true -> forallb isWhiteSpace gap2 = true ->
  JSON_parse text = Some v ->
  parseJson (fenced (str "```json") gap1 text gap2) = Ok v
  /\ parseJson text = Ok v.
Proof.
  intros H1 H2 H. unfold parseJson.
  rewrite (cleaned_fenced text gap1 gap2 H1 H2).
  rewrite (stripFences_unfenced (json_text_unfenced _ H)).
  now rewrite (JSON_parse_trim _ H).
Qed.

Lemma json_fence_decodes_alike_witness :
  let text := quoted "{'title': 'Call mom', 'tags': ['family']}" in
  let v := JObject [(str "title", JString (str "Call mom"));
                    (str "tags", JArray [JString (str "family")])] in
  forallb isWhiteSpace [10%N] = true
  /\ JSON_parse text = Some v
  /\ parseJson (fenced (str "```json") [10%N] text [10%N]) = Ok v
  /\ parseJson text = Ok v.
Proof.
  split; [reflexivity|]. split; [vm_compute; reflexivity|].
  apply (json_fence_decodes_alike
           (quoted "{'title': 'Call mom', 'tags': ['family']}")
           [10%N] [10%N]).
  - reflexivity.
  - reflexivity.
  - vm_compute. reflexivity.
Defined.

(** C6 as stated fails: in a fence without the json tag the same text
    does not decode at all, since only the closing fence is removed. *)
Lemma bare_fence_does_not_decode :
  parseJson (fenced (str "```") [10%N] (quoted "{'title': 'Call mom'}") [10%N])
  = Throw SyntaxError
  /\ parseJson (quoted "{'title': 'Call mom'}")
     = Ok (JObject [(str "title", JString (str "Call mom"))])
  /\ stripFences
       (fenced (str "```") [10%N] (quoted "{'title': 'Call mom'}") [10%N])
     = str "```" ++ [10%N] ++ quoted "{'title': 'Call mom'}".
Proof. vm_compute. repeat split. Qed.

End Fences.

(* ===================================================================== *)
(** * Sorting *)
(* ===================================================================== *)

Section SortFacts.

Context {T : Type}.
Variable cmp : T -> T -> Z.

Lemma sortInsert_perm (x : T) (l : list T) :
  Permutation (sortInsert cmp x l) (x :: l).
Proof.
  induction l as [|y l IH]; simpl; [reflexivity|].
  destruct (cmp x y <=? 0)%Z; [reflexivity|].
  rewrite IH. apply perm_swap.
Qed.

Lemma sort_perm (l : list T) : Permutation (sort cmp l) l.
Proof.
  induction l as [|x l IH]; simpl; [reflexivity|].
  rewrite sortInsert_perm. now apply perm_skip.
Qed.

(** A comparison that decides a transitive relation sorts by it. *)
Variable le : T -> T -> Prop.
Hypothesis le_trans : forall x y z, le x y -> le y z -> le x z.
Hypothesis cmp_le :
  forall x y, ((cmp x y <= 0)%Z -> le x y) /\ ((0 < cmp x y)%Z -> le y x).

Lemma sortInsert_sorted (x : T) (l : list T) :
  StronglySorted le l -> StronglySorted le (sortInsert cmp x l).
Proof.
  induction l as [|y l IH]; intros H; simpl.
  - repeat constructor.
  - apply StronglySorted_inv in H as [Hl Hy].
    destruct (Z.leb_spec (cmp x y) 0) as [C|C].
    + apply (proj1 (cmp_le x y)) in C.
      constructor; [now constructor|].
      constructor; [exact C|].
      eapply Forall_impl; [|exact Hy]. intros z. now apply le_trans.
    + apply (proj2 (cmp_le x y)) in C.
      constructor; [now apply IH|].
      eapply Permutation_Forall; [symmetry; apply sortInsert_perm|].
      now constructor.
Qed.

Lemma sort_sorted (l : list T) : StronglySorted le (sort cmp l).
Proof.
  induction l as [|x l IH]; simpl; [constructor|].
  now apply sortInsert_sorted.
Qed.

End SortFacts.

(** Two ascending lists of integers with the same elements are equal
    when one of them has no repetition. *)
Lemma sorted_perm_eq (l1 l2 : list Z) :
  StronglySorted Z.le l1 -> StronglySorted Z.lt l2 -> Permutation l1 l2 ->
  l1 = l2.
Proof.
  revert l2. induction l1 as [|x l1 IH]; intros l2 S1 S2 Hp.
  - apply Permutation_nil in Hp. now subst.
  - destruct l2 as [|y l2];
      [symmetry in Hp; now apply Permutation_nil in Hp|].
    apply StronglySorted_inv in S1 as [S1 H1].
    apply StronglySorted_inv in S2 as [S2 H2].
    assert (x = y).
    { assert (Ix : In x (y :: l2))
        by (eapply Permutation_in; [exact Hp|now left]).
      assert (Iy : In y (x :: l1))
        by (eapply Permutation_in; [symmetry; exact Hp|now left]).
      rewrite Forall_forall in H1, H2.
      destruct Ix as [->|Ix]; [reflexivity|].
      destruct Iy as [->|Iy]; [reflexivity|].
      apply H2 in Ix. apply H1 in Iy. lia. }
    subst y. f_equal. apply IH; try assumption.
    eapply Permutation_cons_inv. exact Hp.
Qed.

(* ===================================================================== *)
(** * The gateway calls: creating *)
(* ===================================================================== *)

Section Creating.

Import Api.
Context {P : Platform}.

Lemma dueSent_none (input : CreateTodoInput.t) :
  dueSent input = None <->
  CreateTodoInput.due_at input = None
  \/ CreateTodoInput.due_at input = Some None
  \/ CreateTodoInput.due_at input = Some (Some []).
Proof.
  unfold dueSent.
  destruct (CreateTodoInput.due_at input) as [[[|c s]|]|];
    split; auto; try discriminate;
    intros [H|[H|H]]; discriminate.
Qed.

Lemma due_none (sent : option jsstring) :
  accepted sent = true -> (due sent = None <-> sent = None).
Proof.
  destruct sent as [d|]; simpl; [|tauto].
  destruct (timestamptz d); simpl; [|discriminate].
  intros _. split; discriminate.
Qed.

(** X4: [createTodo] with a signed-in user, a title that passes the
    schema and a gateway that answers its two requests.  When the due
    date is absent, null, the empty string or a text that the column
    takes, the call returns normally and appends exactly one row: not
    completed, not reminded, order 0, owned by the user, with the
    trimmed title; its due date is NULL in the first three cases and
    else the timestamp that the column reads from the text.  When the
    due date is a text that the column does not take, the call throws
    the gateway's error after the insert was sent, and the table is as
    it was. *)
Theorem createTodo_new_record (input : CreateTodoInput.t) (r : Remote)
    (u : jsstring) :
  user r = Some u -> CreateTodoSchema input = true ->
  failure r AuthGetUser = None ->
  failure (received AuthGetUser r) (insertOf input u) = None ->
  if accepted (dueSent input)
  then
    exists row,
      createTodo input r
      = (Ok tt,
         mkRemote (rows r ++ [row]) (user r) (S (inserted r))
                  (wire r ++ [AuthGetUser; insertOf input u]))
      /\ Row.title row = trim (CreateTodoInput.title input)
      /\ Row.completed row = Some false /\ Row.reminded row = Some false
      /\ Row.order row = Some 0%Z /\ Row.user_id row = Some u
      /\ Row.remind row = Some (orElse (CreateTodoInput.remind input) false)
      /\ Row.tags row
         = Some (map Some (orElse (CreateTodoInput.tags input) []))
      /\ Row.due_at row = due (dueSent input)
      /\ (Row.due_at row = None <->
          CreateTodoInput.due_at input = None
          \/ CreateTodoInput.due_at input = Some None
          \/ CreateTodoInput.due_at input = Some (Some []))
  else
    createTodo input r
    = (Throw PostgrestError,
       mkRemote (rows r) (user r) (inserted r)
                (wire r ++ [AuthGetUser; insertOf input u])).
Proof.
  intros Hu Hs Ha Hi. rewrite (createTodo_run input r Hu Hs), Ha, Hi.
  destruct (accepted (dueSent input)) eqn:Hd.
  - exists (newRow input u r). repeat split; simpl.
    + intros H. apply dueSent_none. now apply (due_none _ Hd).
    + intros H. apply (due_none _ Hd). now apply dueSent_none.
  - unfold received. simpl. now rewrite <- app_assoc.
Qed.

(** X5: without a signed-in user [createTodo] throws "User not
    authenticated" after asking the gateway for the user, and inserts
    nothing. *)
Theorem createTodo_needs_user (input : CreateTodoInput.t) (r : Remote) :
  user r = None -> CreateTodoSchema input = true ->
  createTodo input r
  = (Throw (Error (str "User not authenticated")),
     mkRemote (rows r) None (inserted r) (wire r ++ [AuthGetUser])).
Proof.
  intros Hu Hs. destruct r as [rows0 user0 inserted0 wire0].
  simpl in Hu. subst user0.
  unfold createTodo, bind, parse. rewrite Hs. unfold ret at 1.
  unfold auth_getUser. cbn [user].
  now destruct (failure _ AuthGetUser).
Qed.

End Creating.

Lemma createTodo_new_record_witness :
  let input :=
    CreateTodoInput.mk (str " Buy milk ") (Some (Some (str "2024-06-02")))
                       None None in
  let r := Sample.remote Sample.collection in
  Api.accepted (dueSent input) = true
  /\ exists row,
       Api.createTodo input r
       = (Ok tt,
          Api.mkRemote (Api.rows r ++ [row]) (Api.user r)
                       (S (Api.inserted r))
                       (Api.wire r
                        ++ [Api.AuthGetUser; insertOf input Sample.owner]))
       /\ Row.title row = str "Buy milk"
       /\ Row.due_at row = Some (str "2024-06-02T00:00:00+00:00").
Proof.
  cbv zeta. split; [reflexivity|].
  pose proof (@createTodo_new_record Sample.platform
                (CreateTodoInput.mk (str " Buy milk ")
                                    (Some (Some (str "2024-06-02"))) None None)
                (Sample.remote Sample.collection) Sample.owner
                eq_refl eq_refl eq_refl eq_refl) as H.
  change (Api.accepted _) with true in H. cbv iota in H.
  destruct H as (row & E & Ht & _ & _ & _ & _ & _ & _ & Hd & _).
  exists row. split; [exact E|]. split; [exact Ht|exact Hd].
Defined.

Lemma createTodo_needs_user_witness :
  Api.createTodo (CreateTodoInput.mk (str "Buy milk") None None None)
                 (Api.mkRemote (map stored Sample.collection) None 0 [])
  = (Throw (Error (str "User not authenticated")),
     Api.mkRemote (map stored Sample.collection) None 0 [Api.AuthGetUser]).
Proof.
  apply (@createTodo_needs_user Sample.platform
           (CreateTodoInput.mk (str "Buy milk") None None None)
           (Api.mkRemote (map stored Sample.collection) None 0 []));
    reflexivity.
Defined.

(** A due date that is no date: the insert is refused. *)
Example createTodo_next_week :
  Api.createTodo
    (CreateTodoInput.mk (str "Buy milk") (Some (Some (str "next week")))
                        None None)
    (Sample.remote [])
  = (Throw PostgrestError,
     Api.mkRemote [] (Some Sample.owner) 0
       [Api.AuthGetUser;
        Api.Insert (str "Buy milk") Sample.owner (Some (str "next week"))
                   false []]).
Proof. reflexivity. Qed.

(* ===================================================================== *)
(** * The gateway calls: reading back *)
(* ===================================================================== *)

Section ReadBack.

Import Api.
Context {P : Platform}.
Variable compareTime : jsstring -> jsstring -> Z.

Lemma strings_Some (l : list (option jsstring)) (l' : list jsstring) :
  strings l = Some l' -> l = map Some l'.
Proof.
  revert l'. induction l as [|[s|] l IH]; simpl; intros l' H.
  - now injection H as <-.
  - destruct (strings l) as [rest|]; [|discriminate].
    injection H as <-. simpl. now rewrite (IH rest).
  - discriminate.
Qed.

(** A row that passes [TodoSchema] is the row that holds the record. *)
Lemma TodoSchema_stored (row : Row.t) (t : Todo.t) :
  TodoSchema row = Some t -> row = stored t.
Proof.
  unfold TodoSchema. destruct row as [i ti c ca u d rm rd tg o]. simpl.
  destruct c, ca, u, rm, rd, o; try discriminate.
  destruct tg as [l|].
  - destruct (strings l) as [l'|] eqn:S; [|discriminate].
    destruct (_ && _); [|discriminate]. intros [= <-].
    unfold stored. simpl. now rewrite (strings_Some _ S).
  - destruct (_ && _); [|discriminate]. now intros [= <-].
Qed.

Lemma validated_Some (l : list Row.t) (data : list Todo.t) :
  validated l = Some data ->
  l = map stored data /\ Forall (fun t => TodoSchema (stored t) = Some t) data.
Proof.
  revert data. induction l as [|row l IH]; simpl; intros data H.
  - injection H as <-. split; [reflexivity|constructor].
  - destruct (TodoSchema row) as [t|] eqn:T; [|discriminate].
    destruct (validated l) as [rest|]; [|discriminate].
    injection H as <-. destruct (IH rest eq_refl) as [-> F].
    pose proof (TodoSchema_stored _ T) as ->.
    split; [reflexivity|]. now constructor.
Qed.

Lemma validated_None (l : list Row.t) :
  validated l = None -> exists row, In row l /\ TodoSchema row = None.
Proof.
  induction l as [|row l IH]; simpl; [discriminate|].
  destruct (TodoSchema row) as [t|] eqn:T; [|intros _; exists row; auto].
  destruct (validated l); [discriminate|].
  intros _. destruct (IH eq_refl) as (x & Hx & Tx). exists x. auto.
Qed.

Lemma validated_reject (l : list Row.t) (row : Row.t) :
  In row l -> TodoSchema row = None -> validated l = None.
Proof.
  induction l as [|x l IH]; simpl; [contradiction|].
  intros [->|H] T; [now rewrite T|].
  destruct (TodoSchema x); [|reflexivity]. now rewrite (IH H T).
Qed.

(** Ascending [order], NULL last. *)
Lemma byOrderThenNewest_key (x y : Row.t) :
  let le a b :=
    match Row.order a, Row.order b with
    | Some m, Some n => (m <= n)%Z
    | _, None => True
    | None, Some _ => False
    end in
  ((byOrderThenNewest compareTime x y <= 0)%Z -> le x y)
  /\ ((0 < byOrderThenNewest compareTime x y)%Z -> le y x).
Proof.
  unfold byOrderThenNewest.
  destruct (Row.order x) as [m|], (Row.order y) as [n|]; simpl;
    try (split; intros; (exact I || lia)).
  destruct (Z.ltb_spec m n); [split; lia|].
  destruct (Z.ltb_spec n m); split; lia.
Qed.

Lemma from_select_own (r : Remote) :
  Permutation (from_select compareTime r) (own r).
Proof. apply sort_perm. Qed.

Lemma from_select_sorted (r : Remote) (data : list Todo.t) :
  from_select compareTime r = map stored data ->
  StronglySorted (fun a b => (Todo.order a <= Todo.order b)%Z) data.
Proof.
  intros E.
  assert (S : StronglySorted
                (fun a b =>
                   match Row.order a, Row.order b with
                   | Some m, Some n => (m <= n)%Z
                   | _, None => True
                   | None, Some _ => False
                   end)
                (map stored data)).
  { rewrite <- E. unfold from_select.
    apply (@sort_sorted _ (byOrderThenNewest compareTime)).
    - intros x y z.
      destruct (Row.order x), (Row.order y), (Row.order z); try tauto; lia.
    - apply byOrderThenNewest_key. }
  clear E. induction data as [|t data IH]; [constructor|].
  simpl in S. apply StronglySorted_inv in S as [S F].
  constructor; [now apply IH|].
  rewrite Forall_forall in *. intros x Hx.
  exact (F (stored x) (in_map stored _ _ Hx)).
Qed.

(** X3: [fetchTodos] changes nothing on the remote side.  When it
    returns, the gateway has answered; the result is exactly the rows
    that the signed-in user owns, as records, in ascending [order], and
    every one of them passes [TodoSchema].  When it throws, either the
    gateway answered with that error, or the error is a validation
    error and one of the user's rows does not pass [TodoSchema]. *)
Theorem fetchTodos_answer (r : Remote) :
  snd (fetchTodos compareTime r) = r
  /\ match fst (fetchTodos compareTime r) with
     | Ok data =>
         select_failure r = None
         /\ Permutation (map stored data) (own r)
         /\ StronglySorted (fun a b => (Todo.order a <= Todo.order b)%Z) data
         /\ Forall (fun t => TodoSchema (stored t) = Some t) data
     | Throw e =>
         select_failure r = Some e
         \/ (select_failure r = None /\ e = ZodError
             /\ exists row, In row (own r) /\ TodoSchema row = None)
     end.
Proof.
  unfold fetchTodos. destruct (select_failure r) as [e|]; simpl.
  - split; [reflexivity|]. now left.
  - destruct (validated (from_select compareTime r)) as [data|] eqn:V; simpl.
    + split; [reflexivity|]. split; [reflexivity|].
      destruct (validated_Some _ V) as [E F].
      split; [rewrite <- E; apply from_select_own|].
      split; [now apply (from_select_sorted r)|exact F].
    + split; [reflexivity|]. right. split; [reflexivity|].
      split; [reflexivity|].
      destruct (validated_None _ V) as (row & Hin & T).
      exists row. split; [|exact T].
      eapply Permutation_in; [apply from_select_own|exact Hin].
Qed.

Lemma fetched_row (r : Remote) (data : list Todo.t) (t : Todo.t) :
  fst (fetchTodos compareTime r) = Ok data -> In t data ->
  In (stored t) (rows r) /\ policy r (Some (Todo.user_id t)) = true.
Proof.
  intros H Ht. unfold fetchTodos in H.
  destruct (select_failure r); [discriminate|].
  destruct (validated (from_select compareTime r)) as [data'|] eqn:V;
    [|discriminate].
  injection H as <-. destruct (validated_Some _ V) as [E _].
  assert (I : In (stored t) (own r)).
  { eapply Permutation_in; [apply from_select_own|].
    rewrite E. now apply in_map. }
  unfold own in I. now apply filter_In in I.
Qed.

(** X6: a title of white space only breaks the list.  After
    [createTodo] has stored it (a signed-in user, a gateway that
    answers, a due date that the column takes), the table holds a row
    that [TodoSchema] rejects, and a [fetchTodos] that the gateway
    answers throws a validation error for that user. *)
Theorem blank_title_breaks_fetchTodos (input : CreateTodoInput.t)
    (r : Remote) (u : jsstring) :
  user r = Some u ->
  1 <= length (CreateTodoInput.title input) <= 200 ->
  forallb isWhiteSpace (CreateTodoInput.title input) = true ->
  failure r AuthGetUser = None ->
  failure (received AuthGetUser r) (insertOf input u) = None ->
  accepted (dueSent input) = true ->
  select_failure (snd (createTodo input r)) = None ->
  fst (createTodo input r) = Ok tt
  /\ fst (fetchTodos compareTime (snd (createTodo input r))) = Throw ZodError.
Proof.
  intros Hu Hb Hw Ha Hi Hd Hs.
  rewrite (createTodo_run input r Hu (@title_bounds _ Hb)), Ha, Hi, Hd in *.
  split; [reflexivity|]. simpl snd in *.
  unfold fetchTodos. rewrite Hs.
  rewrite (validated_reject _ (newRow input u r)); [reflexivity| |].
  - eapply Permutation_in; [symmetry; apply from_select_own|].
    unfold own. apply filter_In. simpl. split.
    + apply in_or_app. right. now left.
    + unfold policy. simpl. rewrite Hu. apply streq_refl.
  - unfold TodoSchema, newRow.
    cbn [Row.completed Row.created_at Row.user_id Row.remind Row.reminded
         Row.order Row.tags Row.title Row.id].
    rewrite trim_all_white by assumption.
    destruct (strings _); [|reflexivity].
    unfold title_ok. simpl. now rewrite andb_false_r.
Qed.

End ReadBack.

Lemma blank_title_breaks_fetchTodos_witness :
  let input := CreateTodoInput.mk (str "  ") None None None in
  let r := Sample.remote Sample.collection in
  fst (Api.createTodo input r) = Ok tt
  /\ fst (Api.fetchTodos compareUnits (snd (Api.createTodo input r)))
     = Throw ZodError.
Proof.
  apply (@blank_title_breaks_fetchTodos Sample.platform compareUnits
           (CreateTodoInput.mk (str "  ") None None None)
           (Sample.remote Sample.collection) Sample.owner);
    try reflexivity.
  simpl. lia.
Defined.

(** The sample collection, read. *)
Example fetch_sample :
  fst (Api.fetchTodos compareUnits (Sample.remote Sample.collection))
  = Ok Sample.collection.
Proof. vm_compute. reflexivity. Qed.

(* ===================================================================== *)
(** * The gateway calls: writing *)
(* ===================================================================== *)

Section Writes.

Import Api.
Context {P : Platform}.

(** [toggleTodo] with a well-formed id, in full. *)
Lemma toggleTodo_run (id : jsstring) (completed : bool) (r : Remote) :
  is_uuid id = true ->
  toggleTodo id completed r
  = match failure r (Update (completedOnly completed) id) with
    | Some e => (Throw e, received (Update (completedOnly completed) id) r)
    | None =>
        (Ok tt,
         mkRemote
           (map (fun t =>
                   if streq (Row.id t) id && policy r (Row.user_id t)
                   then overwrite (completedOnly completed) t
                   else t)
                (rows r))
           (user r) (inserted r)
           (wire r ++ [Update (completedOnly completed) id]))
    end.
Proof.
  intros H. unfold toggleTodo, bind, parse. rewrite H. unfold ret at 1.
  fold (completedOnly completed).
  rewrite from_update_run by reflexivity.
  now destruct (failure r (Update (completedOnly completed) id)).
Qed.

(** [deleteTodo] with a well-formed id, in full. *)
Lemma deleteTodo_run (id : jsstring) (r : Remote) :
  is_uuid id = true ->
  deleteTodo id r
  = match failure r (Delete id) with
    | Some e => (Throw e, received (Delete id) r)
    | None =>
        (Ok tt,
         mkRemote
           (filter (fun t =>
                      negb (streq (Row.id t) id && policy r (Row.user_id t)))
                   (rows r))
           (user r) (inserted r) (wire r ++ [Delete id]))
    end.
Proof.
  intros H. unfold deleteTodo, bind, parse. rewrite H. unfold ret at 1.
  unfold from_delete. now destruct (failure r (Delete id)).
Qed.


Section WithFetch.

Variable compareTime : jsstring -> jsstring -> Z.

(** X7: [toggleTodo] with a well-formed id sends one update.  When the
    request fails, the call throws the error of the request.  When the
    gateway carries it out, the call returns normally; nothing but
    [completed] has changed, and that only on the signed-in user's rows
    with that id; and whatever [fetchTodos] then returns shows every
    record with that id at the new value. *)
Theorem toggleTodo_then_fetch (id : jsstring) (completed : bool)
    (r : Remote) :
  is_uuid id = true ->
  wire (snd (toggleTodo id completed r))
  = wire r ++ [Update (completedOnly completed) id]
  /\ match failure r (Update (completedOnly completed) id) with
     | Some e => fst (toggleTodo id completed r) = Throw e
     | None =>
         fst (toggleTodo id completed r) = Ok tt
         /\ map uncompleted (rows (snd (toggleTodo id completed r)))
            = map uncompleted (rows r)
         /\ map Row.completed (rows (snd (toggleTodo id completed r)))
            = map (fun t =>
                     if streq (Row.id t) id && policy r (Row.user_id t)
                     then Some completed else Row.completed t)
                  (rows r)
         /\ forall data t,
              fst (fetchTodos compareTime (snd (toggleTodo id completed r)))
              = Ok data ->
              In t data -> Todo.id t = id -> Todo.completed t = completed
     end.
Proof.
  intros H. rewrite (toggleTodo_run id completed r H).
  destruct (failure r (Update (completedOnly completed) id)) as [e|].
  - split; reflexivity.
  - simpl fst. simpl snd. split; [reflexivity|]. split; [reflexivity|].
    simpl rows. split; [|split].
    + rewrite map_map. apply map_ext. intros t.
      now destruct (streq (Row.id t) id && policy r (Row.user_id t)).
    + rewrite map_map. apply map_ext. intros t.
      now destruct (streq (Row.id t) id && policy r (Row.user_id t)).
    + intros data t Hf Ht Hid.
      destruct (@fetched_row P compareTime _ _ _ Hf Ht) as [Hin Hown].
      simpl in Hin. apply in_map_iff in Hin as (t0 & E & _).
      unfold policy in Hown. simpl in Hown.
      fold (policy r (Some (Todo.user_id t))) in Hown.
      destruct (streq (Row.id t0) id && policy r (Row.user_id t0)) eqn:C.
      * apply (f_equal Row.completed) in E. simpl in E. congruence.
      * subst t0. simpl in C. subst id. rewrite streq_refl, Hown in C.
        discriminate.
Qed.

(** X8: [deleteTodo] with a well-formed id sends one delete.  When the
    request fails, the call throws the error of the request.  When the
    gateway carries it out, the call returns normally, the signed-in
    user's rows with that id are gone and every other row is in its
    place; and whatever [fetchTodos] then returns has no record with
    that id. *)
Theorem deleteTodo_then_fetch (id : jsstring) (r : Remote) :
  is_uuid id = true ->
  wire (snd (deleteTodo id r)) = wire r ++ [Delete id]
  /\ match failure r (Delete id) with
     | Some e => fst (deleteTodo id r) = Throw e
     | None =>
         fst (deleteTodo id r) = Ok tt
         /\ rows (snd (deleteTodo id r))
            = filter (fun t => negb (streq (Row.id t) id
                                     && policy r (Row.user_id t)))
                     (rows r)
         /\ forall data,
              fst (fetchTodos compareTime (snd (deleteTodo id r))) = Ok data ->
              ~ In id (map Todo.id data)
     end.
Proof.
  intros H. rewrite (deleteTodo_run id r H).
  destruct (failure r (Delete id)) as [e|].
  - split; reflexivity.
  - simpl fst. simpl snd. split; [reflexivity|]. split; [reflexivity|].
    split; [reflexivity|].
    intros data Hf Hin. apply in_map_iff in Hin as (t & Hid & Ht).
    destruct (@fetched_row P compareTime _ _ _ Hf Ht) as [Hr Hown].
    simpl in Hr. apply filter_In in Hr as [_ Hr].
    unfold policy in Hown. simpl in Hown.
    fold (policy r (Some (Todo.user_id t))) in Hown.
    simpl in Hr. rewrite Hid, streq_refl, Hown in Hr. discriminate.
Qed.

End WithFetch.

Lemma NoDup_same_id (l : list Row.t) (t t' : Row.t) :
  NoDup (map Row.id l) -> In t l -> In t' l -> Row.id t' = Row.id t ->
  t' = t.
Proof.
  induction l as [|x l IH]; intros Hn Ht Ht' E; [contradiction|].
  simpl in Hn. apply NoDup_cons_iff in Hn as [Hx Hn].
  destruct Ht as [->|Ht]; destruct Ht' as [->|Ht']; auto.
  - exfalso. apply Hx. rewrite <- E. now apply in_map.
  - exfalso. apply Hx. rewrite E. now apply in_map.
Qed.

(** A toggle that returned normally was carried out. *)
Lemma toggleTodo_returned (id : jsstring) (completed : bool) (r : Remote) :
  is_uuid id = true -> fst (toggleTodo id completed r) = Ok tt ->
  failure r (Update (completedOnly completed) id) = None.
Proof.
  intros H. rewrite (toggleTodo_run id completed r H).
  now destruct (failure r (Update (completedOnly completed) id)).
Qed.

(** X9: the checkbox of a row toggles back and forth: with distinct
    ids in the table, ticking one of the user's rows puts the row with
    its [completed] negated in its place, and ticking that row again
    restores the table, when both calls return normally. *)
Theorem onToggle_twice (t : Todo.t) (r : Remote) :
  NoDup (map Row.id (rows r)) -> In (stored t) (rows r) ->
  is_uuid (Todo.id t) = true ->
  policy r (Some (Todo.user_id t)) = true ->
  fst (TodoPage.onToggle t r) = Ok tt ->
  fst (TodoPage.onToggle (flipped t) (snd (TodoPage.onToggle t r))) = Ok tt ->
  In (stored (flipped t)) (rows (snd (TodoPage.onToggle t r)))
  /\ rows (snd (TodoPage.onToggle (flipped t) (snd (TodoPage.onToggle t r))))
     = rows r.
Proof.
  intros Hn Ht Hu Ho H1 H2. unfold TodoPage.onToggle in *.
  change (Todo.id (flipped t)) with (Todo.id t) in *.
  pose proof (toggleTodo_returned _ _ _ Hu H1) as O1.
  pose proof (@toggleTodo_run (Todo.id t) (negb (Todo.completed t)) r Hu)
    as E1.
  rewrite O1 in E1. rewrite E1 in *. cbn [snd] in *.
  pose proof (toggleTodo_returned _ _ _ Hu H2) as O2.
  rewrite (@toggleTodo_run (Todo.id t) _ _ Hu), O2. simpl. split.
  - apply in_map_iff. exists (stored t). split; [|exact Ht].
    simpl. now rewrite streq_refl, Ho.
  - rewrite map_map. rewrite <- (map_id (rows r)) at 2.
    apply map_ext_in. intros x Hx. unfold policy at 1. simpl.
    fold (policy r (Row.user_id x)).
    destruct (streq (Row.id x) (Todo.id t) && policy r (Row.user_id x))
      eqn:C.
    + apply andb_true_iff in C as [C1 C2]. apply streq_eq in C1.
      assert (x = stored t)
        by (eapply NoDup_same_id; try eassumption; exact C1).
      subst x. simpl. unfold policy. simpl.
      fold (policy r (Some (Todo.user_id t))).
      rewrite streq_refl, Ho. simpl. destruct t. unfold stored. simpl.
      now rewrite negb_involutive.
    + unfold policy. simpl. fold (policy r (Row.user_id x)).
      now rewrite C.
Qed.

End Writes.

(** An input that names [created_at]: the key is sent, the gateway of
    the README takes it, and the row has a new creation time. *)
Example updateTodo_rewrites_created_at :
  let input :=
    UpdateTodoInput.mk Sample.idA None None None None None None None
      [(str "created_at", Json.JString (str "1999-01-01"))] in
  let r := Sample.remote Sample.collection in
  @Api.updateTodo Sample.open_platform input r
  = (Ok tt,
     Api.mkRemote
       (Row.mk Sample.idA (str "A") (Some false)
               (Some (str "1999-01-01T00:00:00+00:00")) (Some Sample.owner)
               None (Some false) (Some false) (Some []) (Some 0%Z)
        :: map stored [Sample.todo Sample.idB "B" false 1;
                       Sample.todo Sample.idD "D" true 2])
       (Some Sample.owner) 0
       [Api.Update (updatesOf input) Sample.idA]).
Proof. vm_compute. reflexivity. Qed.

(** When no request gets through, the calls that look at the answer
    throw its error, [createTodo] finds no user, and [reorderTodos],
    which does not look at the answers, returns normally; the tick of a
    checkbox throws and the row stays as it is. *)
Example calls_when_requests_fail :
  let r := Sample.remote Sample.collection in
  let t := Sample.todo Sample.idA "A" false 0 in
  fst (@Api.fetchTodos Sample.offline_platform compareUnits r)
  = Throw PostgrestError
  /\ fst (@Api.toggleTodo Sample.offline_platform Sample.idA true r)
     = Throw PostgrestError
  /\ fst (@Api.deleteTodo Sample.offline_platform Sample.idA r)
     = Throw PostgrestError
  /\ fst (@Api.updateTodo Sample.offline_platform
            (UpdateTodoInput.mk Sample.idA None (Some (str "B")) None None
                                None None None []) r)
     = Throw PostgrestError
  /\ fst (@Api.createTodo Sample.offline_platform
            (CreateTodoInput.mk (str "Buy milk") None None None) r)
     = Throw (Error (str "User not authenticated"))
  /\ fst (@Api.reorderTodos Sample.offline_platform
            [OrderUpdate.mk Sample.idA 1] r)
     = Ok tt
  /\ fst (@TodoPage.onToggle Sample.offline_platform t r)
     = Throw PostgrestError
  /\ ~ In (stored (flipped t))
          (Api.rows (snd (@TodoPage.onToggle Sample.offline_platform t r))).
Proof.
  cbv zeta. repeat (split; [reflexivity|]).
  vm_compute. intros [H|[H|[H|[]]]]; discriminate.
Qed.

Lemma toggleTodo_then_fetch_witness :
  let r := Sample.remote Sample.collection in
  Api.is_uuid Sample.idA = true
  /\ Api.rows (snd (Api.toggleTodo Sample.idA true r))
     = map stored [Sample.todo Sample.idA "A" true 0;
                   Sample.todo Sample.idB "B" false 1;
                   Sample.todo Sample.idD "D" true 2]
  /\ Api.wire (snd (Api.toggleTodo Sample.idA true r))
     = Api.wire r ++ [Api.Update (completedOnly true) Sample.idA]
  /\ match Api.failure r (Api.Update (completedOnly true) Sample.idA) with
     | Some e => fst (Api.toggleTodo Sample.idA true r) = Throw e
     | None =>
         fst (Api.toggleTodo Sample.idA true r) = Ok tt
         /\ map uncompleted (Api.rows (snd (Api.toggleTodo Sample.idA true r)))
            = map uncompleted (Api.rows r)
         /\ map Row.completed
                (Api.rows (snd (Api.toggleTodo Sample.idA true r)))
            = map (fun t =>
                     if streq (Row.id t) Sample.idA
                        && Api.policy r (Row.user_id t)
                     then Some true else Row.completed t)
                  (Api.rows r)
         /\ forall data t,
              fst (Api.fetchTodos compareUnits
                     (snd (Api.toggleTodo Sample.idA true r))) = Ok data ->
              In t data -> Todo.id t = Sample.idA -> Todo.completed t = true
     end.
Proof.
  split; [reflexivity|]. split; [reflexivity|].
  apply (@toggleTodo_then_fetch Sample.platform compareUnits Sample.idA true
           (Sample.remote Sample.collection)).
  reflexivity.
Defined.

(** Ticking A in the sample collection, read back. *)
Example toggle_A_read_back :
  option_map (map (fun t => (Todo.title t, Todo.completed t)))
    (match fst (Api.fetchTodos compareUnits
                  (snd (Api.toggleTodo Sample.idA true
                          (Sample.remote Sample.collection)))) with
     | Ok data => Some data
     | Throw _ => None
     end)
  = Some [(str "A", true); (str "B", false); (str "D", true)].
Proof. vm_compute. reflexivity. Qed.

Lemma deleteTodo_then_fetch_witness :
  let r := Sample.remote Sample.collection in
  Api.is_uuid Sample.idB = true
  /\ Api.rows (snd (Api.deleteTodo Sample.idB r))
     = map stored [Sample.todo Sample.idA "A" false 0;
                   Sample.todo Sample.idD "D" true 2]
  /\ Api.wire (snd (Api.deleteTodo Sample.idB r))
     = Api.wire r ++ [Api.Delete Sample.idB]
  /\ match Api.failure r (Api.Delete Sample.idB) with
     | Some e => fst (Api.deleteTodo Sample.idB r) = Throw e
     | None =>
         fst (Api.deleteTodo Sample.idB r) = Ok tt
         /\ Api.rows (snd (Api.deleteTodo Sample.idB r))
            = filter (fun t => negb (streq (Row.id t) Sample.idB
                                     && Api.policy r (Row.user_id t)))
                     (Api.rows r)
         /\ forall data,
              fst (Api.fetchTodos compareUnits
                     (snd (Api.deleteTodo Sample.idB r))) = Ok data ->
              ~ In Sample.idB (map Todo.id data)
     end.
Proof.
  split; [reflexivity|]. split; [reflexivity|].
  apply (@deleteTodo_then_fetch Sample.platform compareUnits Sample.idB
           (Sample.remote Sample.collection)).
  reflexivity.
Defined.

Lemma onToggle_twice_witness :
  let r := Sample.remote Sample.collection in
  let t := Sample.todo Sample.idA "A" false 0 in
  In (stored (flipped t)) (Api.rows (snd (TodoPage.onToggle t r)))
  /\ Api.rows (snd (TodoPage.onToggle (flipped t)
                      (snd (TodoPage.onToggle t r))))
     = Api.rows r.
Proof.
  apply (@onToggle_twice Sample.platform (Sample.todo Sample.idA "A" false 0)
           (Sample.remote Sample.collection)).
  - repeat constructor; simpl; intuition discriminate.
  - now left.
  - reflexivity.
  - reflexivity.
  - reflexivity.
  - reflexivity.
Defined.

(* ===================================================================== *)
(** * The filter pipeline and the counters *)
(* ===================================================================== *)

Section Pipeline.

Import TodoPage.
Context {Eng : Engine}.

Lemma keeps_conjunction (p : Page) (todo : Todo.t) :
  keeps p todo
  = statusPasses (filter p) todo && searchPasses (searchQuery p) todo
    && tagPasses (selectedTag p) todo.
Proof.
  unfold keeps, statusPasses.
  destruct (filter p), (Todo.completed todo),
    (searchPasses (searchQuery p) todo), (tagPasses (selectedTag p) todo);
    reflexivity.
Qed.

Lemma filter_filter {T} (f g : T -> bool) (l : list T) :
  List.filter f (List.filter g l) = List.filter (fun x => g x && f x) l.
Proof.
  induction l as [|x l IH]; simpl; [reflexivity|].
  destruct (g x); simpl; [destruct (f x)|]; now rewrite IH.
Qed.

(** X11: the view is the collection filtered by status, by search and
    by tag, one after the other, and the order in which the three are
    applied makes no difference. *)
Theorem filters_compose_in_any_order (p : Page) :
  let status := statusPasses (filter p) in
  let search := searchPasses (searchQuery p) in
  let tag := tagPasses (selectedTag p) in
  filteredTodos p
  = option_map (fun l => List.filter tag (List.filter search
                                            (List.filter status l)))
               (todos p)
  /\ filteredTodos p
     = option_map (fun l => List.filter status (List.filter tag
                                                  (List.filter search l)))
                  (todos p)
  /\ filteredTodos p
     = option_map (fun l => List.filter search (List.filter status
                                                  (List.filter tag l)))
                  (todos p).
Proof.
  unfold filteredTodos. destruct (todos p) as [l|]; simpl; [|auto].
  repeat split; f_equal; rewrite !filter_filter; apply filter_ext;
    intros t; rewrite keeps_conjunction;
    destruct (statusPasses (filter p) t),
      (searchPasses (searchQuery p) t), (tagPasses (selectedTag p) t);
    reflexivity.
Qed.

Lemma filter_all {T} (f : T -> bool) (l : list T) :
  (forall x, f x = true) -> List.filter f l = l.
Proof.
  intros H. induction l as [|x l IH]; simpl; [reflexivity|].
  now rewrite H, IH.
Qed.

Lemma cleared_view (l : option (list Todo.t)) :
  filteredTodos (mkPage l all [] None) = l.
Proof.
  unfold filteredTodos. simpl. destruct l as [l|]; [|reflexivity].
  f_equal. now apply filter_all.
Qed.

(** X12: Escape closes the shortcuts dialog when it is open and leaves
    the filters alone; when the dialog is closed it clears status,
    search and tag, so that the list shows the whole collection.  Two
    Escapes always end with the dialog closed and the whole collection
    shown. *)
Theorem escape_clears_the_filters (ctrl alt meta : bool) (tag : jsstring)
    (showShortcuts : bool) (p : Page) :
  let e := mkKeyEvent (str "Escape") ctrl alt meta tag in
  handleKeyDown e true p = (false, p, [])
  /\ fst (fst (handleKeyDown e false p)) = false
  /\ filteredTodos (snd (fst (handleKeyDown e false p))) = todos p
  /\ (let '(s1, p1, _) := handleKeyDown e showShortcuts p in
      let '(s2, p2, _) := handleKeyDown e s1 p1 in
      s2 = false /\ filteredTodos p2 = todos p).
Proof.
  simpl. split; [reflexivity|]. split; [reflexivity|].
  split; [apply cleared_view|].
  destruct showShortcuts; simpl; (split; [reflexivity|apply cleared_view]).
Qed.

Lemma filter_partition_length {T} (f : T -> bool) (l : list T) :
  length (List.filter f l) + length (List.filter (fun x => negb (f x)) l)
  = length l.
Proof.
  induction l as [|x l IH]; simpl; [reflexivity|].
  destruct (f x); simpl; lia.
Qed.

(** X13: the three counters are the lengths of the three tabs when no
    search and no tag is set: total for All, [activeCount] for Active,
    [completedCount] for Completed; and active and completed add up to
    the total. *)
Theorem counters_match_the_tabs (p : Page) :
  shown (mkPage (todos p) all [] None) = totalCount p
  /\ shown (mkPage (todos p) active [] None) = activeCount p
  /\ shown (mkPage (todos p) completed [] None) = completedCount p
  /\ activeCount p + completedCount p = totalCount p.
Proof.
  unfold shown, activeCount, totalCount, completedCount, filteredTodos.
  simpl. destruct (todos p) as [l|]; [|auto].
  pose proof (filter_partition_length Todo.completed l) as H.
  assert (A : List.filter (keeps (mkPage (Some l) active [] None)) l
              = List.filter (fun t => negb (Todo.completed t)) l).
  { apply filter_ext. intros t. unfold keeps. simpl.
    now destruct (Todo.completed t). }
  assert (C : List.filter (keeps (mkPage (Some l) completed [] None)) l
              = List.filter Todo.completed l).
  { apply filter_ext. intros t. unfold keeps. simpl.
    now destruct (Todo.completed t). }
  rewrite A, C, filter_all by reflexivity. repeat split; lia.
Qed.

End Pipeline.

(* ===================================================================== *)
(** * The tag list *)
(* ===================================================================== *)

Section Tags.

Import TodoPage.
Context {Eng : Engine}.

Lemma compareUnits_zero (a b : jsstring) :
  compareUnits a b = 0%Z <-> a = b.
Proof.
  revert b. induction a as [|x a IH]; intros [|y b]; simpl; try easy.
  destruct (N.ltb_spec x y) as [L|L]; [split; [easy|intros E; inversion E; lia]|].
  destruct (N.ltb_spec y x) as [G|G]; [split; [easy|intros E; inversion E; lia]|].
  assert (x = y) by lia. subst y. rewrite IH.
  split; [now intros ->|now intros E; inversion E].
Qed.

Lemma compareUnits_flip (a b : jsstring) :
  (0 < compareUnits a b)%Z -> (compareUnits b a <= 0)%Z.
Proof.
  revert b. induction a as [|x a IH]; intros [|y b]; simpl; try lia.
  destruct (N.ltb_spec x y) as [L|L]; [lia|].
  destruct (N.ltb_spec y x) as [G|G]; [lia|].
  apply IH.
Qed.

Lemma compareUnits_trans (a b c : jsstring) :
  (compareUnits a b <= 0)%Z -> (compareUnits b c <= 0)%Z ->
  (compareUnits a c <= 0)%Z.
Proof.
  revert b c.
  induction a as [|x a IH]; intros [|y b] [|z c]; simpl; try lia.
  destruct (N.ltb_spec x y) as [L1|L1].
  - intros _. destruct (N.ltb_spec y z) as [L2|L2].
    + intros _. destruct (N.ltb_spec x z); lia.
    + destruct (N.ltb_spec z y) as [G2|G2]; [lia|]. intros _.
      destruct (N.ltb_spec x z); lia.
  - destruct (N.ltb_spec y x) as [G1|G1]; [lia|].
    assert (x = y) by lia. subst y. intros Hab.
    destruct (N.ltb_spec x z) as [L2|L2]; [lia|].
    destruct (N.ltb_spec z x) as [G2|G2]; [lia|].
    now apply IH.
Qed.

Lemma uniq_In (x : jsstring) (l : list jsstring) :
  In x (uniq l) <-> In x l.
Proof.
  induction l as [|y l IH]; simpl; [reflexivity|].
  rewrite filter_In, IH, negb_true_iff, streq_neq.
  destruct (streq x y) eqn:E.
  - apply streq_eq in E. subst. tauto.
  - apply streq_neq in E. split; [tauto|].
    intros [->|H]; [now left|]. right. now split.
Qed.

Lemma uniq_NoDup (l : list jsstring) : NoDup (uniq l).
Proof.
  induction l as [|y l IH]; simpl; constructor.
  - rewrite filter_In, negb_true_iff, streq_neq. tauto.
  - now apply NoDup_filter.
Qed.

Lemma strictly_sorted {T} (le lt : T -> T -> Prop) (l : list T) :
  (forall x y, le x y -> x <> y -> lt x y) ->
  StronglySorted le l -> NoDup l -> StronglySorted lt l.
Proof.
  intros Hlt. induction l as [|x l IH]; intros S D; [constructor|].
  apply StronglySorted_inv in S as [Sl Sx]. inversion D as [|? ? Nx Dl]; subst.
  constructor; [now apply IH|].
  rewrite Forall_forall in *. intros y Hy.
  apply Hlt; [now apply Sx|]. intros ->. contradiction.
Qed.

Lemma nonEmpty_true (s : jsstring) : nonEmpty s = true <-> s <> [].
Proof. unfold nonEmpty. now rewrite negb_true_iff, streq_neq. Qed.

Lemma allTags_In (p : Page) (tag : jsstring) :
  In tag (allTags p)
  <-> tag <> []
      /\ exists t, In t (orElse (todos p) [])
                   /\ In tag (orElse (Todo.tags t) []).
Proof.
  unfold allTags.
  rewrite (Permutation_in' (eq_refl tag) (sort_perm compareUnits _)).
  rewrite uniq_In, filter_In, in_flat_map, nonEmpty_true. tauto.
Qed.

(** X14: the tag list holds exactly the non-empty tags that some record
    of the collection carries, each of them once, in ascending order of
    code units. *)
Theorem allTags_listing (p : Page) :
  (forall tag,
      In tag (allTags p)
      <-> tag <> []
          /\ exists t, In t (orElse (todos p) [])
                       /\ In tag (orElse (Todo.tags t) []))
  /\ NoDup (allTags p)
  /\ StronglySorted (fun a b => (compareUnits a b < 0)%Z) (allTags p).
Proof.
  unfold allTags.
  set (raw := List.filter nonEmpty
                (flat_map (fun t => orElse (Todo.tags t) [])
                          (orElse (todos p) []))).
  assert (D : NoDup (sort compareUnits (uniq raw))).
  { eapply Permutation_NoDup; [symmetry; apply sort_perm|apply uniq_NoDup]. }
  split; [|split; [exact D|]].
  - intros tag. apply allTags_In.
  - apply (@strictly_sorted _ (fun a b => (compareUnits a b <= 0)%Z));
      [| |exact D].
    + intros x y L N.
      assert (compareUnits x y <> 0%Z) by now rewrite compareUnits_zero.
      lia.
    + apply sort_sorted.
      * intros x y z. apply compareUnits_trans.
      * intros x y. split; [tauto|apply compareUnits_flip].
Qed.

Lemma existsb_streq (tag : jsstring) (tags : list jsstring) :
  existsb (streq tag) tags = true <-> In tag tags.
Proof.
  rewrite existsb_exists. split.
  - intros [x [Hx E]]. apply streq_eq in E. now subst.
  - intros H. exists tag. split; [exact H|apply streq_refl].
Qed.

(** X15: a click on a tag of the list, with the All tab and no search,
    shows at least one record, and shows exactly the records that
    carry the tag. *)
Theorem listed_tag_selects_records (p : Page) (tag : jsstring)
    (H : In tag (allTags p)) :
  let view := clickTag tag (mkPage (todos p) all [] None) in
  exists l, todos p = Some l
    /\ filteredTodos view
       = Some (List.filter
                 (fun t => existsb (streq tag) (orElse (Todo.tags t) [])) l)
    /\ List.filter
         (fun t => existsb (streq tag) (orElse (Todo.tags t) [])) l <> [].
Proof.
  apply allTags_In in H as [Ne [t [Ht Hin]]].
  unfold filteredTodos. simpl.
  destruct (todos p) as [l|]; [|contradiction].
  simpl in Ht. exists l. split; [reflexivity|].
  assert (K : forall t,
             keeps (mkPage (Some l) all [] (Some tag)) t
             = existsb (streq tag) (orElse (Todo.tags t) [])).
  { intros u. unfold keeps, searchPasses, tagPasses. simpl.
    apply nonEmpty_true in Ne. rewrite Ne. simpl.
    destruct (Todo.tags u) as [tags|]; simpl; [|reflexivity].
    now destruct (existsb (streq tag) tags). }
  split; [f_equal; apply filter_ext; exact K|].
  intros E.
  assert (In t (List.filter
                  (fun t => existsb (streq tag) (orElse (Todo.tags t) [])) l)).
  { apply filter_In. split; [exact Ht|]. now apply existsb_streq. }
  rewrite E in *. contradiction.
Qed.
End Tags.

Section TagsEvaluated.

Import TodoPage.

(** On a collection with the tags work, home and work again. *)
Lemma listed_tag_selects_records_witness :
  let tagged id tags :=
    Todo.mk id (str "t") false (str "2024-06-01T00:00:00Z") Sample.owner
            None false false (Some tags) 0%Z in
  let l := [tagged Sample.idA [str "work"; str "home"];
            tagged Sample.idB [str "work"]] in
  let p := mkPage (Some l) completed (str "x") None in
  allTags p = [str "home"; str "work"]
  /\ exists l', todos p = Some l'
       /\ filteredTodos (clickTag (str "home") (mkPage (todos p) all [] None))
          = Some (List.filter
                    (fun t => existsb (streq (str "home"))
                                      (orElse (Todo.tags t) [])) l')
       /\ List.filter
            (fun t => existsb (streq (str "home"))
                              (orElse (Todo.tags t) [])) l' <> [].
Proof.
  cbv zeta. split; [vm_compute; reflexivity|].
  apply (@listed_tag_selects_records Sample.engine
           (mkPage (Some [Todo.mk Sample.idA (str "t") false
                            (str "2024-06-01T00:00:00Z") Sample.owner
                            None false false
                            (Some [str "work"; str "home"]) 0%Z;
                          Todo.mk Sample.idB (str "t") false
                            (str "2024-06-01T00:00:00Z") Sample.owner
                            None false false (Some [str "work"]) 0%Z])
                   completed (str "x") None)
           (str "home")).
  vm_compute. auto.
Defined.

End TagsEvaluated.

(* ===================================================================== *)
(** * The form *)
(* ===================================================================== *)

Section TextFacts.

Variable white : N -> bool.

Lemma dropStart_incl (s : jsstring) (c : N) :
  In c (dropStart white s) -> In c s.
Proof.
  induction s as [|x s IH]; simpl; [tauto|].
  destruct (white x); simpl; tauto.
Qed.

Lemma dropEnd_incl (s : jsstring) (c : N) :
  In c (dropEnd white s) -> In c s.
Proof.
  unfold dropEnd. rewrite <- in_rev. intros H.
  apply dropStart_incl in H. now apply in_rev.
Qed.

Lemma dropStart_length (s : jsstring) :
  length (dropStart white s) <= length s.
Proof.
  induction s as [|x s IH]; simpl; [lia|].
  destruct (white x); simpl; lia.
Qed.

Lemma dropEnd_length (s : jsstring) :
  length (dropEnd white s) <= length s.
Proof.
  unfold dropEnd. rewrite length_rev.
  etransitivity; [apply dropStart_length|]. now rewrite length_rev.
Qed.

Lemma dropStart_twice (s : jsstring) :
  dropStart white (dropStart white s) = dropStart white s.
Proof.
  induction s as [|x s IH]; simpl; [reflexivity|].
  destruct (white x) eqn:Hx; [exact IH|]. simpl. now rewrite Hx.
Qed.

Lemma dropEnd_twice (s : jsstring) :
  dropEnd white (dropEnd white s) = dropEnd white s.
Proof.
  unfold dropEnd. now rewrite rev_involutive, dropStart_twice.
Qed.

End TextFacts.

Section FormFacts.

Import TodoPage.

Lemma trim_twice (s : jsstring) : trim (trim s) = trim s.
Proof.
  unfold trim, trimEnd, trimStart.
  now rewrite dropStart_dropped, dropEnd_twice.
Qed.

Lemma trim_incl (s : jsstring) (c : N) : In c (trim s) -> In c s.
Proof.
  unfold trim, trimEnd, trimStart. intros H.
  now apply dropEnd_incl, dropStart_incl in H.
Qed.

Lemma trim_length (s : jsstring) : length (trim s) <= length s.
Proof.
  unfold trim, trimEnd, trimStart.
  etransitivity; [apply dropEnd_length|apply dropStart_length].
Qed.

(** No piece of a split holds the separator. *)
Lemma split_pieces (sep : N) (s piece : jsstring) :
  In piece (split sep s) -> ~ In sep piece.
Proof.
  revert piece. induction s as [|c s IH]; simpl; intros piece.
  - intros [<-|[]]. tauto.
  - destruct (N.eqb_spec c sep) as [->|Hc].
    + intros [<-|H]; [tauto|now apply IH].
    + destruct (split sep s) as [|p ps] eqn:E.
      * intros [<-|[]]. simpl. intros [?|[]]. congruence.
      * intros [<-|H].
        -- simpl. intros [?|H]; [congruence|].
           revert H. apply IH. now left.
        -- apply IH. now right.
Qed.

Lemma split_plain (sep : N) (x : jsstring) :
  ~ In sep x -> split sep x = [x].
Proof.
  induction x as [|c x IH]; simpl; [reflexivity|]. intros H.
  destruct (N.eqb_spec c sep) as [->|Hc]; [tauto|].
  rewrite IH by tauto. reflexivity.
Qed.

Lemma split_app (sep : N) (x s : jsstring) :
  ~ In sep x -> split sep (x ++ sep :: s) = x :: split sep s.
Proof.
  induction x as [|c x IH]; simpl; intros H.
  - now rewrite N.eqb_refl.
  - destruct (N.eqb_spec c sep) as [->|Hc]; [tauto|].
    rewrite IH by tauto. reflexivity.
Qed.

(** Splitting undoes joining, for pieces without the separator. *)
Lemma split_join (sep : N) (pieces : list jsstring) :
  pieces <> [] -> Forall (fun x => ~ In sep x) pieces ->
  split sep (join [sep] pieces) = pieces.
Proof.
  induction pieces as [|x l IH]; [congruence|]. intros _ H.
  inversion H as [|? ? Hx Hl]; subst.
  destruct l as [|y l]; [now apply split_plain|].
  change (join [sep] (x :: y :: l)) with (x ++ sep :: join [sep] (y :: l)).
  rewrite split_app by assumption. f_equal. now apply IH.
Qed.

Lemma formTags_tidy (tags : option jsstring) : Forall tidy (formTags tags).
Proof.
  destruct tags as [[|c s]|]; try (now constructor). unfold formTags.
  apply Forall_forall. intros tag H.
  apply filter_In in H as [H Ne]. apply in_map_iff in H as [x [<- Hx]].
  split; [now apply nonEmpty_true|]. split; [apply trim_twice|].
  intros C. apply trim_incl in C. exact (split_pieces _ _ _ Hx C).
Qed.

(** X16: the tags the form hands on are the pieces between the commas
    of the tags field, each trimmed, the empty ones left out: every one
    of them is non-empty, has no white space around it and holds no
    comma; and a field written as comma-free pieces joined by commas
    gives those pieces back, trimmed, without the blank ones. *)
Theorem formTags_are_the_trimmed_pieces :
  (forall tags, Forall tidy (formTags tags))
  /\ (forall pieces,
         Forall (fun x => ~ In 44%N x) pieces ->
         formTags (Some (join [44%N] pieces))
         = List.filter nonEmpty (map trim pieces)).
Proof.
  split.
  - apply formTags_tidy.
  - intros pieces H. destruct pieces as [|x l]; [reflexivity|].
    unfold formTags.
    destruct (join [44%N] (x :: l)) as [|c s] eqn:E.
    + destruct l as [|y l]; simpl in E.
      * subst x. reflexivity.
      * now destruct x.
    + rewrite <- E, split_join; [reflexivity|discriminate|exact H].
Qed.

Context {P : Api.Platform}.

(** X17: a submitted form with a signed-in user, a title of 1 to 200
    units and a gateway that answers its two requests.  When the date
    field is empty or holds a text that the column takes, the call
    returns normally and adds one row: the trimmed title, the tidy tags
    of the tags field, the reminder as ticked, and as due date NULL for
    an empty field and else the timestamp that the column reads from
    the field.  When the date field holds a text that the column does
    not take, the call throws the gateway's error and the table is as
    it was. *)
Theorem onSubmit_record (data : TodoFormData.t) (r : Api.Remote)
    (u : jsstring) :
  Api.user r = Some u -> Api.title_ok (TodoFormData.title data) = true ->
  Api.failure r Api.AuthGetUser = None ->
  Api.failure (Api.received Api.AuthGetUser r) (insertOf (submitted data) u)
  = None ->
  if Api.accepted (dueSent (submitted data))
  then
    exists row,
      onSubmit data r
      = (Ok tt,
         Api.mkRemote (Api.rows r ++ [row]) (Api.user r) (S (Api.inserted r))
           (Api.wire r ++ [Api.AuthGetUser; insertOf (submitted data) u]))
      /\ Row.title row = trim (TodoFormData.title data)
      /\ Row.tags row = Some (map Some (formTags (TodoFormData.tags data)))
      /\ Forall tidy (formTags (TodoFormData.tags data))
      /\ Row.due_at row = Api.due (dueSent (submitted data))
      /\ (Row.due_at row = None <->
          TodoFormData.due_at data = None
          \/ TodoFormData.due_at data = Some [])
      /\ Row.remind row = Some (orElse (TodoFormData.remind data) false)
  else
    onSubmit data r
    = (Throw PostgrestError,
       Api.mkRemote (Api.rows r) (Api.user r) (Api.inserted r)
         (Api.wire r ++ [Api.AuthGetUser; insertOf (submitted data) u])).
Proof.
  intros Hu Ht Ha Hi.
  change (onSubmit data) with (Api.createTodo (submitted data)).
  rewrite (createTodo_run (submitted data) r Hu Ht), Ha, Hi.
  destruct (Api.accepted (dueSent (submitted data))) eqn:Hd.
  - exists (newRow (submitted data) u r).
    split; [reflexivity|]. split; [reflexivity|]. split; [reflexivity|].
    split; [apply formTags_tidy|]. split; [reflexivity|].
    split; [|reflexivity].
    unfold newRow. cbn [Row.due_at]. rewrite (due_none _ Hd).
    unfold dueSent, submitted. cbn [CreateTodoInput.due_at].
    destruct (TodoFormData.due_at data) as [[|c s]|]; split;
      auto; try discriminate; intros [H|H]; discriminate.
  - unfold Api.received. simpl. now rewrite <- app_assoc.
Qed.

End FormFacts.

(** A form with a padded title, tags with blanks and a date. *)
Lemma onSubmit_record_witness :
  let data :=
    TodoPage.TodoFormData.mk (str " Buy milk ") (Some (str "2024-06-02"))
      None (Some (str "home, ,errands ,")) in
  let r := Sample.remote [] in
  Api.accepted (dueSent (submitted data)) = true
  /\ exists row,
       TodoPage.onSubmit data r
       = (Ok tt,
          Api.mkRemote (Api.rows r ++ [row]) (Api.user r)
            (S (Api.inserted r))
            (Api.wire r
             ++ [Api.AuthGetUser; insertOf (submitted data) Sample.owner]))
       /\ Row.title row = str "Buy milk"
       /\ Row.tags row = Some [Some (str "home"); Some (str "errands")]
       /\ Row.due_at row = Some (str "2024-06-02T00:00:00+00:00").
Proof.
  cbv zeta. split; [reflexivity|].
  pose proof (@onSubmit_record Sample.platform
                (TodoPage.TodoFormData.mk (str " Buy milk ")
                   (Some (str "2024-06-02")) None
                   (Some (str "home, ,errands ,")))
                (Sample.remote []) Sample.owner
                eq_refl eq_refl eq_refl eq_refl) as H.
  change (Api.accepted _) with true in H. cbv iota in H.
  destruct H as (row & E & Ht & Hg & _ & Hd & _).
  exists row. split; [exact E|]. split; [exact Ht|].
  split; [rewrite Hg; vm_compute; reflexivity|exact Hd].
Defined.

(** The same form with a date field that is no date. *)
Example onSubmit_next_week :
  fst (TodoPage.onSubmit
         (TodoPage.TodoFormData.mk (str "Buy milk") (Some (str "next week"))
                                   None None)
         (Sample.remote []))
  = Throw PostgrestError.
Proof. reflexivity. Qed.

(* ===================================================================== *)
(** * Adding with the assistant *)
(* ===================================================================== *)

Section AiAdd.

Import Api TodoPage.
Context {P : Platform}.

Lemma title_ok_trimmed (s : jsstring) :
  title_ok s = true -> length (trim s) <= 200.
Proof.
  unfold title_ok. intros H. apply andb_true_iff in H as [_ H].
  apply Nat.leb_le in H. pose proof (trim_length s). lia.
Qed.

(** [createTodo] when the gateway answers every request. *)
Lemma createTodo_answered (input : CreateTodoInput.t) (r : Remote)
    (u : jsstring) :
  (forall r' q, failure r' q = None) ->
  user r = Some u -> CreateTodoSchema input = true ->
  createTodo input r
  = if accepted (dueSent input)
    then (Ok tt,
          mkRemote (rows r ++ [newRow input u r]) (user r) (S (inserted r))
                   (wire r ++ [AuthGetUser; insertOf input u]))
    else (Throw PostgrestError,
          mkRemote (rows r) (user r) (inserted r)
                   (wire r ++ [AuthGetUser; insertOf input u])).
Proof.
  intros Hq Hu Hs. rewrite (createTodo_run input r Hu Hs), !Hq.
  destruct (accepted (dueSent input)); [reflexivity|].
  unfold received. simpl. now rewrite <- app_assoc.
Qed.

(** X18: the assistant button, with a key, a signed-in user, a typed
    title that is 1 to 200 units long once trimmed, and a gateway that
    answers every request.  Whatever the assistant does, the call
    returns normally and exactly one row is added; it belongs to the
    user, is open, and its title has at most 200 units.  The row is the
    assistant's draft when the draft passes validation and the column
    takes its due date.  It is the typed title alone (no tags, no date,
    no reminder) when the assistant call or the decoding of its reply
    throws, when the reply has fields of the wrong type, when its title
    fails validation, and when the gateway refuses its due date; in
    this last case the refused insert was sent before. *)
Theorem handleAiParseAndAdd_adds_one (gemini : AiService.Service)
    (typed : jsstring) (r : Remote) (u : jsstring) :
  user r = Some u -> title_ok (trim typed) = true ->
  (forall r' q, failure r' q = None) ->
  let raw := trim typed in
  let plain := CreateTodoInput.mk raw None None None in
  exists row sent,
    handleAiParseAndAdd gemini true (Some typed) r
    = (Ok tt,
       mkRemote (rows r ++ [row]) (user r) (S (inserted r))
                (wire r ++ sent))
    /\ Row.user_id row = Some u /\ Row.completed row = Some false
    /\ length (Row.title row) <= 200
    /\ match fst (AiService.run gemini (AiService.parseNaturalLanguageTodo raw))
       with
       | Throw _ =>
           row = newRow plain u r /\ sent = [AuthGetUser; insertOf plain u]
       | Ok parsed =>
           match parsedInput parsed with
           | None =>
               row = newRow plain u r
               /\ sent = [AuthGetUser; insertOf plain u]
           | Some input =>
               if CreateTodoSchema input
               then if accepted (dueSent input)
                    then row = newRow input u r
                         /\ sent = [AuthGetUser; insertOf input u]
                    else row = newRow plain u r
                         /\ sent = [AuthGetUser; insertOf input u;
                                    AuthGetUser; insertOf plain u]
               else row = newRow plain u r
                    /\ sent = [AuthGetUser; insertOf plain u]
           end
       end.
Proof.
  intros Hu Ht Hq raw plain.
  assert (Hne : nonEmpty raw = true).
  { unfold title_ok in Ht. fold raw in Ht. destruct raw; [discriminate|].
    reflexivity. }
  assert (F : forall r0, user r0 = Some u ->
                createTodo plain r0
                = (Ok tt,
                   mkRemote (rows r0 ++ [newRow plain u r0]) (user r0)
                            (S (inserted r0))
                            (wire r0 ++ [AuthGetUser; insertOf plain u]))).
  { intros r0 H0. now rewrite (createTodo_answered plain r0 Hq H0 Ht). }
  assert (L : length (Row.title (newRow plain u r)) <= 200).
  { simpl. now apply title_ok_trimmed. }
  unfold handleAiParseAndAdd. fold raw. rewrite Hne.
  change (negb true || negb true) with false. cbv iota.
  unfold tryCatch, bind, await at 1. fold plain.
  destruct (fst (AiService.run gemini (AiService.parseNaturalLanguageTodo raw)))
    as [parsed|e] eqn:Erun; simpl fst; simpl snd; cbv iota beta.
  - destruct (parsedInput parsed) as [input|] eqn:Ein.
    + destruct (CreateTodoSchema input) eqn:Es.
      * rewrite (createTodo_answered input r Hq Hu Es).
        destruct (accepted (dueSent input)) eqn:Hd.
        -- exists (newRow input u r), [AuthGetUser; insertOf input u].
           repeat split. simpl. now apply title_ok_trimmed.
        -- rewrite F by exact Hu. cbn [rows user inserted wire].
           exists (newRow plain u r),
             [AuthGetUser; insertOf input u; AuthGetUser; insertOf plain u].
           rewrite <- app_assoc. repeat split. exact L.
      * rewrite (proj1 (validated_calls_reject_before_io r) input Es).
        rewrite F by exact Hu.
        exists (newRow plain u r), [AuthGetUser; insertOf plain u].
        repeat split. exact L.
    + unfold throw. rewrite F by exact Hu.
      exists (newRow plain u r), [AuthGetUser; insertOf plain u].
      repeat split. exact L.
  - rewrite F by exact Hu.
    exists (newRow plain u r), [AuthGetUser; insertOf plain u].
    repeat split. exact L.
Qed.

End AiAdd.

(** The assistant sends a due date that is no date: the gateway refuses
    the draft, and the typed title is added as it is. *)
Lemma handleAiParseAndAdd_adds_one_witness :
  let gemini : AiService.Service :=
    fun _ _ =>
      Ok (quoted "{'title': 'Call mom', 'tags': [], 'due_at': 'next week'}")
  in
  let typed := str "  call mom tomorrow " in
  let r := Sample.remote Sample.collection in
  let draft :=
    CreateTodoInput.mk (str "Call mom") (Some (Some (str "next week")))
                       (Some false) (Some []) in
  let plain := CreateTodoInput.mk (trim typed) None None None in
  Api.user r = Some Sample.owner
  /\ Api.title_ok (trim typed) = true
  /\ map Row.title
         (Api.rows (snd (TodoPage.handleAiParseAndAdd gemini true
                           (Some typed) r)))
     = [str "A"; str "B"; str "D"; str "call mom tomorrow"]
  /\ Api.wire (snd (TodoPage.handleAiParseAndAdd gemini true (Some typed) r))
     = [Api.AuthGetUser; insertOf draft Sample.owner;
        Api.AuthGetUser; insertOf plain Sample.owner]
  /\ exists row sent,
       TodoPage.handleAiParseAndAdd gemini true (Some typed) r
       = (Ok tt,
          Api.mkRemote (Api.rows r ++ [row]) (Api.user r)
                       (S (Api.inserted r)) (Api.wire r ++ sent))
       /\ Row.user_id row = Some Sample.owner
       /\ Row.completed row = Some false
       /\ length (Row.title row) <= 200.
Proof.
  cbv zeta. split; [reflexivity|]. split; [reflexivity|].
  split; [vm_compute; reflexivity|]. split; [vm_compute; reflexivity|].
  destruct (@handleAiParseAndAdd_adds_one Sample.platform
              (fun _ _ =>
                 Ok (quoted "{'title': 'Call mom', 'tags': [], 'due_at': 'next week'}"))
              (str "  call mom tomorrow ")
              (Sample.remote Sample.collection) Sample.owner
              eq_refl eq_refl (fun _ _ => eq_refl))
    as (row & sent & E & Hu & Hc & Hl & _).
  exists row, sent. split; [exact E|]. split; [exact Hu|].
  split; [exact Hc|exact Hl].
Defined.

(* ===================================================================== *)
(** * The plan merge: a proper ranking, a malformed id *)
(* ===================================================================== *)

Section PlanRanking.

Import Api TodoPage.

Lemma seq_strictly_sorted (a n : nat) :
  StronglySorted Z.lt (map Z.of_nat (seq a n)).
Proof.
  revert a. induction n as [|n IH]; intros a; simpl; constructor.
  - apply IH.
  - apply Forall_forall. intros z H. apply in_map_iff in H as [i [<- Hi]].
    apply in_seq in Hi. lia.
Qed.

Lemma sorted_map {T} (key : T -> Z) (l : list T) :
  StronglySorted (fun a b => (key a <= key b)%Z) l ->
  StronglySorted Z.le (map key l).
Proof.
  induction 1 as [|x l S IH F]; simpl; constructor; [exact IH|].
  rewrite Forall_forall in *. intros z H.
  apply in_map_iff in H as [y [<- Hy]]. now apply F.
Qed.

Lemma plan_updates (items : list OptimizedItem.t)
    (updates : list PlanUpdate.t) :
  AIPanel.handleApplyOptimize (Some items) = Some updates ->
  map PlanUpdate.id updates = map OptimizedItem.id items
  /\ map (fun u => orElse (PlanUpdate.order u) 0%Z) updates
     = map (fun i => (OptimizedItem.suggested_order i - 1)%Z) items
  /\ forallb suggests updates = true
  /\ (forall i, In i items ->
        exists u, In u updates
                  /\ PlanUpdate.id u = OptimizedItem.id i
                  /\ orElse (PlanUpdate.order u) 0%Z
                     = (OptimizedItem.suggested_order i - 1)%Z).
Proof.
  destruct items as [|i items]; [discriminate|].
  unfold AIPanel.handleApplyOptimize. intros [= <-].
  split; [|split; [|split]];
    [| | |intros x [<-|Hx];
          [eexists; split; [left; reflexivity|split; reflexivity]
          |eexists; split; [right; apply in_map; exact Hx
                           |split; reflexivity]]].
  - simpl. f_equal. now rewrite map_map.
  - simpl. f_equal. now rewrite map_map.
  - apply forallb_forall. intros u [<-|H].
    + unfold suggests. simpl. apply orb_true_r.
    + apply in_map_iff in H as [x [<- _]].
      unfold suggests. simpl. apply orb_true_r.
Qed.

Lemma ranked_plan_sorts (items : list OptimizedItem.t)
    (updates : list PlanUpdate.t) :
  AIPanel.handleApplyOptimize (Some items) = Some updates ->
  Permutation (map OptimizedItem.suggested_order items)
              (ranks (length items)) ->
  map (fun u => orElse (PlanUpdate.order u) 0%Z) (sort byOrder updates)
  = map Z.of_nat (seq 0 (length updates)).
Proof.
  intros Hu Hp. destruct (plan_updates _ Hu) as (Hid & Ho & _).
  assert (Hlen : length updates = length items).
  { now rewrite <- (length_map PlanUpdate.id), Hid, length_map. }
  apply sorted_perm_eq.
  - apply sorted_map.
    apply (@sort_sorted _ byOrder
             (fun a b => (orElse (PlanUpdate.order a) 0
                          <= orElse (PlanUpdate.order b) 0)%Z)).
    + intros x y z. lia.
    + intros x y. unfold byOrder. cbv beta. split; intros; lia.
  - apply seq_strictly_sorted.
  - rewrite (Permutation_map _ (sort_perm byOrder updates)), Ho, Hlen.
    apply (Permutation_map (fun z => (z - 1)%Z)) in Hp.
    rewrite map_map in Hp. rewrite Hp. unfold ranks.
    rewrite <- seq_shift, !map_map.
    rewrite (map_ext _ Z.of_nat); [reflexivity|intros i; lia].
Qed.

(** X19: when the plan ranks its k items 1..k, each rank once, the
    merge gives every plan item the order of its rank less one and
    numbers the completed records after them: the orders written are
    exactly 0..k+m-1, in that sequence, and each id is written with its
    own rank less one. *)
Theorem plan_merge_of_a_ranking (todos : list Todo.t)
    (items : list OptimizedItem.t) (updates : list PlanUpdate.t) :
  AIPanel.handleApplyOptimize (Some items) = Some updates ->
  Permutation (map OptimizedItem.suggested_order items)
              (ranks (length items)) ->
  map OrderUpdate.order (orderUpdates todos updates)
  = map Z.of_nat
        (seq 0 (length items + length (List.filter Todo.completed todos)))
  /\ (forall i, In i items ->
        In (OrderUpdate.mk (OptimizedItem.id i)
                           (OptimizedItem.suggested_order i - 1))
           (firstn (length items) (orderUpdates todos updates)))
  /\ map OrderUpdate.id (skipn (length items) (orderUpdates todos updates))
     = map Todo.id (List.filter Todo.completed todos).
Proof.
  intros Hu Hp. pose proof (ranked_plan_sorts _ Hu Hp) as Hs.
  destruct (plan_updates _ Hu) as (Hid & Ho & _ & Hin).
  assert (Hlen : length updates = length items).
  { now rewrite <- (length_map PlanUpdate.id), Hid, length_map. }
  split; [|split].
  - rewrite <- Hlen. now apply orderUpdates_contiguous_when_ranked.
  - intros i Hi. unfold orderUpdates.
    set (front := map _ (sort byOrder updates)).
    assert (Lf : length front = length items).
    { unfold front. rewrite length_map, <- Hlen.
      apply Permutation_length, sort_perm. }
    rewrite <- Lf, firstn_app, firstn_all, Nat.sub_diag, firstn_O, app_nil_r.
    unfold front. apply in_map_iff.
    destruct (Hin i Hi) as (v & Hv & Ev1 & Ev2).
    exists v. rewrite Ev1, Ev2. split; [reflexivity|].
    eapply Permutation_in; [symmetry; apply sort_perm|exact Hv].
  - unfold orderUpdates.
    set (front := map _ (sort byOrder updates)).
    assert (Lf : length front = length items).
    { unfold front. rewrite length_map, <- Hlen.
      apply Permutation_length, sort_perm. }
    rewrite <- Lf, skipn_app, skipn_all, Nat.sub_diag. simpl.
    unfold mapi. now rewrite (mapi_from_ids _ (fun id => id)), map_id.
Qed.

Context {P : Platform}.





End PlanRanking.

(** A plan in reverse order of the list: B first, then A. *)
Lemma plan_merge_of_a_ranking_witness :
  let items := [Sample.item Sample.idA 2; Sample.item Sample.idB 1] in
  exists updates,
    AIPanel.handleApplyOptimize (Some items) = Some updates
    /\ Permutation (map OptimizedItem.suggested_order items)
                   (ranks (length items))
    /\ TodoPage.orderUpdates Sample.collection updates
       = [OrderUpdate.mk Sample.idB 0; OrderUpdate.mk Sample.idA 1;
          OrderUpdate.mk Sample.idD 2]
    /\ map OrderUpdate.order (TodoPage.orderUpdates Sample.collection updates)
       = map Z.of_nat
           (seq 0 (length items
                   + length (List.filter Todo.completed Sample.collection)))
    /\ (forall i, In i items ->
          In (OrderUpdate.mk (OptimizedItem.id i)
                             (OptimizedItem.suggested_order i - 1))
             (firstn (length items)
                     (TodoPage.orderUpdates Sample.collection updates)))
    /\ map OrderUpdate.id
           (skipn (length items)
                  (TodoPage.orderUpdates Sample.collection updates))
       = map Todo.id (List.filter Todo.completed Sample.collection).
Proof.
  cbv zeta. eexists. split; [reflexivity|].
  assert (Hp : Permutation
                 (map OptimizedItem.suggested_order
                      [Sample.item Sample.idA 2; Sample.item Sample.idB 1])
                 (ranks 2)) by apply perm_swap.
  split; [exact Hp|]. split; [reflexivity|].
  exact (@plan_merge_of_a_ranking Sample.collection
           [Sample.item Sample.idA 2; Sample.item Sample.idB 1] _
           eq_refl Hp).
Defined.


(** The same plan, its first item suggesting a due date that is no date:
    the gateway refuses that write, and its error is what is thrown. *)
Example plan_with_a_refused_date :
  let a := PlanUpdate.mk Sample.idA (Some 0%Z)
             (Some (Some (str "next week"))) (Some true) in
  let bad := PlanUpdate.mk (str "Buy milk") (Some 1%Z) None (Some true) in
  let b := PlanUpdate.mk Sample.idB (Some 2%Z) None (Some true) in
  let p := Sample.page Sample.collection in
  let r := Sample.remote Sample.collection in
  fst (TodoPage.handleApplyOptimize p [b; bad; a] r) = Throw PostgrestError
  /\ Api.wire (snd (TodoPage.handleApplyOptimize p [b; bad; a] r))
     = map orderWrite (TodoPage.orderUpdates Sample.collection [b; bad; a])
       ++ [suggestionWrite a].
Proof. vm_compute. split; reflexivity. Qed.

(* ===================================================================== *)
(** * The assistant's service functions: what they return *)
(* ===================================================================== *)

Section Replies.

Import AiService.

(** X21: in the single-task parse path, for a decoded object, what the
    service sent is kept when it is usable: a truthy title, tags that
    are an array and a truthy due date come back as sent, each on its
    own.  The title of the result is truthy unless the user's input was
    empty, and its due date is null or truthy.  The service is called
    once, in JSON mode. *)
Theorem sent_fields_are_kept (gemini : Service) (userInput text : jsstring)
    (members : list (jsstring * value)) :
  gemini (getParseTodoPrompt userInput) true = Ok text ->
  parseJson text = Ok (JObject members) ->
  exists draft,
    run gemini (parseNaturalLanguageTodo userInput)
    = (Ok draft, [(getParseTodoPrompt userInput, true)])
    /\ (forall v, lookup (str "title") members = Some v ->
                  truthy (Some v) = true -> ParsedTodo.title draft = v)
    /\ (forall l, lookup (str "tags") members = Some (JArray l) ->
                  ParsedTodo.tags draft = l)
    /\ (forall v, lookup (str "due_at") members = Some v ->
                  truthy (Some v) = true -> ParsedTodo.due_at draft = v)
    /\ (truthy (Some (ParsedTodo.title draft)) = true \/ userInput = [])
    /\ (ParsedTodo.due_at draft = JNull
        \/ truthy (Some (ParsedTodo.due_at draft)) = true).
Proof.
  intros Hg Hp. unfold parseNaturalLanguageTodo. simpl run.
  rewrite Hg. simpl run. rewrite Hp. unfold fallbacks, prop.
  eexists. split; [reflexivity|].
  cbn [ParsedTodo.title ParsedTodo.tags ParsedTodo.due_at].
  split; [|split; [|split; [|split]]].
  - intros v E T. rewrite E, T.
    now destruct (isArray (Some v)), (isArray (lookup (str "tags") members)).
  - intros l E. rewrite E.
    now destruct (truthy (lookup (str "title") members)).
  - intros v E T. now rewrite E, T.
  - destruct (lookup (str "title") members) as [v|] eqn:E.
    + destruct (truthy (Some v)) eqn:T.
      * left.
        now destruct (isArray (lookup (str "tags") members)).
      * cbn [negb orb orElse].
        destruct userInput as [|c s]; [now right|now left].
    + cbn [truthy negb orb orElse].
      destruct userInput as [|c s]; [now right|now left].
  - destruct (truthy (lookup (str "due_at") members)) eqn:T; [|now left].
    right. destruct (lookup (str "due_at") members); [exact T|discriminate].
Qed.

Lemma sent_fields_are_kept_witness :
  let reply :=
    quoted "{'title': 'Call mom', 'tags': ['family'], 'due_at': '2024-06-02'}"
  in
  let gemini : Service := fun _ _ => Ok reply in
  let userInput := str "call mom tomorrow" in
  fst (run gemini (parseNaturalLanguageTodo userInput))
  = Ok (ParsedTodo.mk (JString (str "Call mom")) [JString (str "family")]
                      (JString (str "2024-06-02")) false)
  /\ exists members draft,
       parseJson reply = Ok (JObject members)
       /\ run gemini (parseNaturalLanguageTodo userInput)
          = (Ok draft, [(getParseTodoPrompt userInput, true)])
       /\ (forall v, lookup (str "title") members = Some v ->
                     truthy (Some v) = true -> ParsedTodo.title draft = v)
       /\ (forall l, lookup (str "tags") members = Some (JArray l) ->
                     ParsedTodo.tags draft = l)
       /\ (forall v, lookup (str "due_at") members = Some v ->
                     truthy (Some v) = true -> ParsedTodo.due_at draft = v)
       /\ (truthy (Some (ParsedTodo.title draft)) = true \/ userInput = [])
       /\ (ParsedTodo.due_at draft = JNull
           \/ truthy (Some (ParsedTodo.due_at draft)) = true).
Proof.
  cbv zeta. split; [vm_compute; reflexivity|].
  exists [(str "title", JString (str "Call mom"));
          (str "tags", JArray [JString (str "family")]);
          (str "due_at", JString (str "2024-06-02"))].
  assert (Hp : parseJson
                 (quoted "{'title': 'Call mom', 'tags': ['family'], 'due_at': '2024-06-02'}")
               = Ok (JObject [(str "title", JString (str "Call mom"));
                              (str "tags", JArray [JString (str "family")]);
                              (str "due_at", JString (str "2024-06-02"))]))
    by (vm_compute; reflexivity).
  destruct (@sent_fields_are_kept
              (fun _ _ => Ok (quoted "{'title': 'Call mom', 'tags': ['family'], 'due_at': '2024-06-02'}"))
              (str "call mom tomorrow") _ _ eq_refl Hp) as (draft & H).
  exists draft. split; [exact Hp|exact H].
Defined.

(** X22: the other two service functions.  A brief comes back without
    white space around it; a plan always has a truthy summary; each of
    the three functions asks the generation service at most once, the
    parse and the plan in JSON mode and the brief in text mode; and
    when the service fails, its error is what the function throws. *)
Theorem service_results (gemini : Service) (todos : list Todo.t)
    (userInput : jsstring) :
  match fst (run gemini (getDailyBrief todos)) with
  | Ok text => trim text = text
  | Throw _ => True
  end
  /\ match fst (run gemini (getOptimizedPlan todos)) with
     | Ok plan => truthy (Some (OptimizedPlan.summary plan)) = true
     | Throw _ => True
     end
  /\ incl (snd (run gemini (getDailyBrief todos))) [(BRIEF_PROMPT todos, false)]
  /\ incl (snd (run gemini (getOptimizedPlan todos)))
          [(getOptimizePrompt todos, true)]
  /\ snd (run gemini (parseNaturalLanguageTodo userInput))
     = [(getParseTodoPrompt userInput, true)]
  /\ (forall e,
        gemini (BRIEF_PROMPT todos) false = Throw e -> todos <> [] ->
        fst (run gemini (getDailyBrief todos)) = Throw e)
  /\ (forall e,
        gemini (getOptimizePrompt todos) true = Throw e ->
        existsb (fun t => negb (Todo.completed t)) todos = true ->
        fst (run gemini (getOptimizedPlan todos)) = Throw e)
  /\ (forall e,
        gemini (getParseTodoPrompt userInput) true = Throw e ->
        fst (run gemini (parseNaturalLanguageTodo userInput)) = Throw e).
Proof.
  split; [|split; [|split; [|split; [|split; [|split; [|split]]]]]].
  - unfold getDailyBrief. destruct (Nat.eqb (length todos) 0).
    + vm_compute. reflexivity.
    + simpl. destruct (gemini (BRIEF_PROMPT todos) false); [|exact I].
      simpl. apply trim_twice.
  - unfold getOptimizedPlan.
    destruct (Nat.eqb _ 0); [reflexivity|]. simpl.
    destruct (gemini (getOptimizePrompt todos) true) as [text|]; [|exact I].
    simpl. destruct (parseJson text) as [plan|]; [|exact I].
    destruct plan as [| | | |items|members]; try exact I; [reflexivity|].
    unfold defaults, prop. cbn [OptimizedPlan.summary].
    destruct (truthy (lookup (str "summary") members)) eqn:T; [|reflexivity].
    destruct (lookup (str "summary") members); [exact T|discriminate].
  - unfold getDailyBrief. destruct (Nat.eqb (length todos) 0).
    + intros x [].
    + simpl. destruct (gemini (BRIEF_PROMPT todos) false); apply incl_refl.
  - unfold getOptimizedPlan. destruct (Nat.eqb _ 0).
    + intros x [].
    + simpl. destruct (gemini (getOptimizePrompt todos) true);
        apply incl_refl.
  - unfold parseNaturalLanguageTodo. simpl.
    now destruct (gemini (getParseTodoPrompt userInput) true).
  - intros e H Ne. unfold getDailyBrief.
    destruct todos; [congruence|]. simpl. now rewrite H.
  - intros e H Ne. unfold getOptimizedPlan.
    destruct (List.filter (fun t => negb (Todo.completed t)) todos)
      as [|t l] eqn:F.
    + exfalso. apply existsb_exists in Ne as [t [Ht Hc]].
      assert (In t (List.filter (fun t => negb (Todo.completed t)) todos))
        by (apply filter_In; now split).
      rewrite F in *. contradiction.
    + simpl. now rewrite H.
  - intros e H. unfold parseNaturalLanguageTodo. simpl. now rewrite H.
Qed.

(** The first unit of a JSON text is no backtick. *)
Lemma JSON_text_head (text : jsstring) (v : value) :
  JSON_parse text = Some v ->
  exists c rest, text = c :: rest /\ c <> 96%N.
Proof.
  intros H.
  destruct (JSON_text_shape _ H)
    as (lead & tail & a & r & p & b & E & Hl & Ht & Ea & Ha & Eb & Hb).
  rewrite Ea in E. destruct lead as [|x lead].
  - exists a, (r ++ tail). split; [exact E|]. now destruct Ha.
  - exists x, (lead ++ (a :: r) ++ tail). split; [exact E|].
    simpl in Hl. apply andb_true_iff in Hl as [Hx _]. intros ->. discriminate.
Qed.

Lemma stripClose_suffix (text : jsstring) :
  (forall before after, text = before ++ after -> closesHere after = false) ->
  forall s, trimStart text = s -> stripClose s = s.
Proof.
  intros H s <-. apply stripClose_unfenced. intros before after E.
  destruct (trimStart_split text) as (w & _ & Ew).
  apply (H (w ++ before) after). rewrite Ew at 1. rewrite E.
  now rewrite app_assoc.
Qed.

(** X23: each of the two fences may be left out.  For every JSON text,
    the text after an opening fence with the tag json and no closing
    fence, and the text before a closing fence with no opening fence,
    both decode to the value of the text alone. *)
Theorem each_fence_is_optional (text gap1 gap2 : jsstring) (v : value) :
  forallb isWhiteSpace gap1 = true -> forallb isWhiteSpace gap2 = true ->
  JSON_parse text = Some v ->
  parseJson (str "```json" ++ gap1 ++ text) = Ok v
  /\ parseJson (text ++ gap2 ++ str "```") = Ok v.
Proof.
  intros H1 H2 H. pose proof (json_text_unfenced _ H) as [U1 U2].
  split.
  - unfold parseJson, stripFences.
    replace (startsWith (str "```json" ++ gap1 ++ text) (str "```json"))
      with true by (symmetry; apply startsWith_prefix; eauto).
    change (skipn 7 (str "```json" ++ gap1 ++ text)) with (gap1 ++ text).
    rewrite trimStart_white by assumption.
    rewrite (stripClose_suffix U2 eq_refl).
    unfold trim at 1. unfold trimStart at 1. unfold trimStart at 1.
    rewrite dropStart_twice. fold (trimStart text). fold (trim text).
    now rewrite (JSON_parse_trim _ H).
  - destruct (JSON_text_head _ H) as (c & rest & Ec & Hc).
    unfold parseJson, stripFences.
    replace (startsWith (text ++ gap2 ++ str "```") (str "```json"))
      with false
      by (rewrite Ec, <- app_comm_cons;
          change (str "```json") with (96%N :: str "``json");
          cbn [startsWith]; destruct (N.eqb_spec 96 c);
          [congruence|reflexivity]).
    destruct (last_solid isWhiteSpace text)
      as [W|(body & x & w & E & Hx & Hw)].
    + exfalso.
      pose proof (trim_all_white text W) as T.
      rewrite (JSON_text_trim _ H) in T.
      destruct (JSON_text_shape _ H)
        as (_ & _ & a & r & _ & _ & _ & _ & _ & Ea & _).
      congruence.
    + assert (T : trim (stripClose (text ++ gap2 ++ str "```")) = trim text).
      { rewrite E. destruct (trimStart_body body x Hx) as (b & B1 & B2).
        rewrite <- app_assoc. simpl app. rewrite (app_assoc w).
        rewrite stripClose_solid
          by (try assumption; rewrite forallb_app; now rewrite Hw, H2).
        unfold trim. rewrite (B1 []), (B1 w).
        now rewrite (trimEnd_solid b x [] Hx), (trimEnd_solid b x w Hx). }
      rewrite T. now rewrite (JSON_parse_trim _ H).
Qed.

Lemma each_fence_is_optional_witness :
  let text := quoted "{'summary': 'Start with B', 'items': []}" in
  let v := JObject [(str "summary", JString (str "Start with B"));
                    (str "items", JArray [])] in
  JSON_parse text = Some v
  /\ parseJson (str "```json" ++ [10%N] ++ text) = Ok v
  /\ parseJson (text ++ [10%N] ++ str "```") = Ok v.
Proof.
  cbv zeta. split; [vm_compute; reflexivity|].
  apply (@each_fence_is_optional
           (quoted "{'summary': 'Start with B', 'items': []}")
           [10%N] [10%N]).
  - reflexivity.
  - reflexivity.
  - vm_compute. reflexivity.
Defined.

End Replies.

(* ===================================================================== *)
(** * The assistant panel *)
(* ===================================================================== *)

Section PanelFacts.

Import AiService AIPanel.
Context {Eng : Engine}.

(** The calls of the generation service each function makes. *)
Lemma service_calls (gemini : Service) (todos : list Todo.t)
    (userInput : jsstring) :
  snd (run gemini (getDailyBrief todos))
  = (if Nat.eqb (length todos) 0 then [] else [(BRIEF_PROMPT todos, false)])
  /\ snd (run gemini (getOptimizedPlan todos))
     = (if Nat.eqb (length (List.filter (fun t => negb (Todo.completed t))
                                        todos)) 0
        then [] else [(getOptimizePrompt todos, true)])
  /\ snd (run gemini (parseNaturalLanguageTodo userInput))
     = [(getParseTodoPrompt userInput, true)].
Proof.
  split; [|split].
  - unfold getDailyBrief. destruct (Nat.eqb (length todos) 0); [reflexivity|].
    simpl. now destruct (gemini (BRIEF_PROMPT todos) false).
  - unfold getOptimizedPlan. destruct (Nat.eqb _ 0); [reflexivity|].
    simpl. now destruct (gemini (getOptimizePrompt todos) true).
  - unfold parseNaturalLanguageTodo. simpl.
    now destruct (gemini (getParseTodoPrompt userInput) true).
Qed.

Variable engineMessage : exn -> jsstring.

(** X24: a submit of blank input does nothing.  Any other submit ends
    with the input cleared and the panel showing a result or an error,
    never left loading; the result shown is the one of the branch the
    input selects, with the error message empty; on an error the
    earlier results stay as they were; and the generation service was
    asked at most once, with the prompt of that branch. *)
Theorem handleSubmit_settles (gemini : Service) (todos : list Todo.t)
    (p : Panel) :
  let raw := trim (input p) in
  let p' := fst (handleSubmit engineMessage gemini todos p) in
  let calls := snd (handleSubmit engineMessage gemini todos p) in
  (raw = [] /\ p' = p /\ calls = [])
  \/ (raw <> []
      /\ input p' = []
      /\ commandHighlight p' = commandHighlight p
      /\ commandListOpen p' = commandListOpen p
      /\ match view p' with
         | optimize =>
             route raw = toOptimize /\ errorMessage p' = []
             /\ optimizedPlan p'
                = match fst (run gemini (getOptimizedPlan todos)) with
                  | Ok plan => Some plan
                  | Throw _ => None
                  end
             /\ optimizedPlan p' <> None
             /\ parsedTodo p' = parsedTodo p /\ briefText p' = briefText p
         | brief =>
             route raw = toBrief /\ errorMessage p' = []
             /\ fst (run gemini (getDailyBrief todos)) = Ok (briefText p')
             /\ parsedTodo p' = parsedTodo p
             /\ optimizedPlan p' = optimizedPlan p
         | parsed =>
             route raw = toParse /\ errorMessage p' = []
             /\ parsedTodo p'
                = match fst (run gemini (parseNaturalLanguageTodo raw)) with
                  | Ok todo => Some todo
                  | Throw _ => None
                  end
             /\ parsedTodo p' <> None
             /\ briefText p' = briefText p
             /\ optimizedPlan p' = optimizedPlan p
         | error =>
             parsedTodo p' = parsedTodo p /\ briefText p' = briefText p
             /\ optimizedPlan p' = optimizedPlan p
             /\ exists e,
                  errorMessage p' = messageOf engineMessage e
                  /\ match route raw with
                     | toOptimize =>
                         fst (run gemini (getOptimizedPlan todos)) = Throw e
                     | toBrief =>
                         fst (run gemini (getDailyBrief todos)) = Throw e
                     | toParse =>
                         fst (run gemini (parseNaturalLanguageTodo raw))
                         = Throw e
                     end
         | idle | loading => False
         end
      /\ (calls = []
          \/ calls
             = [match route raw with
                | toOptimize => (getOptimizePrompt todos, true)
                | toBrief => (BRIEF_PROMPT todos, false)
                | toParse => (getParseTodoPrompt raw, true)
                end])).
Proof.
  cbv zeta. unfold handleSubmit.
  destruct (streq (trim (input p)) []) eqn:B.
  - left. apply streq_eq in B. auto.
  - right. apply streq_neq in B. split; [exact B|].
    destruct (service_calls gemini todos (trim (input p))) as (C1 & C2 & C3).
    destruct (route (trim (input p))).
    + clear C1 C3.
      destruct (run gemini (getOptimizedPlan todos)) as [[plan|e] calls];
        simpl in *; repeat split; try discriminate;
        try (exists e; split; reflexivity);
        destruct (Nat.eqb _ 0); auto.
    + clear C2 C3.
      destruct (run gemini (getDailyBrief todos)) as [[text|e] calls];
        simpl in *; repeat split; try discriminate;
        try (exists e; split; reflexivity);
        destruct (Nat.eqb _ 0); auto.
    + clear C1 C2.
      destruct (run gemini (parseNaturalLanguageTodo (trim (input p))))
        as [[todo|e] calls];
        simpl in *; repeat split; try discriminate;
        try (exists e; split; reflexivity); auto.
Qed.

Lemma mod_succ_pred (h n : nat) :
  h < n ->
  (if Nat.eqb ((h + 1) mod n) 0 then n - 1 else (h + 1) mod n - 1) = h.
Proof.
  intros H. destruct (Nat.eq_dec (h + 1) n) as [E|E].
  - rewrite E, Nat.Div0.mod_same. simpl. lia.
  - rewrite Nat.mod_small by lia.
    destruct (Nat.eqb_spec (h + 1) 0); lia.
Qed.

Lemma mod_pred_succ (h n : nat) :
  h < n -> ((if Nat.eqb h 0 then n - 1 else h - 1) + 1) mod n = h.
Proof.
  intros H. destruct (Nat.eqb_spec h 0) as [->|E].
  - replace (n - 1 + 1) with n by lia. apply Nat.Div0.mod_same.
  - replace (h - 1 + 1) with h by lia. now apply Nat.mod_small.
Qed.

Lemma onKeyDown_idle (key : String.string) (p : Panel) :
  showCommands (input p) = false -> onKeyDown key p = p.
Proof. intros H. unfold onKeyDown. now rewrite H. Qed.

Lemma onKeyDown_ArrowDown (p : Panel) :
  showCommands (input p) = true -> hasCommands (input p) = true ->
  onKeyDown "ArrowDown" p
  = mkPanel (input p) (view p) (parsedTodo p) (briefText p)
            (optimizedPlan p) (errorMessage p)
            ((commandHighlight p + 1) mod length (filteredCommands (input p)))
            (commandListOpen p).
Proof. intros Hs Hc. unfold onKeyDown. now rewrite Hs, Hc. Qed.

Lemma onKeyDown_ArrowUp (p : Panel) :
  showCommands (input p) = true -> hasCommands (input p) = true ->
  onKeyDown "ArrowUp" p
  = mkPanel (input p) (view p) (parsedTodo p) (briefText p)
            (optimizedPlan p) (errorMessage p)
            (if Nat.eqb (commandHighlight p) 0
             then length (filteredCommands (input p)) - 1
             else commandHighlight p - 1)
            (commandListOpen p).
Proof. intros Hs Hc. unfold onKeyDown. now rewrite Hs, Hc. Qed.

(** X25: with the highlight on a listed command, the arrow keys move
    it around the list and nothing else: it stays on a listed command,
    ArrowUp undoes ArrowDown and ArrowDown undoes ArrowUp. *)
Theorem arrows_cycle (p : Panel) :
  commandHighlight p < length (filteredCommands (input p)) ->
  onKeyDown "ArrowUp" (onKeyDown "ArrowDown" p) = p
  /\ onKeyDown "ArrowDown" (onKeyDown "ArrowUp" p) = p
  /\ commandHighlight (onKeyDown "ArrowDown" p)
     < length (filteredCommands (input p))
  /\ commandHighlight (onKeyDown "ArrowUp" p)
     < length (filteredCommands (input p))
  /\ (showCommands (input p) = true ->
      commandHighlight (onKeyDown "ArrowDown" p)
      = (commandHighlight p + 1) mod length (filteredCommands (input p))).
Proof.
  intros H.
  assert (Hc : hasCommands (input p) = true).
  { unfold hasCommands.
    destruct (filteredCommands (input p)); [simpl in H; lia|]. reflexivity. }
  destruct (showCommands (input p)) eqn:Hs.
  - rewrite (onKeyDown_ArrowDown p Hs Hc), (onKeyDown_ArrowUp p Hs Hc).
    rewrite onKeyDown_ArrowUp, onKeyDown_ArrowDown by assumption.
    destruct p as [inp v pt bt op em h o].
    cbn [input commandHighlight view parsedTodo briefText optimizedPlan
         errorMessage commandListOpen] in *.
    set (n := length (filteredCommands inp)) in *.
    assert (n <> 0) by lia.
    repeat split.
    + f_equal. now apply mod_succ_pred.
    + f_equal. now apply mod_pred_succ.
    + now apply Nat.mod_upper_bound.
    + destruct (Nat.eqb_spec h 0); lia.
  - repeat rewrite (onKeyDown_idle _ p Hs).
    repeat split; try assumption. discriminate.
Qed.

Lemma findIndex_split {T} (f : T -> bool) (l : list T) :
  findIndex f l <> (-1)%Z ->
  exists x rest,
    l = firstn (Z.to_nat (findIndex f l)) l ++ x :: rest
    /\ f x = true
    /\ forallb (fun y => negb (f y)) (firstn (Z.to_nat (findIndex f l)) l)
       = true.
Proof.
  induction l as [|y l IH]; simpl findIndex; [congruence|].
  destruct (f y) eqn:Fy.
  - intros _. exists y, l. simpl. auto.
  - destruct (Z.ltb_spec (findIndex f l) 0) as [L|L]; [congruence|].
    intros _.
    destruct IH as (x & rest & E & Fx & Fa); [lia|].
    exists x, rest.
    replace (Z.to_nat (findIndex f l + 1))
      with (S (Z.to_nat (findIndex f l))) by lia.
    simpl. rewrite Fy, Fa. rewrite <- E. auto.
Qed.

Lemma findIndex_none {T} (f : T -> bool) (l : list T) :
  forallb (fun y => negb (f y)) l = true -> findIndex f l = (-1)%Z.
Proof.
  induction l as [|y l IH]; simpl; [reflexivity|].
  intros H. apply andb_true_iff in H as [Hy Hl].
  apply negb_true_iff in Hy. rewrite Hy, (IH Hl). reflexivity.
Qed.

(** X26: Escape in the command list cuts the input at its first at
    sign: what was typed before it stays, no at sign is left, so the
    command list is gone and the keys of the list do nothing more. *)
Theorem escape_cuts_at_the_at_sign (p : Panel) :
  showCommands (input p) = true -> hasCommands (input p) = true ->
  let p' := onKeyDown "Escape" p in
  (exists rest, input p = input p' ++ 64%N :: rest)
  /\ ~ In 64%N (input p')
  /\ showCommands (input p') = false
  /\ commandListOpen p' = false
  /\ forall key, onKeyDown key p' = p'.
Proof.
  intros Hs Hc. cbv zeta.
  assert (E : onKeyDown "Escape" p
              = mkPanel (firstn (Z.to_nat (atIndex (input p))) (input p))
                        (view p) (parsedTodo p) (briefText p)
                        (optimizedPlan p) (errorMessage p)
                        (commandHighlight p) false).
  { unfold onKeyDown. rewrite Hs, Hc. reflexivity. }
  rewrite E. cbn [input commandListOpen].
  unfold showCommands in Hs. apply negb_true_iff, Z.eqb_neq in Hs.
  destruct (findIndex_split (N.eqb 64) (input p) Hs) as (x & rest & Ei & Fx & Fa).
  apply N.eqb_eq in Fx. subst x. fold (atIndex (input p)) in Ei, Fa.
  assert (Hn : showCommands (firstn (Z.to_nat (atIndex (input p))) (input p))
               = false).
  { unfold showCommands, atIndex at 1. now rewrite (findIndex_none _ _ Fa). }
  split; [now exists rest|]. split.
  - intros I. rewrite forallb_forall in Fa. apply Fa in I.
    now rewrite N.eqb_refl in I.
  - split; [exact Hn|]. split; [reflexivity|].
    intros key. unfold onKeyDown. cbn [input]. now rewrite Hn.
Qed.

Lemma command_labels :
  filterAfterAt (str "@optimize") = str "optimize"
  /\ filterAfterAt (str "@brief") = str "brief"
  /\ route (trim (str "@optimize")) = toOptimize
  /\ route (trim (str "@brief")) = toBrief.
Proof.
  unfold filterAfterAt, route.
  change (trim (str "@optimize")) with (str "@optimize").
  change (trim (str "@brief")) with (str "@brief").
  change (skipn (Z.to_nat (atIndex (str "@optimize") + 1)) (str "@optimize"))
    with (str "optimize").
  change (skipn (Z.to_nat (atIndex (str "@brief") + 1)) (str "@brief"))
    with (str "brief").
  rewrite !toLowerCase_ascii by reflexivity.
  repeat split.
Qed.

(** X27: Enter on the highlighted command puts its label into the
    input and closes the list; the command is still listed for that
    input; and a submit of it runs that command and not the parser:
    the panel does not show a parsed todo, the parsed todo it held is
    unchanged, and no parse prompt was sent. *)
Theorem chosen_command_runs (gemini : Service) (todos : list Todo.t)
    (p : Panel) (c : Command) :
  showCommands (input p) = true ->
  nth_error (filteredCommands (input p)) (commandHighlight p) = Some c ->
  let p1 := onKeyDown "Enter" p in
  let p2 := fst (handleSubmit engineMessage gemini todos p1) in
  let calls := snd (handleSubmit engineMessage gemini todos p1) in
  input p1 = label c /\ commandListOpen p1 = false
  /\ In c (filteredCommands (input p1))
  /\ route (trim (input p1))
     = (if streq (slug c) (str "optimize") then toOptimize else toBrief)
  /\ (view p2 = error
      \/ view p2 = (if streq (slug c) (str "optimize") then optimize
                    else brief))
  /\ parsedTodo p2 = parsedTodo p
  /\ forall q, In q calls ->
       q = (if streq (slug c) (str "optimize")
            then (getOptimizePrompt todos, true)
            else (BRIEF_PROMPT todos, false)).
Proof.
  intros Hs Hn. cbv zeta.
  assert (Hc : hasCommands (input p) = true).
  { unfold hasCommands. destruct (filteredCommands (input p)); [|reflexivity].
    now destruct (commandHighlight p). }
  assert (E : onKeyDown "Enter" p
              = mkPanel (label c) (view p) (parsedTodo p) (briefText p)
                        (optimizedPlan p) (errorMessage p)
                        (commandHighlight p) false).
  { unfold onKeyDown. rewrite Hs, Hc. cbn [negb orb].
    change (streq (str "Enter") (str "ArrowDown")) with false.
    change (streq (str "Enter") (str "ArrowUp")) with false.
    change (streq (str "Enter") (str "Enter")) with true.
    cbv iota. now rewrite Hn. }
  rewrite E. cbn [input commandListOpen].
  apply nth_error_In in Hn. unfold filteredCommands in Hn.
  apply filter_In in Hn as [Hn _].
  destruct (service_calls gemini todos []) as (C1 & C2 & _).
  destruct command_labels as (F1 & F2 & R1 & R2).
  destruct Hn as [<-|[<-|[]]].
  - cbn [label slug].
    change (streq (str "optimize") (str "optimize")) with true. cbv iota.
    split; [reflexivity|]. split; [reflexivity|].
    split; [unfold filteredCommands; rewrite F1; vm_compute; auto|].
    split; [exact R1|].
    unfold handleSubmit. cbn [input]. rewrite R1.
    change (streq (trim (str "@optimize")) []) with false.
    cbv iota. clear C1.
    destruct (run gemini (getOptimizedPlan todos)) as [[plan|e] calls];
      cbn [snd] in C2; simpl; (split; [auto|]); (split; [reflexivity|]);
      intros q; rewrite C2; destruct (Nat.eqb _ 0); intros Hq;
      simpl in Hq;
      [contradiction|destruct Hq as [<-|[]]; reflexivity
      |contradiction|destruct Hq as [<-|[]]; reflexivity].
  - cbn [label slug].
    change (streq (str "brief") (str "optimize")) with false. cbv iota.
    split; [reflexivity|]. split; [reflexivity|].
    split; [unfold filteredCommands; rewrite F2; vm_compute; auto|].
    split; [exact R2|].
    unfold handleSubmit. cbn [input]. rewrite R2.
    change (streq (trim (str "@brief")) []) with false.
    cbv iota. clear C2.
    destruct (run gemini (getDailyBrief todos)) as [[text|e] calls];
      cbn [snd] in C1; simpl; (split; [auto|]); (split; [reflexivity|]);
      intros q; rewrite C1; destruct (Nat.eqb _ 0); intros Hq;
      simpl in Hq;
      [contradiction|destruct Hq as [<-|[]]; reflexivity
      |contradiction|destruct Hq as [<-|[]]; reflexivity].
Qed.

End PanelFacts.

Section PanelEvaluated.

Import AiService AIPanel.

Lemma arrows_cycle_witness :
  let p := mkPanel (str "plan @") idle None [] None [] 1 true in
  map slug (filteredCommands (input p)) = [str "optimize"; str "brief"]
  /\ commandHighlight (onKeyDown "ArrowDown" p) = 0
  /\ onKeyDown "ArrowUp" (onKeyDown "ArrowDown" p) = p
  /\ onKeyDown "ArrowDown" (onKeyDown "ArrowUp" p) = p
  /\ commandHighlight (onKeyDown "ArrowDown" p)
     < length (filteredCommands (input p))
  /\ commandHighlight (onKeyDown "ArrowUp" p)
     < length (filteredCommands (input p))
  /\ (showCommands (input p) = true ->
      commandHighlight (onKeyDown "ArrowDown" p)
      = (commandHighlight p + 1) mod length (filteredCommands (input p))).
Proof.
  cbv zeta. split; [vm_compute; reflexivity|].
  split; [vm_compute; reflexivity|].
  apply (@arrows_cycle Sample.engine (mkPanel (str "plan @") idle None [] None [] 1 true)).
  vm_compute. lia.
Defined.

Lemma escape_cuts_at_the_at_sign_witness :
  let p := mkPanel (str "buy milk @br") idle None [] None [] 0 true in
  showCommands (input p) = true /\ hasCommands (input p) = true
  /\ input (onKeyDown "Escape" p) = str "buy milk "
  /\ (exists rest, input p = input (onKeyDown "Escape" p) ++ 64%N :: rest)
  /\ ~ In 64%N (input (onKeyDown "Escape" p))
  /\ showCommands (input (onKeyDown "Escape" p)) = false
  /\ commandListOpen (onKeyDown "Escape" p) = false
  /\ forall key, onKeyDown key (onKeyDown "Escape" p) = onKeyDown "Escape" p.
Proof.
  cbv zeta. split; [reflexivity|]. split; [reflexivity|].
  split; [reflexivity|].
  apply (@escape_cuts_at_the_at_sign Sample.engine
           (mkPanel (str "buy milk @br") idle None [] None [] 0 true));
    reflexivity.
Defined.

End PanelEvaluated.

(** The user types an at sign and a b, and presses Enter. *)
Lemma chosen_command_runs_witness :
  let engineMessage : exn -> jsstring := fun _ => str "error" in
  let gemini : AiService.Service := fun _ _ => Ok (str " Two tasks today. ") in
  let p := AIPanel.mkPanel (str "@b") AIPanel.idle None [] None [] 0 true in
  let c := AIPanel.mkCommand (str "brief") (str "@brief")
                             (str "Your day in 60 seconds") in
  let p1 := AIPanel.onKeyDown "Enter" p in
  let p2 := fst (AIPanel.handleSubmit engineMessage gemini
                   Sample.collection p1) in
  let calls := snd (AIPanel.handleSubmit engineMessage gemini
                      Sample.collection p1) in
  AIPanel.showCommands (AIPanel.input p) = true
  /\ nth_error (AIPanel.filteredCommands (AIPanel.input p))
               (AIPanel.commandHighlight p) = Some c
  /\ AIPanel.briefText p2 = str "Two tasks today."
  /\ AIPanel.input p1 = AIPanel.label c
  /\ AIPanel.commandListOpen p1 = false
  /\ In c (AIPanel.filteredCommands (AIPanel.input p1))
  /\ AIPanel.route (trim (AIPanel.input p1))
     = (if streq (AIPanel.slug c) (str "optimize")
        then AIPanel.toOptimize else AIPanel.toBrief)
  /\ (AIPanel.view p2 = AIPanel.error
      \/ AIPanel.view p2
         = (if streq (AIPanel.slug c) (str "optimize")
            then AIPanel.optimize else AIPanel.brief))
  /\ AIPanel.parsedTodo p2 = AIPanel.parsedTodo p
  /\ forall q, In q calls ->
       q = (if streq (AIPanel.slug c) (str "optimize")
            then (AiService.getOptimizePrompt Sample.collection, true)
            else (AiService.BRIEF_PROMPT Sample.collection, false)).
Proof.
  cbv zeta. split; [reflexivity|]. split; [reflexivity|].
  split; [vm_compute; reflexivity|].
  apply (@chosen_command_runs Sample.engine (fun _ => str "error")
           (fun _ _ => Ok (str " Two tasks today. ")) Sample.collection
           (AIPanel.mkPanel (str "@b") AIPanel.idle None [] None [] 0 true)
           (AIPanel.mkCommand (str "brief") (str "@brief")
                              (str "Your day in 60 seconds")));
    reflexivity.
Defined.

(* ===================================================================== *)
(** * The generation client *)
(* ===================================================================== *)

Section Client.

Import Gemini AiService.

(** X28: [hasGeminiKey] and the guard of [generateWithGemini] agree.
    Without a key, or with the empty key, the call throws its
    missing-key error and [fetch] is not called; with a key, [fetch] is
    called exactly once, with that key, the prompt and the mode. *)
Theorem key_guard_agrees (GEMINI_API_KEY : option jsstring) (fetch : Fetch)
    (prompt : jsstring) (jsonMode : bool) :
  (hasGeminiKey GEMINI_API_KEY = false
   <-> generateWithGemini GEMINI_API_KEY fetch prompt jsonMode
       = (Throw (Error (str "Gemini API key is missing. Add VITE_GEMINI_API_KEY to your .env file.")),
          []))
  /\ (hasGeminiKey GEMINI_API_KEY = true
      <-> exists k,
            GEMINI_API_KEY = Some k
            /\ snd (generateWithGemini GEMINI_API_KEY fetch prompt jsonMode)
               = [mkCall k prompt jsonMode]).
Proof.
  destruct GEMINI_API_KEY as [[|c k]|]; simpl; split; split;
    try reflexivity; try discriminate.
  - intros (k & _ & H). discriminate.
  - intros _. now exists (c :: k).
  - intros (k & H & _). discriminate.
Qed.

(** What the client makes of a response. *)
Lemma generated_text_cases (key : jsstring) (fetch : Fetch)
    (prompt : jsstring) (jsonMode : bool) (res : Response) :
  key <> [] -> fetch (mkCall key prompt jsonMode) = Ok res ->
  (ok res = false ->
   fst (generateWithGemini (Some key) fetch prompt jsonMode)
   = Throw (Error (str "Gemini API error: " ++ decimal (status res)
                   ++ str " " ++ body res)))
  /\ (ok res = true -> JSON_parse (body res) = None ->
      fst (generateWithGemini (Some key) fetch prompt jsonMode)
      = Throw SyntaxError)
  /\ (forall data,
        ok res = true -> JSON_parse (body res) = Some data ->
        first (member "candidates" (Some data)) = None ->
        fst (generateWithGemini (Some key) fetch prompt jsonMode) = Ok []).
Proof.
  intros Hk Hf. destruct key as [|c k]; [congruence|]. simpl.
  rewrite Hf. repeat split.
  - intros ->. reflexivity.
  - intros -> ->. reflexivity.
  - intros data -> -> ->. reflexivity.
Qed.

(** X29: a text that [generateWithGemini] returns has no white space
    around it.  A response that is not ok is thrown as an error that
    carries the status and the body; a body that is no JSON is a
    syntax error; and a reply without candidates gives the empty
    text. *)
Theorem generated_text (key : jsstring) (fetch : Fetch)
    (prompt : jsstring) (jsonMode : bool) :
  match fst (generateWithGemini (Some key) fetch prompt jsonMode) with
  | Ok text => trim text = text
  | Throw _ => True
  end
  /\ (forall res,
        key <> [] -> fetch (mkCall key prompt jsonMode) = Ok res ->
        (ok res = false ->
         fst (generateWithGemini (Some key) fetch prompt jsonMode)
         = Throw (Error (str "Gemini API error: " ++ decimal (status res)
                         ++ str " " ++ body res)))
        /\ (ok res = true -> JSON_parse (body res) = None ->
            fst (generateWithGemini (Some key) fetch prompt jsonMode)
            = Throw SyntaxError)
        /\ (forall data,
              ok res = true -> JSON_parse (body res) = Some data ->
              first (member "candidates" (Some data)) = None ->
              fst (generateWithGemini (Some key) fetch prompt jsonMode)
              = Ok []))
  /\ (forall e,
        key <> [] -> fetch (mkCall key prompt jsonMode) = Throw e ->
        fst (generateWithGemini (Some key) fetch prompt jsonMode) = Throw e).
Proof.
  split; [|split].
  - destruct key as [|c k]; [exact I|]. simpl.
    destruct (fetch _) as [res|]; [|exact I].
    destruct (ok res); simpl; [|exact I].
    destruct (JSON_parse (body res)) as [data|]; [|exact I].
    destruct (member "text" _) as [[]|]; simpl; try exact I;
      try reflexivity.
    apply trim_twice.
  - intros res Hk Hf. now apply generated_text_cases.
  - intros e Hk Hf. destruct key as [|c k]; [congruence|]. simpl.
    now rewrite Hf.
Qed.

(** The service functions over the client; [render] is the text of a
    prompt. *)
Variable render : Prompt -> jsstring.

(** X30: end to end, when the model answers without candidates: the
    client returns the empty text, so the single-task parse and the
    plan throw a syntax error, while the brief comes back empty. *)
Theorem reply_without_candidates (key : jsstring) (fetch : Fetch)
    (todos : list Todo.t) (userInput : jsstring) :
  key <> [] ->
  (forall call, exists res data,
      fetch call = Ok res /\ ok res = true
      /\ JSON_parse (body res) = Some data
      /\ first (member "candidates" (Some data)) = None) ->
  let gemini : Service :=
    fun prompt jsonMode =>
      fst (generateWithGemini (Some key) fetch (render prompt) jsonMode) in
  fst (run gemini (parseNaturalLanguageTodo userInput)) = Throw SyntaxError
  /\ (todos <> [] -> fst (run gemini (getDailyBrief todos)) = Ok [])
  /\ (existsb (fun t => negb (Todo.completed t)) todos = true ->
      fst (run gemini (getOptimizedPlan todos)) = Throw SyntaxError).
Proof.
  intros Hk Hf gemini.
  assert (G : forall prompt jsonMode, gemini prompt jsonMode = Ok []).
  { intros prompt jsonMode. unfold gemini.
    destruct (Hf (mkCall key (render prompt) jsonMode))
      as (res & data & F & O & J & C).
    destruct (@generated_text_cases key fetch (render prompt) jsonMode res
                Hk F)
      as (_ & _ & H).
    exact (H data O J C). }
  split; [|split].
  - unfold parseNaturalLanguageTodo. simpl. now rewrite G.
  - intros Ne. unfold getDailyBrief. destruct todos; [congruence|].
    simpl. now rewrite G.
  - intros Ne. unfold getOptimizedPlan.
    destruct (List.filter (fun t => negb (Todo.completed t)) todos)
      as [|t l] eqn:F.
    + exfalso. apply existsb_exists in Ne as [t [Ht Hc]].
      assert (In t (List.filter (fun t => negb (Todo.completed t)) todos))
        by (apply filter_In; now split).
      rewrite F in *. contradiction.
    + simpl. now rewrite G.
Qed.

End Client.

(** The model answers with an empty object. *)
Lemma reply_without_candidates_witness :
  let render : AiService.Prompt -> jsstring := fun _ => str "prompt" in
  let fetch : Gemini.Fetch :=
    fun _ => Ok (Gemini.mkResponse true 200 (quoted "{}")) in
  let gemini : AiService.Service :=
    fun prompt jsonMode =>
      fst (Gemini.generateWithGemini (Some (str "k")) fetch (render prompt)
                                     jsonMode) in
  fst (AiService.run gemini (AiService.parseNaturalLanguageTodo (str "call mom")))
  = Throw SyntaxError
  /\ (Sample.collection <> [] ->
      fst (AiService.run gemini (AiService.getDailyBrief Sample.collection))
      = Ok [])
  /\ (existsb (fun t => negb (Todo.completed t)) Sample.collection = true ->
      fst (AiService.run gemini (AiService.getOptimizedPlan Sample.collection))
      = Throw SyntaxError).
Proof.
  cbv zeta.
  apply (@reply_without_candidates (fun _ => str "prompt") (str "k")
           (fun _ => Ok (Gemini.mkResponse true 200 (quoted "{}")))
           Sample.collection (str "call mom")).
  - discriminate.
  - intros call. exists (Gemini.mkResponse true 200 (quoted "{}")), (JObject []).
    repeat split.
Defined.
